(** * mqtt_log.py: the MQTT to SQLite and JSON logger

    A shallow embedding of [mqtt_log.py] and the properties of its
    ingestion pipeline: the record codec of [on_message], the receipt
    buffer [message_queue], the dual-sink persister of the main loop and
    the connection callbacks.

    Python values are modelled as follows:
    - [bytes] is [list byte];
    - [str] is [pystr], a list of Unicode code points ([N]);
    - [int] is [Z]; [bool] is [bool]; [None]-able values are [option];
    - the tuple put on the queue is the record [message];
    - exceptions are the type [exn], results are [result]. *)

From Stdlib Require Import List NArith ZArith Lia Bool.
From Stdlib.Strings Require Import String Ascii Byte.
From Stdlib Require Import DecimalString.
From Stdlib Require DecimalZ DecimalPos.
Import ListNotations.
Local Open Scope N_scope.

Set Implicit Arguments.

(* ================================================================== *)
(** ** Python strings *)

Module Py.

(** A Python [str]: a sequence of code points. *)
Definition pystr := list N.

(** A string literal of the source. *)
Definition str (s : string) : pystr :=
  map N_of_ascii (list_ascii_of_string s).

(** [str(n)] for a Python [int]. *)
Definition str_of_int (z : Z) : pystr :=
  str (NilZero.string_of_int (Z.to_int z)).

(** Truthiness of an optional string ([None] and [''] are falsy). *)
Definition truthy (o : option pystr) : bool :=
  match o with
  | None => false
  | Some [] => false
  | Some (_ :: _) => true
  end.

End Py.
Import Py.

(* ================================================================== *)
(** ** [bytes.decode('utf-8')]: strict UTF-8 decoding

    The decoder of the Python runtime (errors='strict'): shortest form
    only, no surrogates, nothing above U+10FFFF.  [None] stands for
    [UnicodeDecodeError]. *)

Module Utf8.

Definition is_cont (n : N) : bool := (0x80 <=? n) && (n <=? 0xBF).

Definition in_range (lo hi n : N) : bool := (lo <=? n) && (n <=? hi).

(** Allowed range of the second byte, by lead byte (RFC 3629, table 3-7). *)
Definition second_lo (lead : N) : N :=
  if (lead =? 0xE0) then 0xA0
  else if (lead =? 0xF0) then 0x90 else 0x80.

Definition second_hi (lead : N) : N :=
  if (lead =? 0xED) then 0x9F
  else if (lead =? 0xF4) then 0x8F else 0xBF.

Fixpoint decode (bs : list byte) : option pystr :=
  match bs with
  | [] => Some []
  | b0 :: t0 =>
    let n0 := Byte.to_N b0 in
    if (n0 <? 0x80) then option_map (cons n0) (decode t0)
    else if in_range 0xC2 0xDF n0 then
      match t0 with
      | b1 :: t1 =>
        let n1 := Byte.to_N b1 in
        if is_cont n1
        then option_map (cons ((n0 - 0xC0) * 64 + (n1 - 0x80))) (decode t1)
        else None
      | _ => None
      end
    else if in_range 0xE0 0xEF n0 then
      match t0 with
      | b1 :: b2 :: t2 =>
        let n1 := Byte.to_N b1 in
        let n2 := Byte.to_N b2 in
        if in_range (second_lo n0) (second_hi n0) n1 && is_cont n2
        then option_map
               (cons ((n0 - 0xE0) * 4096 + (n1 - 0x80) * 64 + (n2 - 0x80)))
               (decode t2)
        else None
      | _ => None
      end
    else if in_range 0xF0 0xF4 n0 then
      match t0 with
      | b1 :: b2 :: b3 :: t3 =>
        let n1 := Byte.to_N b1 in
        let n2 := Byte.to_N b2 in
        let n3 := Byte.to_N b3 in
        if in_range (second_lo n0) (second_hi n0) n1
           && is_cont n2 && is_cont n3
        then option_map
               (cons ((n0 - 0xF0) * 262144 + (n1 - 0x80) * 4096
                      + (n2 - 0x80) * 64 + (n3 - 0x80)))
               (decode t3)
        else None
      | _ => None
      end
    else None
  end.

End Utf8.

(* ================================================================== *)
(** ** [base64.b64encode] and its inverse (RFC 4648, standard alphabet) *)

Module Base64.

Definition alphabet : list byte :=
  list_byte_of_string
    "ABCDEFGHIJKLMNOPQRSTUVWXYZabcdefghijklmnopqrstuvwxyz0123456789+/".

Definition pad : byte := "=".

(** The character of a 6-bit value. *)
Definition char_of (i : N) : byte := nth (N.to_nat i) alphabet pad.

(** The 6-bit value of a character of the alphabet. *)
Definition index_of (b : byte) : option N :=
  let c := Byte.to_N b in
  if (65 <=? c) && (c <=? 90) then Some (c - 65)
  else if (97 <=? c) && (c <=? 122) then Some (c - 71)
  else if (48 <=? c) && (c <=? 57) then Some (c + 4)
  else if c =? 43 then Some 62
  else if c =? 47 then Some 63
  else None.

(** [b64encode]: three bytes become four characters; the last group is
    padded with '='. *)
Fixpoint b64encode (bs : list byte) : list byte :=
  match bs with
  | [] => []
  | [a] =>
    let a := Byte.to_N a in
    [char_of (a / 4); char_of ((a mod 4) * 16); pad; pad]
  | [a; b] =>
    let a := Byte.to_N a in
    let b := Byte.to_N b in
    [char_of (a / 4); char_of ((a mod 4) * 16 + b / 16);
     char_of ((b mod 16) * 4); pad]
  | a :: b :: c :: rest =>
    let a := Byte.to_N a in
    let b := Byte.to_N b in
    let c := Byte.to_N c in
    char_of (a / 4) :: char_of ((a mod 4) * 16 + b / 16)
      :: char_of ((b mod 16) * 4 + c / 64) :: char_of (c mod 64)
      :: b64encode rest
  end.

Definition byte_of (n : N) : byte :=
  match Byte.of_N n with
  | Some b => b
  | None => x00
  end.

Definition is_pad (b : byte) : bool := Byte.to_N b =? Byte.to_N pad.

(** The inverse transform on bytes, on whole groups of four characters;
    [None] on anything that is not canonical base64. *)
Fixpoint b64decode_bytes (cs : list byte) : option (list byte) :=
  match cs with
  | [] => Some []
  | c0 :: c1 :: c2 :: c3 :: rest =>
    match index_of c0, index_of c1 with
    | Some i0, Some i1 =>
      let a := byte_of (i0 * 4 + i1 / 16) in
      if is_pad c2 && is_pad c3 then
        match rest with
        | [] => if i1 mod 16 =? 0 then Some [a] else None
        | _ => None
        end
      else
        match index_of c2 with
        | Some i2 =>
          let b := byte_of ((i1 mod 16) * 16 + i2 / 4) in
          if is_pad c3 then
            match rest with
            | [] => if i2 mod 4 =? 0 then Some [a; b] else None
            | _ => None
            end
          else
            match index_of c3 with
            | Some i3 =>
              let c := byte_of ((i2 mod 4) * 64 + i3) in
              option_map (fun t => a :: b :: c :: t) (b64decode_bytes rest)
            | None => None
            end
        | None => None
        end
    | _, _ => None
    end
  | _ => None
  end.

(** [str.encode('ascii')]: [None] when a code point is not ASCII. *)
Fixpoint ascii_encode (s : pystr) : option (list byte) :=
  match s with
  | [] => Some []
  | c :: t =>
    if c <? 128 then option_map (cons (byte_of c)) (ascii_encode t)
    else None
  end.

(** [base64.b64decode] of a [str]. *)
Definition b64decode (s : pystr) : option (list byte) :=
  match ascii_encode s with
  | Some cs => b64decode_bytes cs
  | None => None
  end.

End Base64.

(* ================================================================== *)
(** ** [json.dumps] on the dictionaries of [save_to_json]

    The encoder of the Python runtime with its defaults
    ([ensure_ascii=True], separators [", "] and [": "]). *)

Module Json.

Inductive value :=
| JStr (s : pystr)
| JInt (z : Z)
| JBool (b : bool).

(** A [dict] literal: keys in insertion order. *)
Definition dict := list (pystr * value).

Definition hex_digit (d : N) : N :=
  if d <? 10 then 48 + d else 87 + d.

(** ['\\u{0:04x}'.format(n)] *)
Definition escape_u (n : N) : pystr :=
  str "\u" ++ [hex_digit (n / 4096 mod 16); hex_digit (n / 256 mod 16);
               hex_digit (n / 16 mod 16); hex_digit (n mod 16)].

(** One character of [py_encode_basestring_ascii]. *)
Definition escape_char (c : N) : pystr :=
  if c =? 34 then str "\" ++ [34]
  else if c =? 92 then str "\\"
  else if c =? 10 then str "\n"
  else if c =? 13 then str "\r"
  else if c =? 9 then str "\t"
  else if c =? 12 then str "\f"
  else if c =? 8 then str "\b"
  else if (32 <=? c) && (c <=? 126) then [c]
  else if c <? 65536 then escape_u c
  else
    let v := c - 65536 in
    escape_u (N.lor 0xd800 (N.land (N.shiftr v 10) 0x3ff))
    ++ escape_u (N.lor 0xdc00 (N.land v 0x3ff)).

Definition encode_str (s : pystr) : pystr :=
  [34] ++ flat_map escape_char s ++ [34].

Definition encode (v : value) : pystr :=
  match v with
  | JStr s => encode_str s
  | JInt z => str_of_int z
  | JBool true => str "true"
  | JBool false => str "false"
  end.

Definition encode_item (kv : pystr * value) : pystr :=
  encode_str (fst kv) ++ str ": " ++ encode (snd kv).

Fixpoint join (sep : pystr) (l : list pystr) : pystr :=
  match l with
  | [] => []
  | [x] => x
  | x :: t => x ++ sep ++ join sep t
  end.

Definition dumps (d : dict) : pystr :=
  str "{" ++ join (str ", ") (map encode_item d) ++ str "}".

End Json.

(* ================================================================== *)
(** ** Data of the program *)

(** The tuple [(topic, payload, datetime, qos, retain)] put on
    [message_queue], inserted as a row and passed to [save_to_json]. *)
Record message := Message {
  topic : pystr;
  payload : pystr;
  datetime : pystr;
  qos : Z;
  retain : bool
}.

(** [paho.mqtt.client.MQTTMessage], as delivered to [on_message]. *)
Record MQTTMessage := {
  msg_topic : pystr;
  msg_payload : list byte;
  msg_qos : Z;
  msg_retain : bool
}.

(** [paho.mqtt.reasoncodes.ReasonCode]: compared with [== 0] by value,
    rendered by name in f-strings. *)
Record ReasonCode := {
  rc_value : Z;
  rc_name : pystr
}.

(** The parsed command line ([args]). *)
Record Args := {
  host : pystr;
  port : Z;
  username : option pystr;
  password : option pystr;
  db : pystr;
  json : pystr
}.

(** Exceptions: [PyException] is any instance of [Exception]
    ([sqlite3.Error], [OSError], ...) with its [str(e)];
    [KeyboardInterrupt] derives from [BaseException] only. *)
Inductive exn :=
| PyException (text : pystr)
| KeyboardInterrupt.

Inductive result (A : Type) :=
| Ok (a : A)
| Raise (e : exn).
Arguments Ok {A} a.
Arguments Raise {A} e.

Inductive level := INFO | WARNING | ERROR.

(** Calls to the outside, in the order they are made.  A call that
    raises is followed by [Raised].  [Call_save_to_sqlite_batch],
    [Call_save_to_json] and [Drained] are history entries: the entry of
    the two sink functions and the end of the drain loop of a tick. *)
Inductive event :=
| Log (lvl : level) (text : pystr)
| Sqlite3Connect (path : pystr)
| CreateTable
| ExecuteMany (rows : list message)
| Commit
| CursorClose
| ConnClose
| OpenAppend (path : pystr)
| FileWrite (data : pystr)
| FileClose
| Sleep (seconds : Z)
| QueuePut (m : message)
| QueueGet (m : message)
| ClientNew
| UsernamePwSet (u p : option pystr)
| Connect (h : pystr) (p : Z) (keepalive : Z)
| LoopStart
| LoopStop
| Disconnect
| Subscribe (t : pystr)
| Reconnect
| Raised (e : exn)
| Call_save_to_sqlite_batch (rows : list message)
| Call_save_to_json (m : message)
| Drained (batch : list message).

(** The state outside the two threads' local variables. *)
Record world := World {
  message_queue : list message;   (* [Queue()], oldest first *)
  db_rows : list message;         (* committed rows of [mqtt_messages] *)
  db_pending : list message;      (* rows of the open transaction *)
  json_file : pystr;              (* contents of [args.json] *)
  loop_running : bool;            (* the network loop thread *)
  connected : bool;               (* the client holds a socket *)
  faults : list (option exn);     (* outcomes of the main thread's next fallible
                                     calls, one for each row of an insert *)
  trace : list event
}.

Definition set_queue (q : list message) (w : world) : world :=
  World q (db_rows w) (db_pending w) (json_file w) (loop_running w)
        (connected w) (faults w) (trace w).

Definition set_db (rows pending : list message) (w : world) : world :=
  World (message_queue w) rows pending (json_file w) (loop_running w)
        (connected w) (faults w) (trace w).

Definition set_file (f : pystr) (w : world) : world :=
  World (message_queue w) (db_rows w) (db_pending w) f (loop_running w)
        (connected w) (faults w) (trace w).

Definition set_loop (b : bool) (w : world) : world :=
  World (message_queue w) (db_rows w) (db_pending w) (json_file w) b
        (connected w) (faults w) (trace w).

Definition set_connected (b : bool) (w : world) : world :=
  World (message_queue w) (db_rows w) (db_pending w) (json_file w)
        (loop_running w) b (faults w) (trace w).

Definition set_faults (fs : list (option exn)) (w : world) : world :=
  World (message_queue w) (db_rows w) (db_pending w) (json_file w)
        (loop_running w) (connected w) fs (trace w).

Definition record (e : event) (w : world) : world :=
  World (message_queue w) (db_rows w) (db_pending w) (json_file w)
        (loop_running w) (connected w) (faults w) (trace w ++ [e]).

(* ================================================================== *)
(** ** The monad of the program: state and exceptions *)

Definition M (A : Type) : Type := world -> result A * world.

Definition ret {A} (a : A) : M A := fun w => (Ok a, w).

Definition bind {A B} (m : M A) (k : A -> M B) : M B :=
  fun w =>
    match m w with
    | (Ok a, w') => k a w'
    | (Raise e, w') => (Raise e, w')
    end.

Definition raise {A} (e : exn) : M A := fun w => (Raise e, w).

Notation "x <- m ;; k" := (bind m (fun x => k))
  (at level 61, m at next level, right associativity).
Notation "m ;; k" := (bind m (fun _ => k))
  (at level 61, right associativity).

(** [try: body / except Exception as e: handler(str(e))] *)
Definition try_except_Exception {A} (body : M A) (handler : pystr -> M A)
  : M A :=
  fun w =>
    match body w with
    | (Raise (PyException text), w') => handler text w'
    | r => r
    end.

(** [try: body / finally: cleanup] *)
Definition try_finally {A} (body : M A) (cleanup : M unit) : M A :=
  fun w =>
    match body w with
    | (r, w') =>
      match cleanup w' with
      | (Ok _, w'') => (r, w'')
      | (Raise e, w'') => (Raise e, w'')
      end
    end.

(** A call that cannot fail: it is recorded and takes effect. *)
Definition emit (e : event) (effect : world -> world) : M unit :=
  fun w => (Ok tt, effect (record e w)).

(** A call of the main thread that can fail: it is recorded, then the
    next entry of [faults] decides; a call that raises has no effect. *)
Definition call (e : event) (effect : world -> world) : M unit :=
  fun w =>
    let w1 := record e w in
    match faults w1 with
    | Some x :: fs => (Raise x, record (Raised x) (set_faults fs w1))
    | None :: fs => (Ok tt, effect (set_faults fs w1))
    | [] => (Ok tt, effect w1)
    end.

(** One fallible step inside a call already recorded: the next entry of
    [faults] decides; a step that raises has no effect. *)
Definition attempt (effect : world -> world) : M unit :=
  fun w =>
    match faults w with
    | Some x :: fs => (Raise x, record (Raised x) (set_faults fs w))
    | None :: fs => (Ok tt, effect (set_faults fs w))
    | [] => (Ok tt, effect w)
    end.

(** [time.sleep] in the main thread: nothing but an interrupt ends it
    early; any other entry of [faults] passes. *)
Definition time_sleep (seconds : Z) : M unit :=
  fun w =>
    let w1 := record (Sleep seconds) w in
    match faults w1 with
    | Some KeyboardInterrupt :: fs =>
      (Raise KeyboardInterrupt,
       record (Raised KeyboardInterrupt) (set_faults fs w1))
    | _ :: fs => (Ok tt, set_faults fs w1)
    | [] => (Ok tt, w1)
    end.

Definition skip (w : world) : world := w.

Definition logger_info (text : pystr) : M unit := emit (Log INFO text) skip.
Definition logger_warning (text : pystr) : M unit :=
  emit (Log WARNING text) skip.
Definition logger_error (text : pystr) : M unit :=
  emit (Log ERROR text) skip.

(** [message_queue.put(m)] *)
Definition queue_put (m : message) : M unit :=
  emit (QueuePut m) (fun w => set_queue (message_queue w ++ [m]) w).

(* ================================================================== *)
(** ** The functions of [mqtt_log.py] *)

Section Program.

Variable args : Args.

(** [setup_sqlite] (lines 38-52) *)
Definition setup_sqlite : M unit :=
  call (Sqlite3Connect (db args)) skip;;
  call CreateTable skip;;
  call Commit (fun w => set_db (db_rows w ++ db_pending w) [] w).

(** The rows of [cursor.executemany], one at a time: the statement runs
    once for each row, in the open transaction.  A row that fails
    raises and leaves the rows before it in the transaction. *)
Fixpoint insert_rows (rows : list message) : M unit :=
  match rows with
  | [] => ret tt
  | m :: rest =>
    attempt (fun w => set_db (db_rows w) (db_pending w ++ [m]) w);;
    insert_rows rest
  end.

(** [cursor.executemany(sql, rows)] *)
Definition executemany (rows : list message) : M unit :=
  emit (ExecuteMany rows) skip;;
  insert_rows rows.

(** [save_to_sqlite_batch] (lines 55-63): [executemany] inserts the
    rows in the open transaction, [commit] makes them durable; rows a
    failed [executemany] or a failed [commit] left in the transaction
    are made durable by the next [commit] that succeeds. *)
Definition save_to_sqlite_batch (messages : list message) : M unit :=
  emit (Call_save_to_sqlite_batch messages) skip;;
  try_except_Exception
    (executemany messages;;
     call Commit (fun w => set_db (db_rows w ++ db_pending w) [] w))
    (fun e => logger_error (str "Error saving to SQLite: " ++ e)).

(** The dictionary built at lines 68-74. *)
Definition message_dict (m : message) : Json.dict :=
  [ (str "topic", Json.JStr (topic m));
    (str "payload", Json.JStr (payload m));
    (str "datetime", Json.JStr (datetime m));
    (str "qos", Json.JInt (qos m));
    (str "retain", Json.JBool (retain m)) ].

Definition newline : pystr := [10].

(** [with open(args.json, 'a') as f: body]: every write goes to the end
    of the file; the file is closed on the way out. *)
Definition with_open_append (path : pystr) (body : M unit) : M unit :=
  call (OpenAppend path) skip;;
  try_finally body (emit FileClose skip).

Definition file_write (data : pystr) : M unit :=
  call (FileWrite data) (fun w => set_file (json_file w ++ data) w).

(** [save_to_json] (lines 66-78) *)
Definition save_to_json (m : message) : M unit :=
  emit (Call_save_to_json m) skip;;
  try_except_Exception
    (let message := message_dict m in
     with_open_append (json args)
       (file_write (Json.dumps message ++ newline)))
    (fun e => logger_error (str "Error saving to JSON file: " ++ e)).

(** The payload stored by [on_message] (lines 83-87): the decoded text,
    or on [UnicodeDecodeError] the base64 text.  The second component
    tells whether the fallback was taken; [None] would be an uncaught
    [UnicodeDecodeError] of the second [decode]. *)
Definition stored_payload (raw : list byte) : option (pystr * bool) :=
  match Utf8.decode raw with
  | Some text => Some (text, false)
  | None =>
    match Utf8.decode (Base64.b64encode raw) with
    | Some text => Some (text, true)
    | None => None
    end
  end.

(** [on_message] (lines 81-91); [now] is
    [datetime.now().strftime('%Y-%m-%d %H:%M:%S')]. *)
Definition on_message (now : pystr) (msg : MQTTMessage) : M unit :=
  let topic := msg_topic msg in
  payload <-
    match stored_payload (msg_payload msg) with
    | Some (text, false) => ret text
    | Some (text, true) =>
      logger_warning (str "Non-UTF-8 payload detected on topic: " ++ topic
                      ++ str ". Stored as base64.");;
      ret text
    | None => raise (PyException (str "UnicodeDecodeError"))
    end;;
  let qos := msg_qos msg in
  let retain := msg_retain msg in
  logger_info (str "Received message: " ++ payload ++ str " on topic: "
               ++ topic);;
  queue_put (Message topic payload now qos retain).

(** [on_connect] (lines 94-99) *)
Definition on_connect (reason_code : ReasonCode) : M unit :=
  if (rc_value reason_code =? 0)%Z then
    logger_info (str "Connected to MQTT broker");;
    emit (Subscribe (str "#")) skip
  else
    logger_error (str "Connection failed with code " ++ rc_name reason_code).

(** [on_disconnect] (lines 102-107) *)
Definition on_disconnect (reason_code : ReasonCode) : M unit :=
  logger_warning (str "Disconnected from MQTT broker");;
  if negb (rc_value reason_code =? 0)%Z then
    logger_warning (str "Unexpected disconnection (Reason code: "
                    ++ rc_name reason_code ++ str "). Reconnecting...");;
    emit (Sleep 5) skip;;
    emit Reconnect (set_connected true)
  else ret tt.

(** [setup_mqtt] (lines 110-120) *)
Definition setup_mqtt : M unit :=
  call ClientNew skip;;
  logger_info (str "Setting up MQTT client...");;
  logger_info (str "Connecting to " ++ host args ++ str ":"
               ++ str_of_int (port args));;
  (if truthy (username args) && truthy (password args)
   then call (UsernamePwSet (username args) (password args)) skip
   else ret tt);;
  call (Connect (host args) (port args) 60) (set_connected true).

(* ------------------------------------------------------------------ *)
(** *** The main program (lines 122-144)

    The main thread runs one statement at a time; between two of its
    statements the network thread may run a callback.  [pc] is the
    statement the main thread is at, with its local variables. *)

Inductive pc :=
| L129                                   (* batch_messages = [] *)
| L130 (batch_messages : list message)   (* while not message_queue.empty() *)
| L131 (batch_messages : list message)   (* batch_messages.append(message_queue.get()) *)
| L132 (batch_messages : list message)   (* if batch_messages: save_to_sqlite_batch(...) *)
| L134 (rest : list message)             (* for message in batch_messages: save_to_json *)
| L136                                   (* time.sleep(1) *)
| Exited (code : Z).

Definition sys : Type := pc * world.

(** Exit status of the interpreter on an uncaught exception. *)
Definition exit_code_uncaught (e : exn) : Z :=
  match e with
  | KeyboardInterrupt => 130
  | PyException _ => 1
  end.

(** Lines 123-126. *)
Definition startup : M unit :=
  setup_sqlite;;
  setup_mqtt;;
  call LoopStart (set_loop true);;
  logger_info (str "Listening for MQTT messages...").

(** [except KeyboardInterrupt:] (lines 137-138) *)
Definition except_KeyboardInterrupt (e : exn) : M unit :=
  match e with
  | KeyboardInterrupt => logger_info (str "Shutting down...")
  | _ => raise e
  end.

(** The reason code of a disconnect the client asked for. *)
Definition normal_disconnection : ReasonCode :=
  {| rc_value := 0; rc_name := str "Normal disconnection" |}.

(** [mqtt_client.disconnect()] once the loop thread is stopped.
    Without a socket the call only returns an error code.  With one, no
    thread is left to write the DISCONNECT packet: the call writes it
    itself, runs [on_disconnect] with reason code 0 in the calling
    thread, and closes the socket. *)
Definition client_disconnect : M unit :=
  fun w =>
    if connected w
    then (call Disconnect skip;;
          on_disconnect normal_disconnection;;
          fun w' => (Ok tt, set_connected false w')) w
    else call Disconnect skip w.

(** [finally:] (lines 139-144) *)
Definition finally_block : M unit :=
  call LoopStop (set_loop false);;
  client_disconnect;;
  call CursorClose skip;;
  call ConnClose skip;;
  logger_info (str "Shutdown complete.").

(** An exception [e] leaves the [try] body: handler, then [finally],
    then the end of the script. *)
Definition leave_try (e : exn) (w : world) : sys :=
  match try_finally (except_KeyboardInterrupt e) finally_block w with
  | (Ok _, w') => (Exited 0, w')
  | (Raise e', w') => (Exited (exit_code_uncaught e'), w')
  end.

(** A statement of the [try] body: go on at [next], or leave. *)
Definition continue (next : pc) (r : result unit * world) : sys :=
  match r with
  | (Ok _, w') => (next, w')
  | (Raise e, w') => leave_try e w'
  end.

(** One statement of the main thread. *)
Definition main_step (s : sys) : sys :=
  let (l, w) := s in
  match l with
  | L129 => (L130 [], w)
  | L130 batch =>
    match message_queue w with
    | [] => (L132 batch, record (Drained batch) w)
    | _ :: _ => (L131 batch, w)
    end
  | L131 batch =>
    match message_queue w with
    | [] => (L131 batch, w)                      (* [get] blocks *)
    | m :: q => (L130 (batch ++ [m]), record (QueueGet m) (set_queue q w))
    end
  | L132 batch =>
    match batch with
    | [] => (L136, w)
    | _ :: _ => continue (L134 batch) (save_to_sqlite_batch batch w)
    end
  | L134 rest =>
    match rest with
    | [] => (L136, w)
    | m :: rest' => continue (L134 rest') (save_to_json m w)
    end
  | L136 => continue L129 (time_sleep 1 w)
  | Exited c => (Exited c, w)
  end.

(** What the broker makes the network thread do. *)
Inductive net_event :=
| Deliver (now : pystr) (msg : MQTTMessage)
| ConnAck (reason_code : ReasonCode)
| ConnLost (reason_code : ReasonCode).

(** The callback of an event.  The loop thread closes the socket of a
    connection that ended before it calls [on_disconnect]. *)
Definition callback (e : net_event) : M unit :=
  match e with
  | Deliver now msg => on_message now msg
  | ConnAck rc => on_connect rc
  | ConnLost rc => fun w => on_disconnect rc (set_connected false w)
  end.

(** One callback of the network thread; none runs unless the loop
    thread does, and the thread ends with the process. *)
Definition net_step (e : net_event) (s : sys) : sys :=
  let (l, w) := s in
  match l with
  | Exited _ => s
  | _ => if loop_running w then (l, snd (callback e w)) else s
  end.

(** SIGINT arrives between two statements of the main thread:
    [KeyboardInterrupt] is raised where the thread is, inside the [try]
    of line 127. *)
Definition interrupt (s : sys) : sys :=
  let (l, w) := s in
  match l with
  | Exited _ => s
  | _ => leave_try KeyboardInterrupt (record (Raised KeyboardInterrupt) w)
  end.

Inductive action :=
| Main
| Net (e : net_event)
| Interrupt.

Definition step (a : action) (s : sys) : sys :=
  match a with
  | Main => main_step s
  | Net e => net_step e s
  | Interrupt => interrupt s
  end.

(** An interleaving of the two threads. *)
Definition run (schedule : list action) (s : sys) : sys :=
  fold_left (fun s a => step a s) schedule s.

(** The script from its first line. *)
Definition boot (w : world) : sys :=
  match startup w with
  | (Ok _, w') => (L129, w')
  | (Raise e, w') => (Exited (exit_code_uncaught e), w')
  end.

End Program.

(** A world before the script starts: nothing queued, no thread, no
    socket, and whatever the database and the file already hold. *)
Definition fresh (rows : list message) (file : pystr)
           (fs : list (option exn)) : world :=
  World [] rows [] file false false fs [].


(* ================================================================== *)
(** ** Reading the history *)

(** The records put on the queue, in the order of the [put]s. *)
Definition pushed (tr : list event) : list message :=
  flat_map (fun e => match e with QueuePut m => [m] | _ => [] end) tr.

(** The results of the drain loops that have ended, oldest first. *)
Definition drained (tr : list event) : list (list message) :=
  flat_map (fun e => match e with Drained b => [b] | _ => [] end) tr.

Definition is_sink_call (e : event) : bool :=
  match e with
  | Call_save_to_sqlite_batch _ | Call_save_to_json _ => true
  | _ => false
  end.

(** The calls of the two sink functions, in order. *)
Definition sink_calls (tr : list event) : list event := filter is_sink_call tr.

(** The sink calls lines 132-135 make for one drain result. *)
Definition block (batch : list message) : list event :=
  match batch with
  | [] => []
  | _ :: _ => Call_save_to_sqlite_batch batch :: map Call_save_to_json batch
  end.

Definition is_error_log (e : event) : bool :=
  match e with Log ERROR _ => true | _ => false end.

Definition is_raised (e : event) : bool :=
  match e with Raised _ => true | _ => false end.

Definition is_reconnect (e : event) : bool :=
  match e with Reconnect => true | _ => false end.

Definition is_connect (e : event) : bool :=
  match e with Connect _ _ _ => true | _ => false end.

Definition is_open (e : event) : bool :=
  match e with OpenAppend _ => true | _ => false end.

Definition is_credentials (e : event) : bool :=
  match e with UsernamePwSet _ _ => true | _ => false end.

Definition is_sink_io (e : event) : bool :=
  match e with
  | ExecuteMany _ | Commit | OpenAppend _ | FileWrite _ | FileClose => true
  | _ => false
  end.

(** The batch the drain loop holds in its local variable. *)
Definition in_hand (l : pc) : list message :=
  match l with
  | L130 b | L131 b => b
  | _ => []
  end.

(** Records of the last drain result not yet given to a sink. *)
Definition sql_todo (l : pc) : list message :=
  match l with
  | L132 b => b
  | _ => []
  end.

Definition json_todo (l : pc) : list message :=
  match l with
  | L132 b => b
  | L134 rest => rest
  | _ => []
  end.

Definition exited (l : pc) : bool :=
  match l with Exited _ => true | _ => false end.

(** A fault that [except Exception] catches, or no fault. *)
Definition caught (f : option exn) : bool :=
  match f with
  | Some KeyboardInterrupt => false
  | _ => true
  end.

(** The call does not fail. *)
Definition no_fault (f : option exn) : bool :=
  match f with
  | None => true
  | Some _ => false
  end.

(** The line [save_to_json] writes for a record. *)
Definition json_line (args : Args) (m : message) : pystr :=
  Json.dumps (message_dict m) ++ newline.

(** [n] statements of the main thread in a row. *)
Definition main_steps (args : Args) (n : nat) (s : sys) : sys :=
  run args (repeat Main n) s.

Definition char_ok (i : N) : bool :=
  match Base64.index_of (Base64.char_of i) with
  | Some j => (j =? i) && negb (Base64.is_pad (Base64.char_of i))
              && (Byte.to_N (Base64.char_of i) <? 128)
  | None => false
  end.

(** What a statement of the [try] body may do besides its own work:
    the queue and the loop thread are left alone, the history grows by
    [calls] to the sink functions and by no [put] and no drain, a
    caught fault costs one error line, and the statement ends normally
    unless it is interrupted. *)
Definition stmt_frame (calls : list event) (w : world)
           (r : result unit * world) : Prop :=
  message_queue (snd r) = message_queue w
  /\ loop_running (snd r) = loop_running w
  /\ (exists ext,
        trace (snd r) = trace w ++ ext
        /\ pushed ext = [] /\ drained ext = [] /\ sink_calls ext = calls
        /\ (fst r = Ok tt ->
            List.length (filter is_error_log ext)
            = List.length (filter is_raised ext)))
  /\ (fst r = Ok tt \/ fst r = Raise KeyboardInterrupt)
  /\ (forallb caught (faults w) = true ->
      fst r = Ok tt /\ forallb caught (faults (snd r)) = true)
  /\ (faults w = [] -> faults (snd r) = []).

(** The sink calls still to make for the last drain result. *)
Definition sink_todo (l : pc) : list event :=
  match l with
  | L132 b => block b
  | L134 rest => map Call_save_to_json rest
  | _ => []
  end.

(** The invariant of the receipt buffer and of the order of the sink
    calls while the process runs: every record put is in one place
    only, a past drain result, the batch in the hand of the drain loop
    or the queue, in the order of the [put]s; [get] is only reached
    with a record to take; the loop thread runs; and the sink calls
    made so far, with those still to make for the last drain result,
    are the blocks of the drain results in order. *)
Definition running_inv (s : sys) : Prop :=
  let (l, w) := s in
  pushed (trace w)
  = List.concat (drained (trace w)) ++ in_hand l ++ message_queue w
  /\ (forall b, l = L131 b -> message_queue w <> [])
  /\ (exited l = false -> loop_running w = true)
  /\ exists extra,
       sink_calls (trace w) ++ sink_todo l ++ extra
       = flat_map block (drained (trace w))
       /\ (exited l = false -> extra = []).

(** The same once the process has exited: [hand] is the batch the
    drain loop held and [extra] the sink calls that were still to make
    when it left. *)
Definition exited_inv (w : world) : Prop :=
  exists hand extra,
    pushed (trace w)
    = List.concat (drained (trace w)) ++ hand ++ message_queue w
    /\ sink_calls (trace w) ++ extra = flat_map block (drained (trace w)).

Definition buffer_inv (s : sys) : Prop :=
  if exited (fst s) then exited_inv (snd s) else running_inv s.


(** No SIGINT between two statements. *)
Definition undisturbed (schedule : list action) : bool :=
  forallb (fun a => match a with Interrupt => false | _ => true end) schedule.

(** No disconnect with reason code 0 is delivered by the network
    thread: the program asks for none while that thread runs. *)
Definition link_kept (schedule : list action) : bool :=
  forallb (fun a => match a with
                    | Net (ConnLost rc) => negb (rc_value rc =? 0)%Z
                    | _ => true
                    end) schedule.

(** The process runs and no interrupt is to come: every fault left is
    one that [except Exception] catches. *)
Definition keeps_running (s : sys) : Prop :=
  exited (fst s) = false /\ forallb caught (faults (snd s)) = true.

(** The statements of the drain loop (lines 129-131). *)
Definition in_drain (l : pc) : bool :=
  match l with
  | L129 | L130 _ | L131 _ => true
  | _ => false
  end.

(** ** Sample inputs *)

Module Sample.

Definition args : Args :=
  {| host := str "localhost"; port := 1883;
     username := None; password := None;
     db := str "logs.db"; json := str "logs.json" |}.

Definition now : pystr := str "2024-05-01 12:00:00".

(** ["hello"] on topic ["a/b"], qos 1, not retained. *)
Definition hello : MQTTMessage :=
  {| msg_topic := str "a/b"; msg_payload := [x68; x65; x6c; x6c; x6f];
     msg_qos := 1; msg_retain := false |}.

(** The bytes ff fe 00 on topic ["x"]. *)
Definition binary : MQTTMessage :=
  {| msg_topic := str "x"; msg_payload := [xff; xfe; x00];
     msg_qos := 0; msg_retain := false |}.

Definition hello_record : message :=
  Message (str "a/b") (str "hello") now 1 false.

Definition binary_record : message :=
  Message (str "x") (str "//4A") now 0 false.

Definition refused : ReasonCode :=
  {| rc_value := 5; rc_name := str "Not authorized" |}.

Definition success : ReasonCode :=
  {| rc_value := 0; rc_name := str "Success" |}.

(** Two deliveries around the steps of the main thread. *)
Definition schedule : list action :=
  [Net (Deliver now hello); Main; Main; Net (Deliver now binary); Main].

End Sample.

Module Scenario.

(** The sample run two steps later: the drain loop has both records in
    its hand and is about to see the queue empty. *)
Definition drain_end : list action := Sample.schedule ++ [Main; Main].

(** A batch of two records arrives at line 132 and the insert fails. *)
Definition batch : list message :=
  [Sample.hello_record; Sample.binary_record].

Definition insert_fails : world :=
  World [] [] [] [] true true
        [Some (PyException (str "disk I/O error"))] [].

End Scenario.

Module Credentials.

(** [--username alice] without a password. *)
Definition only_username : Args :=
  {| host := str "localhost"; port := 1883;
     username := Some (str "alice"); password := None;
     db := str "logs.db"; json := str "logs.json" |}.

(** [--username alice --password secret]. *)
Definition both : Args :=
  {| host := str "localhost"; port := 1883;
     username := Some (str "alice"); password := Some (str "secret");
     db := str "logs.db"; json := str "logs.json" |}.

End Credentials.

Module Startup.

(** The broker accepts the TCP connection, then refuses the session and
    drops the link. *)
Definition refused_session : list action :=
  [Net (ConnAck Sample.refused); Net (ConnLost Sample.refused)].

(** The six calls of the start succeed, the insert and its commit too,
    and the file cannot be opened. *)
Definition file_unwritable : list (option exn) :=
  repeat None 8 ++ [Some (PyException (str "Permission denied"))].

Definition one_record_tick : list action :=
  Net (Deliver Sample.now Sample.hello) :: repeat Main 7.

(** The initial [connect] fails. *)
Definition broker_unreachable : list (option exn) :=
  repeat None 4 ++ [Some (PyException (str "Connection refused"))].

End Startup.

Module Shutdown.

(** The six calls of the start succeed and the first sleep is
    interrupted. *)
Definition interrupt_in_sleep : list (option exn) :=
  repeat None 6 ++ [Some KeyboardInterrupt].

(** An empty tick up to its sleep; a record arrives; the sleep is
    interrupted. *)
Definition record_then_interrupt : list action :=
  [Main; Main; Main; Net (Deliver Sample.now Sample.hello); Main].

(** What lines 138-144 do when nothing fails and the client holds a
    connection: [disconnect] runs [on_disconnect], which logs. *)
Definition shutdown_calls : list event :=
  [Log INFO (str "Shutting down..."); LoopStop; Disconnect;
   Log WARNING (str "Disconnected from MQTT broker"); CursorClose;
   ConnClose; Log INFO (str "Shutdown complete.")].

End Shutdown.

(** The fallible calls of the start (lines 123-125): three of
    [setup_sqlite], the client constructor, [username_pw_set] when both
    credentials are given, the initial [connect] and [loop_start]. *)
Definition startup_calls (args : Args) : nat :=
  if truthy (username args) && truthy (password args) then 7 else 6.

(** The first fault among the outcomes of the next [n] calls. *)
Fixpoint first_fault (n : nat) (fs : list (option exn)) : option exn :=
  match n, fs with
  | S n', None :: fs' => first_fault n' fs'
  | S _, Some e :: _ => Some e
  | _, _ => None
  end.

(** C7 as the specification states it, for the final drain and flush:
    when the process has exited on an interrupt and no sink call
    failed, every record put is in the table and its line is in the
    file. *)
Definition final_flush_on_interrupt (args : Args) (s : sys) : Prop :=
  fst s = Exited 0 ->
  filter is_raised (trace (snd s)) = [Raised KeyboardInterrupt] ->
  forall m, In m (pushed (trace (snd s))) ->
            In m (db_rows (snd s))
            /\ exists before after,
                 json_file (snd s) = before ++ json_line args m ++ after.

(** C6 as the specification states it, for a refused session: when the
    broker refuses the initial connection, the process has exited with
    a status other than 0 and no [reconnect] was called. *)
Definition refused_session_is_fatal (s : sys) : Prop :=
  (exists c, fst s = Exited c /\ c <> 0%Z)
  /\ filter is_reconnect (trace (snd s)) = [].

(** A character between space and tilde. *)
Definition printable (c : N) : bool := (32 <=? c) && (c <=? 126).



(* ================================================================== *)
(** ** [get_args] (lines 21-32)

    The command line is taken as argparse reads it: for each option the
    text that follows its flag, [None] when the flag is absent.  The
    environment is [os.environ] after [load_dotenv()]. *)

Module Config.

Record CommandLine := {
  cli_host : option pystr;
  cli_port : option pystr;
  cli_username : option pystr;
  cli_password : option pystr;
  cli_prefix : option pystr;
  cli_db : option pystr;
  cli_json : option pystr
}.

Definition Environ := pystr -> option pystr.

(** [os.getenv(key, default)] with a [str] default. *)
Definition getenv (env : Environ) (key : string) (default : pystr) : pystr :=
  match env (str key) with
  | Some v => v
  | None => default
  end.

(** The value argparse stores for an option: the text of the command
    line, or the default. *)
Definition option_or {A} (given : option A) (default : A) : A :=
  match given with
  | Some v => v
  | None => default
  end.

(** What [parse_args()] returns: the attributes the program reads, and
    [prefix]. *)
Record Namespace := {
  parsed : Args;
  prefix : pystr
}.

(** How [get_args] ends: with a namespace; with the [ValueError] of
    line 24, which nothing catches; or with the usage error of
    [parse_args] (exit status 2). *)
Inductive outcome :=
| Parsed (ns : Namespace)
| ValueError
| UsageError.

Section GetArgs.

(** [int(s)] for a [str]; [None] is [ValueError].  The conversion is
    the builtin's: nothing here depends on which texts it accepts. *)
Variable int_of_str : pystr -> option Z.

(** [current_time] is [datetime.now().strftime('%Y-%m-%d_%H-%M-%S')]. *)
Definition get_args (cli : CommandLine) (env : Environ)
           (current_time : pystr) : outcome :=
  let default_host := getenv env "MQTT_BROKER" (str "localhost") in
  match
    match env (str "MQTT_PORT") with
    | Some v => int_of_str v
    | None => Some 1883%Z
    end
  with
  | None => ValueError
  | Some default_port =>
    let default_username := env (str "MQTT_USERNAME") in
    let default_password := env (str "MQTT_PASSWORD") in
    let default_prefix := getenv env "LOG_PREFIX" (str "logs_") in
    let default_db :=
      getenv env "SQLITE_DB"
             (getenv env "LOG_PREFIX" (str "logs_") ++ current_time
              ++ str ".db") in
    let default_json :=
      getenv env "JSON_FILE"
             (getenv env "LOG_PREFIX" (str "logs_") ++ current_time
              ++ str ".json") in
    match
      match cli_port cli with
      | Some v => int_of_str v
      | None => Some default_port
      end
    with
    | None => UsageError
    | Some port =>
      Parsed
        {| parsed :=
             {| host := option_or (cli_host cli) default_host;
                port := port;
                username :=
                  match cli_username cli with
                  | Some u => Some u
                  | None => default_username
                  end;
                password :=
                  match cli_password cli with
                  | Some p => Some p
                  | None => default_password
                  end;
                db := option_or (cli_db cli) default_db;
                json := option_or (cli_json cli) default_json |};
           prefix := option_or (cli_prefix cli) default_prefix |}
    end
  end.

End GetArgs.

(** The same command line with another [--prefix]. *)
Definition with_prefix (p : option pystr) (cli : CommandLine) : CommandLine :=
  {| cli_host := cli_host cli; cli_port := cli_port cli;
     cli_username := cli_username cli; cli_password := cli_password cli;
     cli_prefix := p;
     cli_db := cli_db cli; cli_json := cli_json cli |}.

(** What the program reads of an outcome. *)
Definition read_by_program (o : outcome) : option Args :=
  match o with
  | Parsed ns => Some (parsed ns)
  | _ => None
  end.

(** No flag on the command line. *)
Definition no_flags : CommandLine :=
  {| cli_host := None; cli_port := None; cli_username := None;
     cli_password := None; cli_prefix := None; cli_db := None;
     cli_json := None |}.

(** A conversion for the examples: plain decimal digits. *)
Fixpoint digits (acc : Z) (s : pystr) : option Z :=
  match s with
  | [] => Some acc
  | c :: t =>
    if (48 <=? c) && (c <=? 57)
    then digits (10 * acc + Z.of_N (c - 48))%Z t
    else None
  end.

Definition decimal (s : pystr) : option Z :=
  match s with
  | [] => None
  | _ :: _ => digits 0%Z s
  end.

(** An environment with the given variables. *)
Fixpoint environ (vars : list (string * string)) : Environ :=
  fun key =>
    match vars with
    | [] => None
    | (k, v) :: rest =>
      if list_eq_dec N.eq_dec key (str k) then Some (str v)
      else environ rest key
    end.

End Config.

(* ================================================================== *)
(** ** More ways to read the history *)

(** [l1] is [l2] with some elements left out, the others in order. *)
Inductive subseq {A : Type} : list A -> list A -> Prop :=
| subseq_nil : subseq [] []
| subseq_skip x l1 l2 : subseq l1 l2 -> subseq l1 (x :: l2)
| subseq_keep x l1 l2 : subseq l1 l2 -> subseq (x :: l1) (x :: l2).

(** What the sinks hold with respect to the drain results: [kr] is in
    the table (committed or in the open transaction) after [rows0],
    the lines of [kj] are in the file after [file0]; with the records
    still to give to each sink they are sub-sequences of the records
    drained. *)
Definition sinks_inv (args : Args) (rows0 : list message) (file0 : pystr)
           (s : sys) : Prop :=
  exists kr kj,
    subseq (kr ++ sql_todo (fst s))
           (List.concat (drained (trace (snd s))))
    /\ db_rows (snd s) ++ db_pending (snd s) = rows0 ++ kr
    /\ subseq (kj ++ json_todo (fst s))
              (List.concat (drained (trace (snd s))))
    /\ json_file (snd s) = file0 ++ flat_map (json_line args) kj.

(** The events a sink function can leave in the history. *)
Definition sink_fn_event (e : event) : bool :=
  match e with
  | Call_save_to_sqlite_batch _ | Call_save_to_json _
  | ExecuteMany _ | Commit | OpenAppend _ | FileWrite _ | FileClose
  | Raised _ | Log ERROR _ => true
  | _ => false
  end.

Definition is_subscribe (e : event) : bool :=
  match e with Subscribe _ => true | _ => false end.

Definition is_tick_sleep (e : event) : bool :=
  match e with Sleep 1 => true | _ => false end.

Definition is_drained (e : event) : bool :=
  match e with Drained _ => true | _ => false end.

(** Calls on the MQTT client. *)
Definition is_mqtt_call (e : event) : bool :=
  match e with
  | ClientNew | UsernamePwSet _ _ | Connect _ _ _ | LoopStart | LoopStop
  | Disconnect | Subscribe _ | Reconnect => true
  | _ => false
  end.

(** A disconnect with a reason code other than 0. *)
Definition unexpected (a : action) : bool :=
  match a with
  | Net (ConnLost rc) => negb (rc_value rc =? 0)%Z
  | _ => false
  end.

(** A connection acknowledged with reason code 0. *)
Definition accepted (a : action) : bool :=
  match a with
  | Net (ConnAck rc) => (rc_value rc =? 0)%Z
  | _ => false
  end.

(** The statements between a drain and the next. *)
Definition after_drain (l : pc) : nat :=
  match l with
  | L132 _ | L134 _ | L136 => 1
  | _ => 0
  end.

(** The same message with another payload. *)
Definition with_payload (raw : list byte) (msg : MQTTMessage) : MQTTMessage :=
  {| msg_topic := msg_topic msg; msg_payload := raw;
     msg_qos := msg_qos msg; msg_retain := msg_retain msg |}.

(** One drain for each sleep of the tick, and one more once a drain
    has ended and its tick has not slept yet. *)
Definition cadence (s : sys) : Prop :=
  List.length (filter is_drained (trace (snd s)))
  = (List.length (filter is_tick_sleep (trace (snd s)))
     + after_drain (fst s))%nat.

Definition is_close (e : event) : bool :=
  match e with FileClose => true | _ => false end.

(** [open] does not fail. *)
Definition opens (w : world) : bool :=
  match faults w with
  | Some _ :: _ => false
  | _ => true
  end.

(** A Unicode scalar value: a code point up to U+10FFFF that is not a
    surrogate. *)
Definition scalar (c : N) : bool :=
  (c <? 0xD800) || ((0xDFFF <? c) && (c <? 0x110000)).

(* ================================================================== *)
(** ** Reading a line of the file back

    The inverse of [json.dumps] on the dictionaries of [save_to_json]:
    string literals are read as the decoder of the Python runtime
    reads them (strict: no raw control character; an escaped high
    surrogate followed by an escaped low surrogate is one code point),
    integers and booleans as [json.dumps] writes them, and the keys in
    the order of [message_dict]. *)

Module JsonRead.

Definition hex_value (c : N) : option N :=
  if (48 <=? c) && (c <=? 57) then Some (c - 48)
  else if (97 <=? c) && (c <=? 102) then Some (c - 87)
  else if (65 <=? c) && (c <=? 70) then Some (c - 55)
  else None.

Definition hex4 (a b c d : N) : option N :=
  match hex_value a, hex_value b, hex_value c, hex_value d with
  | Some x, Some y, Some z, Some t => Some (x * 4096 + y * 256 + z * 16 + t)
  | _, _, _, _ => None
  end.

(** The character after a backslash, other than [u]. *)
Definition simple_escape (c : N) : option N :=
  if c =? 34 then Some 34
  else if c =? 92 then Some 92
  else if c =? 47 then Some 47
  else if c =? 110 then Some 10
  else if c =? 114 then Some 13
  else if c =? 116 then Some 9
  else if c =? 102 then Some 12
  else if c =? 98 then Some 8
  else None.

Definition is_high (v : N) : bool := (0xD800 <=? v) && (v <=? 0xDBFF).
Definition is_low (v : N) : bool := (0xDC00 <=? v) && (v <=? 0xDFFF).

Definition push (c : N) (r : option (pystr * pystr)) : option (pystr * pystr) :=
  match r with
  | Some (s, rest) => Some (c :: s, rest)
  | None => None
  end.

(** The characters of a string literal after its opening quote: the
    text up to the closing quote, and what follows that quote. *)
Fixpoint read_chars (cs : pystr) : option (pystr * pystr) :=
  match cs with
  | [] => None
  | c :: t =>
    if c =? 34 then Some ([], t)
    else if c <? 32 then None
    else if c =? 92 then
      match t with
      | [] => None
      | e :: t1 =>
        if e =? 117 then
          match t1 with
          | h1 :: h2 :: h3 :: h4 :: t2 =>
            match hex4 h1 h2 h3 h4 with
            | None => None
            | Some v =>
              match t2 with
              | b :: u :: k1 :: k2 :: k3 :: k4 :: t3 =>
                if is_high v && (b =? 92) && (u =? 117) then
                  match hex4 k1 k2 k3 k4 with
                  | Some v2 =>
                    if is_low v2
                    then push (0x10000 + (v - 0xD800) * 1024 + (v2 - 0xDC00))
                              (read_chars t3)
                    else push v (read_chars t2)
                  | None => push v (read_chars t2)
                  end
                else push v (read_chars t2)
              | _ => push v (read_chars t2)
              end
            end
          | _ => None
          end
        else
          match simple_escape e with
          | Some x => push x (read_chars t1)
          | None => None
          end
      end
    else push c (read_chars t)
  end.

Definition read_str (cs : pystr) : option (pystr * pystr) :=
  match cs with
  | c :: t => if c =? 34 then read_chars t else None
  | [] => None
  end.

(** The text [lit], then the rest. *)
Fixpoint expect (lit cs : pystr) : option pystr :=
  match lit with
  | [] => Some cs
  | x :: lit' =>
    match cs with
    | c :: t => if c =? x then expect lit' t else None
    | [] => None
    end
  end.

Definition is_digit (c : N) : bool := (48 <=? c) && (c <=? 57).

Definition digit (c : N) (d : Decimal.uint) : Decimal.uint :=
  if c =? 48 then Decimal.D0 d
  else if c =? 49 then Decimal.D1 d
  else if c =? 50 then Decimal.D2 d
  else if c =? 51 then Decimal.D3 d
  else if c =? 52 then Decimal.D4 d
  else if c =? 53 then Decimal.D5 d
  else if c =? 54 then Decimal.D6 d
  else if c =? 55 then Decimal.D7 d
  else if c =? 56 then Decimal.D8 d
  else Decimal.D9 d.

(** The digits at the head of the text, and the rest. *)
Fixpoint read_digits (cs : pystr) : Decimal.uint * pystr :=
  match cs with
  | [] => (Decimal.Nil, [])
  | c :: t =>
    if is_digit c
    then let (d, rest) := read_digits t in (digit c d, rest)
    else (Decimal.Nil, cs)
  end.

Definition read_int (cs : pystr) : option (Z * pystr) :=
  match cs with
  | [] => None
  | c :: t =>
    if c =? 45 then
      match read_digits t with
      | (Decimal.Nil, _) => None
      | (d, rest) => Some (Z.of_int (Decimal.Neg d), rest)
      end
    else
      match read_digits cs with
      | (Decimal.Nil, _) => None
      | (d, rest) => Some (Z.of_int (Decimal.Pos d), rest)
      end
  end.

Definition read_bool (cs : pystr) : option (bool * pystr) :=
  match expect (str "true") cs with
  | Some rest => Some (true, rest)
  | None =>
    match expect (str "false") cs with
    | Some rest => Some (false, rest)
    | None => None
    end
  end.

(** [, "key": ] with [open] in place of the comma for the first key. *)
Definition key (open : string) (name : string) : pystr :=
  str open ++ [34] ++ str name ++ [34] ++ str ": ".

(** One line of the file without its newline: the record it holds. *)
Definition read_line (cs : pystr) : option message :=
  match expect (key "{" "topic") cs with
  | None => None
  | Some r0 =>
  match read_str r0 with
  | None => None
  | Some (topic, r1) =>
  match expect (key ", " "payload") r1 with
  | None => None
  | Some r2 =>
  match read_str r2 with
  | None => None
  | Some (payload, r3) =>
  match expect (key ", " "datetime") r3 with
  | None => None
  | Some r4 =>
  match read_str r4 with
  | None => None
  | Some (datetime, r5) =>
  match expect (key ", " "qos") r5 with
  | None => None
  | Some r6 =>
  match read_int r6 with
  | None => None
  | Some (qos, r7) =>
  match expect (key ", " "retain") r7 with
  | None => None
  | Some r8 =>
  match read_bool r8 with
  | None => None
  | Some (retain, r9) =>
  match expect (str "}") r9 with
  | Some [] => Some (Message topic payload datetime qos retain)
  | _ => None
  end end end end end end end end end end end.

End JsonRead.


(* ================================================================== *)
(** * Properties *)

(** ** The record codec *)

Module CodecFacts.
Import Base64.

#[local] Ltac Zify.zify_post_hook ::= Z.to_euclidean_division_equations.

(** Lists, three elements at a time. *)
Lemma list_ind3 (A : Type) (P : list A -> Prop) :
  P [] ->
  (forall a, P [a]) ->
  (forall a b, P [a; b]) ->
  (forall a b c l, P l -> P (a :: b :: c :: l)) ->
  forall l, P l.
Proof.
  intros H0 H1 H2 H3.
  assert (aux : forall n (l : list A), (List.length l <= n)%nat -> P l).
  { induction n as [|n IH]; intros l Hl.
    - destruct l; [exact H0 | simpl in Hl; lia].
    - destruct l as [|a [|b [|c l]]]; auto.
      apply H3, IH. simpl in Hl. lia. }
  intros l. apply (aux (List.length l)). lia.
Qed.

(** A check on all 6-bit values is a check on 64 cases. *)
Lemma below_64 (P : N -> bool) :
  forallb P (map N.of_nat (seq 0 64)) = true ->
  forall i, i < 64 -> P i = true.
Proof.
  intros H i Hi. rewrite forallb_forall in H. apply H.
  apply in_map_iff. exists (N.to_nat i). split.
  - apply N2Nat.id.
  - apply in_seq. lia.
Qed.

Lemma char_of_ok i :
  i < 64 ->
  index_of (char_of i) = Some i /\ is_pad (char_of i) = false
  /\ Byte.to_N (char_of i) < 128.
Proof.
  intros Hi.
  assert (H : char_ok i = true).
  { apply below_64; [vm_compute; reflexivity | exact Hi]. }
  unfold char_ok in H. destruct (index_of (char_of i)) as [j|]; [|discriminate].
  apply andb_prop in H. destruct H as [H H3].
  apply andb_prop in H. destruct H as [H1 H2].
  apply N.eqb_eq in H1. apply N.ltb_lt in H3.
  apply negb_true_iff in H2. subst j. auto.
Qed.

Lemma byte_of_to_N b : byte_of (Byte.to_N b) = b.
Proof. unfold byte_of. rewrite Byte.of_to_N. reflexivity. Qed.

Lemma is_pad_pad : is_pad pad = true.
Proof. reflexivity. Qed.

Lemma pad_ascii : Byte.to_N pad < 128.
Proof. vm_compute. reflexivity. Qed.

(** The four 6-bit values of three bytes, and back. *)
Lemma sextets a b c :
  a < 256 -> b < 256 -> c < 256 ->
  a / 4 < 64 /\ (a mod 4) * 16 + b / 16 < 64
  /\ (b mod 16) * 4 + c / 64 < 64 /\ c mod 64 < 64
  /\ (a / 4) * 4 + ((a mod 4) * 16 + b / 16) / 16 = a
  /\ (((a mod 4) * 16 + b / 16) mod 16) * 16
       + ((b mod 16) * 4 + c / 64) / 4 = b
  /\ (((b mod 16) * 4 + c / 64) mod 4) * 64 + c mod 64 = c.
Proof. intros Ha Hb Hc. repeat split; lia. Qed.

Ltac use_char i :=
  let H1 := fresh "Hidx" in
  let H2 := fresh "Hpad" in
  let H3 := fresh "Hasc" in
  destruct (char_of_ok (i:=i)) as (H1 & H2 & H3);
  [ lia | rewrite ?H1, ?H2 ].

(** Decoding undoes encoding, on bytes. *)
Lemma b64decode_bytes_b64encode bs :
  b64decode_bytes (b64encode bs) = Some bs.
Proof.
  induction bs as [|a|a b|a b c l IH] using list_ind3.
  - reflexivity.
  - pose proof (Byte.to_N_bounded a) as Ha.
    destruct (sextets (a:=Byte.to_N a) (b:=0) (c:=0))
      as (S0 & S1 & _ & _ & E0 & E1 & _); try lia.
    change (0 / 16) with 0 in *. rewrite N.add_0_r in *.
    cbn [b64encode b64decode_bytes].
    use_char (Byte.to_N a / 4). use_char (Byte.to_N a mod 4 * 16).
    rewrite is_pad_pad. cbn [andb].
    replace (Byte.to_N a mod 4 * 16 mod 16) with 0 by lia.
    cbn [N.eqb]. rewrite E0, byte_of_to_N. reflexivity.
  - pose proof (Byte.to_N_bounded a) as Ha.
    pose proof (Byte.to_N_bounded b) as Hb.
    destruct (sextets (a:=Byte.to_N a) (b:=Byte.to_N b) (c:=0))
      as (S0 & S1 & S2 & _ & E0 & E1 & _); try lia.
    change (0 / 64) with 0 in *. rewrite N.add_0_r in *.
    cbn [b64encode b64decode_bytes].
    use_char (Byte.to_N a / 4).
    use_char (Byte.to_N a mod 4 * 16 + Byte.to_N b / 16).
    use_char (Byte.to_N b mod 16 * 4).
    rewrite is_pad_pad. cbn [andb].
    replace (Byte.to_N b mod 16 * 4 mod 4) with 0 by lia.
    cbn [N.eqb]. rewrite E0, E1, !byte_of_to_N. reflexivity.
  - pose proof (Byte.to_N_bounded a) as Ha.
    pose proof (Byte.to_N_bounded b) as Hb.
    pose proof (Byte.to_N_bounded c) as Hc.
    destruct (sextets (a:=Byte.to_N a) (b:=Byte.to_N b) (c:=Byte.to_N c))
      as (S0 & S1 & S2 & S3 & E0 & E1 & E2); try lia.
    cbn [b64encode b64decode_bytes].
    use_char (Byte.to_N a / 4).
    use_char (Byte.to_N a mod 4 * 16 + Byte.to_N b / 16).
    use_char (Byte.to_N b mod 16 * 4 + Byte.to_N c / 64).
    use_char (Byte.to_N c mod 64).
    cbn [andb]. rewrite IH, E0, E1, E2, !byte_of_to_N. reflexivity.
Qed.

(** The encoded text is ASCII. *)
Lemma b64encode_ascii bs :
  Forall (fun b => Byte.to_N b < 128) (b64encode bs).
Proof.
  induction bs as [|a|a b|a b c l IH] using list_ind3.
  - constructor.
  - pose proof (Byte.to_N_bounded a).
    cbn [b64encode].
    repeat constructor; try apply pad_ascii; apply char_of_ok; lia.
  - pose proof (Byte.to_N_bounded a). pose proof (Byte.to_N_bounded b).
    cbn [b64encode].
    repeat constructor; try apply pad_ascii; apply char_of_ok; lia.
  - pose proof (Byte.to_N_bounded a). pose proof (Byte.to_N_bounded b).
    pose proof (Byte.to_N_bounded c).
    cbn [b64encode].
    repeat (constructor; [apply char_of_ok; lia|]). exact IH.
Qed.

(** ASCII bytes decode to themselves, and encode back. *)
Lemma decode_ascii bs :
  Forall (fun b => Byte.to_N b < 128) bs ->
  Utf8.decode bs = Some (map Byte.to_N bs).
Proof.
  induction 1 as [|b l Hb _ IH]; [reflexivity|].
  cbn [Utf8.decode map].
  apply N.ltb_lt in Hb. rewrite Hb, IH. reflexivity.
Qed.

Lemma ascii_encode_ascii bs :
  Forall (fun b => Byte.to_N b < 128) bs ->
  ascii_encode (map Byte.to_N bs) = Some bs.
Proof.
  induction 1 as [|b l Hb _ IH]; [reflexivity|].
  cbn [ascii_encode map].
  apply N.ltb_lt in Hb. rewrite Hb, IH, byte_of_to_N. reflexivity.
Qed.

(** The fallback of [on_message] never fails and is reversible. *)
Lemma fallback_roundtrip raw :
  Utf8.decode (b64encode raw) = Some (map Byte.to_N (b64encode raw))
  /\ b64decode (map Byte.to_N (b64encode raw)) = Some raw.
Proof.
  split.
  - apply decode_ascii, b64encode_ascii.
  - unfold b64decode.
    rewrite (ascii_encode_ascii (b64encode_ascii raw)).
    apply b64decode_bytes_b64encode.
Qed.

End CodecFacts.

Example utf8_hello :
  Utf8.decode [x68; x65; x6c; x6c; x6f] = Some (str "hello").
Proof. reflexivity. Qed.

Example utf8_invalid : Utf8.decode [xff; xfe; x00] = None.
Proof. reflexivity. Qed.

Example b64_invalid :
  Utf8.decode (Base64.b64encode [xff; xfe; x00]) = Some (str "//4A").
Proof. reflexivity. Qed.

Example b64_back : Base64.b64decode (str "//4A") = Some [xff; xfe; x00].
Proof. vm_compute. reflexivity. Qed.

(** C1.  For every payload delivered to [on_message], the record put on
    the queue holds either the strictly decoded UTF-8 text, or, when
    decoding fails, the base64 text of the raw bytes, and decoding that
    text with base64 gives the raw bytes back.  [on_message] returns
    normally and puts exactly that one record. *)
Theorem on_message_codec (now : pystr) (msg : MQTTMessage) (w : world) :
  exists text,
    fst (on_message now msg w) = Ok tt
    /\ message_queue (snd (on_message now msg w))
       = message_queue w
         ++ [Message (msg_topic msg) text now (msg_qos msg) (msg_retain msg)]
    /\ (Utf8.decode (msg_payload msg) = Some text
        \/ (Utf8.decode (msg_payload msg) = None
            /\ text = map Byte.to_N (Base64.b64encode (msg_payload msg))
            /\ Base64.b64decode text = Some (msg_payload msg))).
Proof.
  destruct (CodecFacts.fallback_roundtrip (msg_payload msg)) as [Henc Hdec].
  unfold on_message, stored_payload.
  destruct (Utf8.decode (msg_payload msg)) as [text|] eqn:Hutf.
  - exists text. cbn. auto.
  - rewrite Henc.
    exists (map Byte.to_N (Base64.b64encode (msg_payload msg))).
    cbn. auto 6.
Qed.

(** ** The statements of the main loop *)

Arguments str : simpl never.
Arguments Json.dumps : simpl never.

Ltac unfold_M :=
  unfold logger_info, logger_warning, logger_error, queue_put in *;
  unfold try_except_Exception, try_finally, bind, call, attempt, time_sleep,
    emit, ret, raise, skip in *;
  unfold record, set_faults, set_db, set_file, set_loop, set_connected,
    set_queue in *.

Ltac faults_cases :=
  repeat (cbn;
          match goal with
          | |- context [match ?fs with [] => _ | _ :: _ => _ end] =>
            is_var fs; destruct fs as [|[[?|]|] ?]
          end); cbn.

Ltac give_ext :=
  rewrite <- ?app_assoc; cbn; eexists; split; [reflexivity|];
  cbn; repeat split; auto; try discriminate.

Ltac frame_cases :=
  faults_cases; unfold stmt_frame; cbn;
  repeat match goal with
         | |- _ /\ _ => split
         end;
  try reflexivity; try discriminate; auto;
  try give_ext;
  try (intros; discriminate).

(** ** The rows of an insert *)

Module Inserts.

(** What [executemany] leaves: a prefix of the rows in the open
    transaction, all of them when it returns; the other fields but the
    history and the faults are as before. *)
Lemma insert_rows_cases rows : forall w,
  exists k fs' r,
    insert_rows rows w
    = (r, World (message_queue w) (db_rows w)
                (db_pending w ++ firstn k rows)
                (json_file w) (loop_running w) (connected w) fs'
                (trace w ++ match r with
                            | Ok _ => []
                            | Raise x => [Raised x]
                            end))
    /\ (r = Ok tt /\ firstn k rows = rows
        \/ exists x, r = Raise x /\ (k < List.length rows)%nat
                     /\ In (Some x) (faults w))
    /\ incl fs' (faults w).
Proof.
  induction rows as [|m rest IH]; intros [q rows pend file lr cn fs tr].
  - exists 0%nat, fs, (Ok tt). cbn. rewrite !app_nil_r.
    auto using incl_refl.
  - cbn [insert_rows]. unfold bind, attempt. cbn [faults].
    destruct fs as [|[x|] fs].
    + destruct (IH (World q rows (pend ++ [m]) file lr cn [] tr))
        as (k & fs' & r & E & Hr & Hi).
      unfold set_db, set_faults. cbn in E, Hr, Hi |- *. rewrite E.
      exists (S k), fs', r. cbn. rewrite <- app_assoc. cbn.
      split; [reflexivity|]. split; [|exact Hi].
      destruct Hr as [[-> Hk] | (x & -> & Hk & [])].
      left. rewrite Hk. auto.
    + exists 0%nat, fs, (Raise x). cbn. rewrite app_nil_r.
      split; [reflexivity|]. split.
      * right. exists x. split; [reflexivity|]. split; [lia | auto].
      * apply incl_tl, incl_refl.
    + destruct (IH (World q rows (pend ++ [m]) file lr cn fs tr))
        as (k & fs' & r & E & Hr & Hi).
      unfold set_db, set_faults. cbn in E, Hr, Hi |- *. rewrite E.
      exists (S k), fs', r. cbn. rewrite <- app_assoc. cbn.
      split; [reflexivity|]. split; [|apply incl_tl, Hi].
      destruct Hr as [[-> Hk] | (x & -> & Hk & Hin)].
      * left. rewrite Hk. auto.
      * right. exists x. split; [reflexivity|]. split; [lia | auto].
Qed.

(** Faults that are left were there before. *)
Lemma incl_caught (fs' fs : list (option exn)) :
  incl fs' fs -> forallb caught fs = true -> forallb caught fs' = true.
Proof.
  intros Hi H. rewrite forallb_forall in *. auto.
Qed.

Lemma incl_no_faults (fs' : list (option exn)) (fs : list (option exn)) :
  incl fs' fs -> fs = [] -> fs' = [].
Proof. intros Hi ->. apply incl_l_nil, Hi. Qed.

(** [save_to_sqlite_batch], case by case: the batch is committed; or
    a row fails, and the rows before it stay in the transaction; or the
    commit fails, and the whole batch stays there.  An exception of
    class [Exception] is logged, an interrupt goes on. *)
Lemma save_to_sqlite_batch_cases b w :
  exists fs' rows' pend' r ext,
    save_to_sqlite_batch b w
    = (r, World (message_queue w) rows' pend' (json_file w)
                (loop_running w) (connected w) fs'
                (trace w ++ Call_save_to_sqlite_batch b
                         :: ExecuteMany b :: ext))
    /\ ((r = Ok tt /\ ext = [Commit]
         /\ rows' = db_rows w ++ db_pending w ++ b /\ pend' = [])
        \/ (exists k x,
               (k < List.length b)%nat /\ In (Some x) (faults w)
               /\ rows' = db_rows w /\ pend' = db_pending w ++ firstn k b
               /\ (r, ext)
                  = match x with
                    | KeyboardInterrupt => (Raise x, [Raised x])
                    | PyException t =>
                      (Ok tt, [Raised x;
                               Log ERROR (str "Error saving to SQLite: "
                                          ++ t)])
                    end)
        \/ (exists x,
               In (Some x) (faults w)
               /\ rows' = db_rows w /\ pend' = db_pending w ++ b
               /\ (r, ext)
                  = match x with
                    | KeyboardInterrupt => (Raise x, [Commit; Raised x])
                    | PyException t =>
                      (Ok tt, [Commit; Raised x;
                               Log ERROR (str "Error saving to SQLite: "
                                          ++ t)])
                    end))
    /\ incl fs' (faults w).
Proof.
  destruct w as [q rows pend file lr cn fs tr].
  unfold save_to_sqlite_batch, executemany. unfold_M.
  destruct (insert_rows_cases b
              (World q rows pend file lr cn fs
                     ((tr ++ [Call_save_to_sqlite_batch b]) ++ [ExecuteMany b])))
    as (k & fs' & r & E & Hr & Hi).
  cbn in E, Hr, Hi.
  cbn [message_queue db_rows db_pending json_file loop_running connected
       faults trace].
  rewrite E. clear E.
  destruct Hr as [[-> Hk] | (x & -> & Hk & Hin)].
  - rewrite Hk, app_nil_r.
    destruct fs' as [|[x|] fs'']; cbn; rewrite <- ?app_assoc; cbn.
    + exists [], (rows ++ pend ++ b), [], (Ok tt), [Commit].
      rewrite <- ?app_assoc. auto 10.
    + assert (Hin : In (Some x) fs) by (apply Hi; left; reflexivity).
      apply incl_cons_inv in Hi. destruct Hi as [_ Hi].
      destruct x as [t|]; cbn; rewrite <- ?app_assoc; cbn;
        do 5 eexists; (split; [reflexivity|]);
        (split; [|exact Hi]); right; right; eexists;
        (split; [exact Hin|]); auto.
    + apply incl_cons_inv in Hi. destruct Hi as [_ Hi].
      exists fs'', (rows ++ pend ++ b), [], (Ok tt), [Commit].
      rewrite <- ?app_assoc. auto 10.
  - destruct x as [t|]; cbn; rewrite <- ?app_assoc; cbn;
      do 5 eexists; (split; [reflexivity|]);
      (split; [|exact Hi]); right; left; exists k; eexists;
      (split; [exact Hk|]); (split; [exact Hin|]); auto.
Qed.

End Inserts.

Module Statements.

Lemma save_to_sqlite_batch_frame b w :
  stmt_frame [Call_save_to_sqlite_batch b] w (save_to_sqlite_batch b w).
Proof.
  destruct (Inserts.save_to_sqlite_batch_cases b w)
    as (fs' & rows' & pend' & r & ext & E & Hcase & Hi).
  rewrite E. unfold stmt_frame.
  cbn [fst snd message_queue loop_running trace faults].
  assert (Hext : pushed ext = [] /\ drained ext = [] /\ sink_calls ext = []
                 /\ (r = Ok tt ->
                     List.length (filter is_error_log ext)
                     = List.length (filter is_raised ext))
                 /\ (r = Ok tt \/ r = Raise KeyboardInterrupt)
                 /\ (forallb caught (faults w) = true -> r = Ok tt)).
  { destruct Hcase as [(-> & -> & _)
                      | [(k & x & _ & Hin & _ & _ & Hrx)
                        | (x & Hin & _ & _ & Hrx)]].
    - cbn. auto 10.
    - destruct x; inversion Hrx; subst; cbn;
        repeat split; auto; try discriminate.
      intros H. rewrite forallb_forall in H. apply H in Hin.
      discriminate Hin.
    - destruct x; inversion Hrx; subst; cbn;
        repeat split; auto; try discriminate.
      intros H. rewrite forallb_forall in H. apply H in Hin.
      discriminate Hin. }
  destruct Hext as (Hp & Hd & Hs & He & Hr & Hc).
  split; [reflexivity|]. split; [reflexivity|]. split.
  { eexists. split; [reflexivity|].
    split; [exact Hp|]. split; [exact Hd|].
    split; [|exact He].
    change (Call_save_to_sqlite_batch b :: sink_calls ext
            = [Call_save_to_sqlite_batch b]).
    rewrite Hs. reflexivity. }
  split; [exact Hr|]. split.
  - intros H. split; [auto|]. eapply Inserts.incl_caught; eauto.
  - intros H. eapply Inserts.incl_no_faults; eauto.
Qed.

Lemma save_to_json_frame args m w :
  stmt_frame [Call_save_to_json m] w (save_to_json args m w).
Proof.
  destruct w as [q rows pend file lr cn fs tr].
  unfold save_to_json, with_open_append, file_write. unfold_M.
  frame_cases.
Qed.

Lemma sleep_frame w : stmt_frame [] w (time_sleep 1 w).
Proof.
  destruct w as [q rows pend file lr cn fs tr]. unfold_M. frame_cases.
Qed.

(** The database after [save_to_sqlite_batch]: the file is not touched;
    without a fault the pending rows and the batch are committed. *)
Lemma save_to_sqlite_batch_data b w :
  json_file (snd (save_to_sqlite_batch b w)) = json_file w
  /\ (faults w = [] ->
      db_rows (snd (save_to_sqlite_batch b w))
      = db_rows w ++ db_pending w ++ b
      /\ db_pending (snd (save_to_sqlite_batch b w)) = []).
Proof.
  destruct (Inserts.save_to_sqlite_batch_cases b w)
    as (fs' & rows' & pend' & r & ext & E & Hcase & Hi).
  rewrite E. cbn [snd json_file db_rows db_pending].
  split; [reflexivity|]. intros Hf.
  destruct Hcase as [(_ & _ & -> & ->)
                    | [(k & x & _ & Hin & _) | (x & Hin & _)]]; auto;
    rewrite Hf in Hin; destruct Hin.
Qed.

(** The file after [save_to_json]: the database is not touched; the
    old contents stay, followed by nothing or by the record's line. *)
Lemma save_to_json_data args m w :
  db_rows (snd (save_to_json args m w)) = db_rows w
  /\ db_pending (snd (save_to_json args m w)) = db_pending w
  /\ (json_file (snd (save_to_json args m w)) = json_file w
      \/ json_file (snd (save_to_json args m w))
         = json_file w ++ json_line args m)
  /\ (faults w = [] ->
      json_file (snd (save_to_json args m w))
      = json_file w ++ json_line args m).
Proof.
  destruct w as [q rows pend file lr cn fs tr].
  unfold save_to_json, with_open_append, file_write, json_line. unfold_M.
  faults_cases; repeat split; auto; intros; discriminate.
Qed.

Lemma sleep_data w :
  db_rows (snd (time_sleep 1 w)) = db_rows w
  /\ db_pending (snd (time_sleep 1 w)) = db_pending w
  /\ json_file (snd (time_sleep 1 w)) = json_file w.
Proof.
  destruct w as [q rows pend file lr cn fs tr]. unfold_M.
  faults_cases; auto.
Qed.

(** Leaving the [try] body ends the process; the handlers touch neither
    the queue nor the sinks' contents. *)
Lemma leave_try_exits e w :
  exists c w',
    leave_try e w = (Exited c, w')
    /\ message_queue w' = message_queue w
    /\ db_rows w' = db_rows w /\ db_pending w' = db_pending w
    /\ json_file w' = json_file w
    /\ (exists ext,
          trace w' = trace w ++ ext
          /\ pushed ext = [] /\ drained ext = [] /\ sink_calls ext = []
          /\ filter is_sink_io ext = []).
Proof.
  destruct w as [q rows pend file lr cn fs tr].
  unfold leave_try, except_KeyboardInterrupt, finally_block,
    client_disconnect, on_disconnect.
  unfold_M.
  destruct cn; destruct e; faults_cases;
    do 2 eexists; (split; [reflexivity|]); cbn; repeat split; auto;
    give_ext.
Qed.

End Statements.

(** ** The callbacks and the start of the script *)

Module Threads.

(** A callback of the network thread puts at most one record and
    touches nothing else but the history. *)
Lemma callback_effect e w :
  exists ms ext,
    message_queue (snd (callback e w)) = message_queue w ++ ms
    /\ trace (snd (callback e w)) = trace w ++ ext
    /\ pushed ext = ms /\ drained ext = [] /\ sink_calls ext = []
    /\ filter is_sink_io ext = []
    /\ db_rows (snd (callback e w)) = db_rows w
    /\ db_pending (snd (callback e w)) = db_pending w
    /\ json_file (snd (callback e w)) = json_file w
    /\ faults (snd (callback e w)) = faults w
    /\ loop_running (snd (callback e w)) = loop_running w.
Proof.
  destruct w as [q rows pend file lr cn fs tr].
  destruct e as [now msg|rc|rc]; unfold callback.
  - unfold on_message.
    destruct (stored_payload (msg_payload msg)) as [[text [|]]|];
      unfold_M; cbn.
    + eexists [_]; give_ext.
    + eexists [_]; give_ext.
    + exists []; exists []. rewrite !app_nil_r. repeat split; auto.
  - unfold on_connect. destruct (rc_value rc =? 0)%Z; unfold_M; cbn;
      exists []; rewrite app_nil_r; give_ext.
  - unfold on_disconnect.
    destruct (rc_value rc =? 0)%Z; unfold_M; cbn;
      exists []; rewrite app_nil_r; give_ext.
Qed.

(** [on_message] puts one record, with the fields of the message. *)
Lemma on_message_puts now msg w :
  exists text,
    message_queue (snd (on_message now msg w))
    = message_queue w
      ++ [Message (msg_topic msg) text now (msg_qos msg) (msg_retain msg)].
Proof.
  destruct (CodecFacts.fallback_roundtrip (msg_payload msg)) as [Henc _].
  unfold on_message, stored_payload.
  destruct (Utf8.decode (msg_payload msg)) as [text|].
  - exists text. reflexivity.
  - rewrite Henc. eexists. reflexivity.
Qed.

(** The script up to the main loop: either it has exited, or it is at
    line 129 with the loop thread running; nothing was put, drained or
    given to a sink. *)
Lemma boot_state args rows file fs :
  message_queue (snd (boot args (fresh rows file fs))) = []
  /\ pushed (trace (snd (boot args (fresh rows file fs)))) = []
  /\ drained (trace (snd (boot args (fresh rows file fs)))) = []
  /\ sink_calls (trace (snd (boot args (fresh rows file fs)))) = []
  /\ json_file (snd (boot args (fresh rows file fs))) = file
  /\ (exited (fst (boot args (fresh rows file fs))) = false ->
      fst (boot args (fresh rows file fs)) = L129
      /\ loop_running (snd (boot args (fresh rows file fs))) = true)
  /\ (fs = [] ->
      exited (fst (boot args (fresh rows file fs))) = false
      /\ faults (snd (boot args (fresh rows file fs))) = []
      /\ db_rows (snd (boot args (fresh rows file fs))) = rows
      /\ db_pending (snd (boot args (fresh rows file fs))) = []).
Proof.
  unfold boot, startup, setup_sqlite, setup_mqtt, fresh.
  destruct (truthy (username args) && truthy (password args));
    unfold_M; faults_cases; rewrite ?app_nil_r;
    repeat split; auto; try discriminate; intros; discriminate.
Qed.

End Threads.

(** ** Invariants of the interleaved run *)

Module Invariants.
Import Statements Threads.

Lemma pushed_app a b : pushed (a ++ b) = pushed a ++ pushed b.
Proof. apply flat_map_app. Qed.

Lemma drained_app a b : drained (a ++ b) = drained a ++ drained b.
Proof. apply flat_map_app. Qed.

Lemma sink_calls_app a b : sink_calls (a ++ b) = sink_calls a ++ sink_calls b.
Proof. apply filter_app. Qed.

Lemma block_cons m b :
  block (m :: b) = Call_save_to_sqlite_batch (m :: b)
                   :: map Call_save_to_json (m :: b).
Proof. reflexivity. Qed.

(** A statement of the [try] body keeps [buffer_inv], whether it ends
    normally or leaves the loop. *)
Lemma continue_buffer_inv l next calls w r :
  stmt_frame calls w r ->
  running_inv (l, w) ->
  in_hand l = [] -> in_hand next = [] ->
  exited l = false -> exited next = false ->
  (forall b, next <> L131 b) ->
  sink_todo l = calls ++ sink_todo next ->
  buffer_inv (continue next r).
Proof.
  intros (Hq & Hlr & (ext & Htr & Hp & Hd & Hc & _) & Hres & _ & _).
  intros (Ipush & _ & Iloop & extra & Icalls & Iextra).
  intros Hl Hnext Hrun Hrun' Hget Htodo.
  specialize (Iextra Hrun). subst extra. rewrite app_nil_r in Icalls.
  rewrite Hl in Ipush. cbn in Ipush.
  destruct r as [res w1]. cbn [fst snd] in *.
  assert (Ipush1 : pushed (trace w1)
                   = List.concat (drained (trace w1)) ++ message_queue w1).
  { rewrite Htr, pushed_app, drained_app, Hp, Hd, !app_nil_r, Hq.
    exact Ipush. }
  assert (Icalls1 : sink_calls (trace w1) ++ sink_todo next
                    = flat_map block (drained (trace w1))).
  { rewrite Htr, sink_calls_app, drained_app, Hd, app_nil_r, Hc.
    rewrite <- Icalls, Htodo, app_assoc. reflexivity. }
  destruct Hres as [-> | ->]; cbn [continue].
  - unfold buffer_inv. cbn [fst snd]. rewrite Hrun'.
    unfold running_inv. rewrite Hnext. cbn [app].
    split; [exact Ipush1|]. split; [intros b Hb; destruct (Hget b Hb)|].
    split; [intros _; rewrite Hlr; auto|].
    exists []. rewrite app_nil_r. auto.
  - destruct (leave_try_exits KeyboardInterrupt w1)
      as (c & w2 & -> & Hq2 & _ & _ & _ & ext2 & Htr2 & Hp2 & Hd2 & Hc2 & _).
    unfold buffer_inv, exited_inv. cbn [fst snd exited].
    exists [], (sink_todo next).
    rewrite Htr2, pushed_app, drained_app, sink_calls_app, Hp2, Hd2, Hc2,
      !app_nil_r, Hq2.
    split; [exact Ipush1 | exact Icalls1].
Qed.

Ltac inv_split := split; [| split; [| split ] ].

Lemma main_step_buffer_inv args s :
  buffer_inv s -> buffer_inv (main_step args s).
Proof.
  destruct s as [l w]. intros I.
  destruct l as [|b|b|b|rest| |c]; cbn [main_step];
    unfold buffer_inv in I; cbn [fst snd exited] in I.
  - (* L129 *)
    destruct I as (Ip & _ & Il & Ic). unfold buffer_inv, running_inv.
    cbn in *. inv_split; auto. discriminate.
  - (* L130 *)
    destruct I as (Ip & _ & Il & extra & Ic & Ie).
    specialize (Ie eq_refl). subst extra. cbn in *.
    rewrite app_nil_r in Ic.
    destruct (message_queue w) as [|m q] eqn:Hq.
    + unfold buffer_inv, running_inv, record. cbn.
      rewrite pushed_app, drained_app, concat_app, flat_map_app,
        sink_calls_app. cbn. rewrite !app_nil_r in *.
      inv_split; auto; try discriminate.
      * rewrite Hq, app_nil_r. exact Ip.
      * exists []. rewrite app_nil_r, <- Ic. auto.
    + unfold buffer_inv, running_inv. cbn. rewrite Hq.
      inv_split; auto; try discriminate.
      exists []. rewrite app_nil_r. auto.
  - (* L131 *)
    destruct I as (Ip & Ig & Il & extra & Ic & Ie).
    specialize (Ie eq_refl). subst extra. cbn in *.
    destruct (message_queue w) as [|m q] eqn:Hq.
    + destruct (Ig b eq_refl eq_refl).
    + unfold buffer_inv, running_inv, record, set_queue. cbn.
      rewrite pushed_app, drained_app, sink_calls_app. cbn.
      rewrite !app_nil_r in *. rewrite <- app_assoc. cbn.
      inv_split; auto; try discriminate.
      exists []. rewrite app_nil_r. auto.
  - (* L132 *)
    destruct b as [|m b].
    + destruct I as (Ip & _ & Il & Ic). unfold buffer_inv, running_inv.
      cbn in *. inv_split; auto. discriminate.
    + eapply continue_buffer_inv;
        [apply save_to_sqlite_batch_frame | exact I | ..];
        try reflexivity; discriminate.
  - (* L134 *)
    destruct rest as [|m rest].
    + destruct I as (Ip & _ & Il & Ic). unfold buffer_inv, running_inv.
      cbn in *. inv_split; auto. discriminate.
    + eapply continue_buffer_inv;
        [apply save_to_json_frame | exact I | ..];
        try reflexivity; discriminate.
  - (* L136 *)
    eapply continue_buffer_inv; [apply sleep_frame | exact I | ..];
      try reflexivity; discriminate.
  - exact I.
Qed.

Lemma net_step_buffer_inv e s : buffer_inv s -> buffer_inv (net_step e s).
Proof.
  destruct s as [l w]. intros I. unfold net_step.
  destruct (exited l) eqn:Hx; [destruct l; try discriminate; exact I|].
  destruct (loop_running w) eqn:Hlr; [|destruct l; exact I].
  destruct (callback_effect e w)
    as (ms & ext & Hq & Htr & Hp & Hd & Hc & _ & _ & _ & _ & _ & Hl).
  unfold buffer_inv in I. cbn [fst snd] in I. rewrite Hx in I.
  destruct I as (Ip & Ig & Il & Ic).
  assert (buffer_inv (l, snd (callback e w))).
  { unfold buffer_inv. cbn [fst snd]. rewrite Hx. unfold running_inv.
    rewrite Htr, pushed_app, drained_app, sink_calls_app, Hp, Hd, Hc,
      !app_nil_r, Hq, Ip, Hl, <- !app_assoc.
    inv_split; auto.
    intros b Hb. specialize (Ig b Hb).
    destruct (message_queue w); [congruence | discriminate]. }
  destruct l; try exact H; discriminate.
Qed.

(** An interrupt between two statements: what the drain loop held is
    dropped, the queue stays as it is. *)
Lemma interrupt_buffer_inv s : buffer_inv s -> buffer_inv (interrupt s).
Proof.
  destruct s as [l w]. intros I. unfold interrupt.
  destruct (exited l) eqn:Hx; [destruct l; try discriminate; exact I|].
  unfold buffer_inv in I. cbn [fst snd] in I. rewrite Hx in I.
  destruct I as (Ip & _ & _ & extra & Ic & _).
  destruct (leave_try_exits KeyboardInterrupt
              (record (Raised KeyboardInterrupt) w))
    as (c & w2 & Hleave & Hq2 & _ & _ & _ & ext2 & Htr2 & Hp2 & Hd2 & Hc2 & _).
  assert (buffer_inv (Exited c, w2)).
  { unfold buffer_inv, exited_inv. cbn [fst snd exited].
    exists (in_hand l), (sink_todo l ++ extra).
    rewrite Htr2, pushed_app, drained_app, sink_calls_app, Hp2, Hd2, Hc2,
      !app_nil_r, Hq2.
    unfold record. cbn.
    rewrite pushed_app, drained_app, sink_calls_app. cbn.
    rewrite !app_nil_r. auto. }
  rewrite Hleave. destruct l; try exact H; discriminate.
Qed.

Lemma step_buffer_inv args a s : buffer_inv s -> buffer_inv (step args a s).
Proof.
  destruct a;
    [apply main_step_buffer_inv | apply net_step_buffer_inv
     | apply interrupt_buffer_inv].
Qed.

Lemma run_buffer_inv args schedule s :
  buffer_inv s -> buffer_inv (run args schedule s).
Proof.
  revert s. induction schedule as [|a sch IH]; intros s I; [exact I|].
  apply IH, step_buffer_inv, I.
Qed.

Lemma boot_buffer_inv args rows file fs :
  buffer_inv (boot args (fresh rows file fs)).
Proof.
  destruct (boot_state args rows file fs)
    as (Hq & Hp & Hd & Hc & _ & Hrun & _).
  destruct (boot args (fresh rows file fs)) as [l w]. cbn [fst snd] in *.
  unfold buffer_inv. cbn [fst snd].
  destruct (exited l) eqn:Hx.
  - exists [], []. rewrite Hq, Hp, Hd, Hc. auto.
  - destruct (Hrun eq_refl) as [-> Hl]. unfold running_inv.
    rewrite Hq, Hp, Hd, Hc. cbn.
    inv_split; auto; try discriminate. exists []. auto.
Qed.

(** What [buffer_inv] says of the records put, in every state. *)
Lemma buffer_inv_pushed s :
  buffer_inv s ->
  exists hand,
    pushed (trace (snd s))
    = List.concat (drained (trace (snd s))) ++ hand ++ message_queue (snd s)
    /\ (exited (fst s) = false -> hand = in_hand (fst s)).
Proof.
  destruct s as [l w]. unfold buffer_inv. cbn [fst snd].
  destruct (exited l) eqn:Hx.
  - intros (hand & extra & Hp & _). exists hand. split; [exact Hp|].
    discriminate.
  - intros (Hp & _). exists (in_hand l). auto.
Qed.

(** What [buffer_inv] says of the sink calls, in every state. *)
Lemma buffer_inv_calls s :
  buffer_inv s ->
  exists extra,
    sink_calls (trace (snd s)) ++ sink_todo (fst s) ++ extra
    = flat_map block (drained (trace (snd s)))
    /\ (exited (fst s) = false -> extra = []).
Proof.
  destruct s as [l w]. unfold buffer_inv. cbn [fst snd].
  destruct (exited l) eqn:Hx.
  - intros (hand & extra & _ & Hc). exists extra.
    destruct l; try discriminate. cbn. split; [exact Hc | discriminate].
  - intros (_ & _ & _ & extra & Hc & He). exists extra. auto.
Qed.

Lemma buffer_inv_running l w :
  exited l = false -> buffer_inv (l, w) -> running_inv (l, w).
Proof.
  intros Hx. unfold buffer_inv. cbn [fst snd]. rewrite Hx. auto.
Qed.

End Invariants.

(** ** The sinks' contents without faults, and faults without exit *)

Module Persister.
Import Statements Threads Invariants.

Lemma frame_ok calls w r :
  stmt_frame calls w r ->
  forallb caught (faults w) = true ->
  fst r = Ok tt /\ forallb caught (faults (snd r)) = true.
Proof. intros (_ & _ & _ & _ & H & _). exact H. Qed.

Lemma frame_trace calls w r :
  stmt_frame calls w r ->
  drained (trace (snd r)) = drained (trace w).
Proof.
  intros (_ & _ & (ext & -> & _ & Hd & _) & _).
  rewrite drained_app, Hd, app_nil_r. reflexivity.
Qed.


Lemma continue_ok next r :
  fst r = Ok tt -> continue next r = (next, snd r).
Proof. destruct r as [[[]|e] w]; cbn; [reflexivity | discriminate]. Qed.





(** While no interrupt is to come the process does not exit. *)
Lemma main_step_keeps_running args s :
  keeps_running s -> keeps_running (main_step args s).
Proof.
  destruct s as [l w]. unfold keeps_running. cbn [fst snd].
  intros (Hx & Hc).
  destruct l as [|b|b|b|rest| |c]; cbn [main_step]; try discriminate.
  - auto.
  - destruct (message_queue w); cbn; auto.
  - destruct (message_queue w); cbn; auto.
  - destruct b as [|m b]; [cbn; auto|].
    destruct (frame_ok (save_to_sqlite_batch_frame (m :: b) w) Hc) as (Hok & Hc').
    rewrite (continue_ok _ _ Hok). cbn. auto.
  - destruct rest as [|m rest]; [cbn; auto|].
    destruct (frame_ok (save_to_json_frame args m w) Hc) as (Hok & Hc').
    rewrite (continue_ok _ _ Hok). cbn. auto.
  - destruct (frame_ok (sleep_frame w) Hc) as (Hok & Hc').
    rewrite (continue_ok _ _ Hok). cbn. auto.
Qed.

Lemma net_step_keeps_running e s :
  keeps_running s -> keeps_running (net_step e s).
Proof.
  destruct s as [l w]. unfold keeps_running, net_step. cbn [fst snd].
  intros (Hx & Hc).
  destruct (callback_effect e w)
    as (ms & ext & _ & _ & _ & _ & _ & _ & _ & _ & _ & Hf & _).
  destruct l; try discriminate; destruct (loop_running w); cbn;
    rewrite ?Hf; auto.
Qed.

Lemma run_keeps_running args schedule s :
  undisturbed schedule = true ->
  keeps_running s -> keeps_running (run args schedule s).
Proof.
  revert s. induction schedule as [|a sch IH]; intros s U I; [exact I|].
  destruct a; try discriminate U; apply IH; try exact U;
    [apply main_step_keeps_running | apply net_step_keeps_running]; exact I.
Qed.

End Persister.

(** ** Progress of the main thread *)

Module Progress.
Import Statements Threads Invariants Persister.

Lemma main_steps_S args n s :
  main_steps args (S n) s = main_steps args n (main_step args s).
Proof. reflexivity. Qed.

Lemma main_steps_add args n m s :
  main_steps args (n + m) s = main_steps args m (main_steps args n s).
Proof.
  unfold main_steps, run. rewrite repeat_app, fold_left_app. reflexivity.
Qed.

(** The drain loop, left alone, takes everything queued, in order, and
    ends. *)
Lemma drain_phase args q :
  forall b w,
    message_queue w = q ->
    exists w',
      main_steps args (2 * List.length q + 1) (L130 b, w) = (L132 (b ++ q), w')
      /\ message_queue w' = []
      /\ drained (trace w') = drained (trace w) ++ [b ++ q]
      /\ pushed (trace w') = pushed (trace w)
      /\ faults w' = faults w.
Proof.
  induction q as [|m q IH]; intros b w Hq.
  - cbn. rewrite Hq. eexists. split; [rewrite app_nil_r; reflexivity|].
    unfold record. cbn. rewrite drained_app, pushed_app. cbn.
    rewrite !app_nil_r. auto.
  - replace (2 * List.length (m :: q) + 1)%nat
      with (S (S (2 * List.length q + 1))) by (cbn; lia).
    rewrite main_steps_S. cbn [main_step]. rewrite Hq.
    rewrite main_steps_S. cbn [main_step]. rewrite Hq.
    destruct (IH (b ++ [m]) (record (QueueGet m) (set_queue q w)) eq_refl)
      as (w' & Hrun & Hq' & Hd & Hp & Hf).
    exists w'. rewrite Hrun, <- app_assoc. cbn [app].
    split; [reflexivity|]. split; [exact Hq'|].
    unfold record, set_queue in *. cbn in *.
    rewrite drained_app, pushed_app in *. cbn in *.
    rewrite !app_nil_r in *. rewrite <- app_assoc in Hd. auto.
Qed.

(** The [for] loop of line 134 calls [save_to_json] for every record
    left, whatever fails, and reaches the sleep. *)
Lemma json_phase args rest :
  forall w,
    forallb caught (faults w) = true ->
    exists w' ext,
      main_steps args (List.length rest + 1) (L134 rest, w) = (L136, w')
      /\ trace w' = trace w ++ ext
      /\ sink_calls ext = map Call_save_to_json rest
      /\ pushed ext = [] /\ drained ext = []
      /\ List.length (filter is_error_log ext)
         = List.length (filter is_raised ext)
      /\ message_queue w' = message_queue w
      /\ forallb caught (faults w') = true.
Proof.
  induction rest as [|m rest IH]; intros w Hc.
  - exists w, []. cbn. rewrite app_nil_r. repeat split; auto.
  - cbn [List.length Nat.add]. rewrite main_steps_S. cbn [main_step].
    pose proof (save_to_json_frame args m w) as F.
    destruct (frame_ok F Hc) as (Hok & Hc1).
    rewrite (continue_ok _ _ Hok).
    destruct F as (Hq & _ & (ext1 & Htr1 & Hp1 & Hd1 & Hs1 & He1) & _).
    destruct (IH _ Hc1)
      as (w' & ext & Hrun & Htr & Hs & Hp & Hd & He & Hq' & Hc').
    exists w', (ext1 ++ ext). rewrite Hrun, Htr, Htr1, <- app_assoc.
    rewrite sink_calls_app, pushed_app, drained_app, !filter_app,
      !length_app, Hs1, Hs, Hp1, Hp, Hd1, Hd, (He1 Hok), He, Hq', Hq.
    repeat split; auto.
Qed.

(** Lines 132-135 for a batch that is not empty. *)
Lemma sink_phase args m b w :
  forallb caught (faults w) = true ->
  exists w' ext,
    main_steps args (List.length (m :: b) + 2) (L132 (m :: b), w) = (L136, w')
    /\ trace w' = trace w ++ ext
    /\ sink_calls ext = block (m :: b)
    /\ pushed ext = [] /\ drained ext = []
    /\ List.length (filter is_error_log ext)
       = List.length (filter is_raised ext)
    /\ message_queue w' = message_queue w
    /\ forallb caught (faults w') = true.
Proof.
  intros Hc.
  replace (List.length (m :: b) + 2)%nat
    with (S (List.length (m :: b) + 1)) by lia.
  rewrite main_steps_S. cbn [main_step].
  pose proof (save_to_sqlite_batch_frame (m :: b) w) as F.
  destruct (frame_ok F Hc) as (Hok & Hc1).
  rewrite (continue_ok _ _ Hok).
  destruct F as (Hq & _ & (ext1 & Htr1 & Hp1 & Hd1 & Hs1 & He1) & _).
  destruct (json_phase args (m :: b) _ Hc1)
    as (w' & ext & Hrun & Htr & Hs & Hp & Hd & He & Hq' & Hc').
  exists w', (ext1 ++ ext). rewrite Hrun, Htr, Htr1, <- app_assoc.
  rewrite sink_calls_app, pushed_app, drained_app, !filter_app,
    !length_app, Hs1, Hs, Hp1, Hp, Hd1, Hd, (He1 Hok), He, Hq', Hq.
  repeat split; auto.
Qed.

(** The main thread, left alone and not interrupted, comes back to the
    head of the drain loop. *)
Lemma reach_drain args l w :
  exited l = false ->
  (forall b, l = L131 b -> message_queue w <> []) ->
  forallb caught (faults w) = true ->
  exists n b w', main_steps args n (l, w) = (L130 b, w').
Proof.
  intros Hx Hg Hc.
  assert (from_sleep : forall w, forallb caught (faults w) = true ->
            exists w', main_steps args 2 (L136, w) = (L130 [], w')).
  { intros w0 Hc0. rewrite !main_steps_S. cbn [main_step].
    rewrite (continue_ok _ _ (proj1 (frame_ok (sleep_frame w0) Hc0))).
    cbn. eauto. }
  destruct l as [|b|b|b|rest| |c]; try discriminate.
  - exists 1%nat, [], w. reflexivity.
  - exists 0%nat, b, w. reflexivity.
  - destruct (message_queue w) as [|m q] eqn:Hq.
    + destruct (Hg b eq_refl eq_refl).
    + exists 1%nat. cbn. rewrite Hq. eauto.
  - destruct b as [|m b].
    + destruct (from_sleep w Hc) as (w' & Hrun).
      exists 3%nat, [], w'. rewrite main_steps_S. exact Hrun.
    + destruct (sink_phase args m b w Hc)
        as (w1 & ext & Hrun & _ & _ & _ & _ & _ & _ & Hc1).
      destruct (from_sleep w1 Hc1) as (w' & Hrun').
      exists (List.length (m :: b) + 2 + 2)%nat, [], w'.
      rewrite main_steps_add, Hrun. exact Hrun'.
  - destruct (json_phase args rest w Hc)
      as (w1 & ext & Hrun & _ & _ & _ & _ & _ & _ & Hc1).
    destruct (from_sleep w1 Hc1) as (w' & Hrun').
    exists (List.length rest + 1 + 2)%nat, [], w'.
    rewrite main_steps_add, Hrun. exact Hrun'.
  - destruct (from_sleep w Hc) as (w' & Hrun). exists 2%nat, [], w'.
    exact Hrun.
Qed.

(** The main thread puts nothing on the queue. *)
Lemma main_step_pushed args s :
  pushed (trace (snd (main_step args s))) = pushed (trace (snd s)).
Proof.
  assert (cont : forall next calls w r,
             stmt_frame calls w r ->
             pushed (trace (snd (continue next r))) = pushed (trace w)).
  { intros next calls w r (_ & _ & (ext & Htr & Hp & _) & Hres & _).
    destruct r as [res w1]. cbn [fst snd] in *.
    assert (pushed (trace w1) = pushed (trace w))
      by (rewrite Htr, pushed_app, Hp, app_nil_r; reflexivity).
    destruct Hres as [-> | ->]; cbn [continue snd]; [assumption|].
    destruct (leave_try_exits KeyboardInterrupt w1)
      as (c & w2 & -> & _ & _ & _ & _ & ext2 & Htr2 & Hp2 & _).
    cbn [snd]. rewrite Htr2, pushed_app, Hp2, app_nil_r. assumption. }
  destruct s as [l w].
  destruct l as [|b|b|b|rest| |c]; cbn [main_step snd]; auto.
  - destruct (message_queue w); cbn; [|reflexivity].
    rewrite pushed_app, app_nil_r. reflexivity.
  - destruct (message_queue w); cbn; [reflexivity|].
    rewrite pushed_app, app_nil_r. reflexivity.
  - destruct b; [reflexivity|].
    eapply cont, save_to_sqlite_batch_frame.
  - destruct rest; [reflexivity|]. eapply cont, save_to_json_frame.
  - eapply cont, sleep_frame.
Qed.

Lemma main_steps_pushed args n :
  forall s, pushed (trace (snd (main_steps args n s))) = pushed (trace (snd s)).
Proof.
  induction n as [|n IH]; intros s; [reflexivity|].
  rewrite main_steps_S, IH. apply main_step_pushed.
Qed.

(** Absent a crash, everything put so far ends up in drain results. *)
Lemma all_drained args s :
  buffer_inv s -> keeps_running s ->
  exists n,
    List.concat (drained (trace (snd (main_steps args n s))))
    = pushed (trace (snd s))
    /\ message_queue (snd (main_steps args n s)) = []
    /\ exited (fst (main_steps args n s)) = false.
Proof.
  intros I R. destruct s as [l w]. destruct R as (Hx & Hc).
  cbn [fst snd] in *.
  destruct (@buffer_inv_running l w Hx I) as (Ip & Ig & Il & Ic).
  destruct (@reach_drain args l w Hx Ig Hc) as (n & b & w1 & Hrun).
  destruct (drain_phase args b w1 eq_refl) as (w2 & Hrun2 & Hq2 & _).
  exists (n + (2 * List.length (message_queue w1) + 1))%nat.
  rewrite main_steps_add, Hrun, Hrun2. cbn [fst snd].
  assert (I2 : buffer_inv (L132 (b ++ message_queue w1), w2)).
  { rewrite <- Hrun2, <- Hrun, <- main_steps_add.
    apply run_buffer_inv, I. }
  destruct I2 as (Ip2 & _). cbn in Ip2. rewrite Hq2, app_nil_r in Ip2.
  rewrite <- Ip2. split; [|auto].
  pose proof (main_steps_pushed args
                (n + (2 * List.length (message_queue w1) + 1)) (l, w)) as P.
  rewrite main_steps_add, Hrun, Hrun2 in P. exact P.
Qed.

End Progress.

(* ================================================================== *)
(** * The receipt buffer and the persister *)

Section Claims.

Variable args : Args.
Variables (rows : list message) (file : pystr) (fs : list (option exn)).
Variable schedule : list action.

Let s := run args schedule (boot args (fresh rows file fs)).

(** C2.  Whatever the interleaving of [put]s, of the steps of the
    drain loop and of the rest, the records put are, in the order of
    the [put]s, the drain results so far in order, then a batch [hand],
    then the queue: each record is in one place only, nothing is
    doubled or reordered.  While the process runs [hand] is the batch
    the drain loop holds, which the next drain result starts with, so
    nothing is lost.  Absent a crash (no interrupt to come), the main
    thread left to run ends a drain after which every record put so
    far is in a drain result. *)
Theorem receipt_buffer_fifo :
  (exists hand,
      pushed (trace (snd s))
      = List.concat (drained (trace (snd s))) ++ hand
        ++ message_queue (snd s)
      /\ (exited (fst s) = false -> hand = in_hand (fst s)))
  /\ (keeps_running s ->
      exists n,
        List.concat (drained (trace (snd (main_steps args n s))))
        = pushed (trace (snd s))
        /\ message_queue (snd (main_steps args n s)) = []
        /\ exited (fst (main_steps args n s)) = false).
Proof.
  assert (I : buffer_inv s)
    by apply Invariants.run_buffer_inv, Invariants.boot_buffer_inv.
  split.
  - apply Invariants.buffer_inv_pushed, I.
  - intros R. apply Progress.all_drained; assumption.
Qed.

End Claims.

(** The sample run does not crash, and its two records end up drained. *)
Lemma receipt_buffer_fifo_witness :
  let s := run Sample.args Sample.schedule
               (boot Sample.args (fresh [] [] [])) in
  keeps_running s
  /\ exists n,
       List.concat (drained (trace (snd (main_steps Sample.args n s))))
       = pushed (trace (snd s))
       /\ message_queue (snd (main_steps Sample.args n s)) = []
       /\ exited (fst (main_steps Sample.args n s)) = false.
Proof.
  split.
  - vm_compute. auto.
  - apply (proj2 (receipt_buffer_fifo Sample.args [] [] [] Sample.schedule)).
    vm_compute. auto.
Defined.

Example sample_run_pushed :
  pushed (trace (snd (run Sample.args Sample.schedule
                          (boot Sample.args (fresh [] [] [])))))
  = [Sample.hello_record; Sample.binary_record].
Proof. vm_compute. reflexivity. Qed.

Module QueueIsolation.
Import Statements.

(** The handlers of the [try] neither read nor change the queue. *)
Lemma leave_try_queue e q w :
  leave_try e (set_queue q w)
  = (fst (leave_try e w), set_queue q (snd (leave_try e w))).
Proof.
  destruct w as [q0 rows pend file lr cn fs tr].
  unfold leave_try, except_KeyboardInterrupt, finally_block,
    client_disconnect, on_disconnect.
  unfold_M. destruct cn; destruct e; faults_cases; reflexivity.
Qed.

Lemma continue_queue next r q :
  continue next (fst r, set_queue q (snd r))
  = (fst (continue next r), set_queue q (snd (continue next r))).
Proof.
  destruct r as [[[]|e] w]; cbn [continue fst snd]; [reflexivity|].
  apply leave_try_queue.
Qed.

(** Neither does [executemany]. *)
Lemma insert_rows_queue b q : forall w,
  insert_rows b (set_queue q w)
  = (fst (insert_rows b w), set_queue q (snd (insert_rows b w))).
Proof.
  induction b as [|m b IH]; intros [q0 rows pend file lr cn fs tr].
  - reflexivity.
  - cbn [insert_rows]. unfold bind, attempt.
    destruct fs as [|[x|] fs]; cbn; try reflexivity.
    + apply (IH (World q0 rows (pend ++ [m]) file lr cn [] tr)).
    + apply (IH (World q0 rows (pend ++ [m]) file lr cn fs tr)).
Qed.

Lemma save_to_sqlite_batch_queue b q w :
  save_to_sqlite_batch b (set_queue q w)
  = (fst (save_to_sqlite_batch b w),
     set_queue q (snd (save_to_sqlite_batch b w))).
Proof.
  destruct w as [q0 rows pend file lr cn fs tr].
  unfold save_to_sqlite_batch, executemany.
  unfold try_except_Exception, bind, emit, skip, logger_error.
  pose proof (insert_rows_queue b q
                (record (ExecuteMany b)
                   (record (Call_save_to_sqlite_batch b)
                      (World q0 rows pend file lr cn fs tr)))) as E.
  unfold record, set_queue in E |- *. cbn in E |- *. rewrite E. clear E.
  destruct (insert_rows b _) as [[[]|[t|]] [q1 rows1 pend1 file1 lr1 cn1 fs1 tr1]];
    cbn; try reflexivity.
  unfold call. unfold_M. faults_cases; reflexivity.
Qed.

(** Outside the drain loop a statement of the main thread neither reads
    nor changes the queue: with any other queue contents it does the
    same and leaves those contents as they are. *)
Lemma sink_step_ignores_queue args l w q :
  in_drain l = false ->
  main_step args (l, set_queue q w)
  = (fst (main_step args (l, w)), set_queue q (snd (main_step args (l, w)))).
Proof.
  intros Hl.
  destruct l as [|b|b|b|rest| |c]; try discriminate; cbn [main_step].
  - destruct b as [|m b]; [reflexivity|].
    rewrite save_to_sqlite_batch_queue. apply continue_queue.
  - destruct rest as [|m rest]; [reflexivity|].
    destruct w as [q0 rows pend file lr cn fs tr].
    unfold continue, leave_try, except_KeyboardInterrupt, finally_block,
      client_disconnect, on_disconnect,
      save_to_json, with_open_append, file_write.
    unfold_M. destruct cn; faults_cases; reflexivity.
  - destruct w as [q0 rows pend file lr cn fs tr].
    unfold continue, leave_try, except_KeyboardInterrupt, finally_block,
      client_disconnect, on_disconnect.
    unfold_M. destruct cn; faults_cases; reflexivity.
  - reflexivity.
Qed.

(** The drain loop makes no call to a sink. *)
Lemma drain_step_no_io args l w :
  in_drain l = true ->
  filter is_sink_io (trace (snd (main_step args (l, w))))
  = filter is_sink_io (trace w)
  /\ sink_calls (trace (snd (main_step args (l, w)))) = sink_calls (trace w)
  /\ db_rows (snd (main_step args (l, w))) = db_rows w
  /\ json_file (snd (main_step args (l, w))) = json_file w.
Proof.
  intros Hl.
  destruct l as [|b|b|b|rest| |c]; try discriminate; cbn [main_step].
  - auto.
  - destruct (message_queue w); cbn; auto.
    rewrite filter_app, Invariants.sink_calls_app. cbn.
    rewrite !app_nil_r. auto.
  - destruct (message_queue w); cbn; auto.
    rewrite filter_app, Invariants.sink_calls_app. cbn.
    rewrite !app_nil_r. auto.
Qed.

End QueueIsolation.

Section PersisterClaims.

Variable args : Args.
Variables (rows : list message) (file : pystr) (fs : list (option exn)).
Variable schedule : list action.

Let s := run args schedule (boot args (fresh rows file fs)).

(** C8.  The drain of a tick behaves as one atomic [drain_all] placed
    where the loop sees the queue empty: the batch it leaves with is
    exactly what was put since the previous drain result, in order, and
    the queue is empty at that instant; left alone the loop takes the
    whole queue and ends.  A [put] goes through at every statement of
    the main thread and leaves the main thread where it is.  The drain
    loop makes no call to a sink, so the batch is complete before the
    sink I/O of the tick; and the statements that do the sink I/O
    neither read nor change the queue, so what is put meanwhile is not
    touched by them and no queue operation spans a write. *)
Theorem drain_then_sink_io :
  (forall b,
      fst s = L130 b -> message_queue (snd s) = [] ->
      fst (main_step args s) = L132 b
      /\ drained (trace (snd (main_step args s)))
         = drained (trace (snd s)) ++ [b]
      /\ pushed (trace (snd s))
         = List.concat (drained (trace (snd s))) ++ b)
  /\ (forall b,
         fst s = L130 b ->
         exists w',
           main_steps args (2 * List.length (message_queue (snd s)) + 1) s
           = (L132 (b ++ message_queue (snd s)), w')
           /\ message_queue w' = [])
  /\ (exited (fst s) = false ->
      forall now msg,
        fst (net_step (Deliver now msg) s) = fst s
        /\ exists text,
             message_queue (snd (net_step (Deliver now msg) s))
             = message_queue (snd s)
               ++ [Message (msg_topic msg) text now (msg_qos msg)
                           (msg_retain msg)])
  /\ (in_drain (fst s) = true ->
      filter is_sink_io (trace (snd (main_step args s)))
      = filter is_sink_io (trace (snd s))
      /\ sink_calls (trace (snd (main_step args s)))
         = sink_calls (trace (snd s))
      /\ db_rows (snd (main_step args s)) = db_rows (snd s)
      /\ json_file (snd (main_step args s)) = json_file (snd s))
  /\ (in_drain (fst s) = false ->
      forall q,
        main_step args (fst s, set_queue q (snd s))
        = (fst (main_step args s), set_queue q (snd (main_step args s)))).
Proof.
  assert (I : buffer_inv s)
    by apply Invariants.run_buffer_inv, Invariants.boot_buffer_inv.
  destruct s as [l w]. cbn [fst snd].
  split; [|split; [|split; [|split]]].
  - intros b -> Hq.
    destruct (@Invariants.buffer_inv_running (L130 b) w eq_refl I)
      as (Ip & _).
    cbn [main_step]. rewrite Hq. cbn.
    rewrite Invariants.drained_app. cbn in *.
    rewrite Hq, app_nil_r in Ip. auto.
  - intros b ->.
    destruct (Progress.drain_phase args b w eq_refl) as (w' & Hrun & Hq & _).
    exists w'. auto.
  - intros Hx now msg.
    destruct (@Invariants.buffer_inv_running l w Hx I) as (_ & _ & Il & _).
    specialize (Il Hx).
    destruct (Threads.on_message_puts now msg w) as (text & Hq).
    unfold net_step. rewrite Il.
    destruct l; try discriminate; cbn [fst snd callback]; eauto.
  - apply QueueIsolation.drain_step_no_io.
  - intros Hl q. apply QueueIsolation.sink_step_ignores_queue, Hl.
Qed.


End PersisterClaims.

(** C3.  As long as the faults to come are exceptions of class
    [Exception] and no interrupt arrives, the process does not exit,
    whatever the interleaving.  For a batch that is not empty, whatever fails in the
    insert or in an append, lines 132-135 end at the sleep of the tick
    with [save_to_sqlite_batch] called once and [save_to_json] called
    for every record of the batch, and with one error line logged for
    each exception raised. *)
Theorem sink_failure_is_contained (args : Args) :
  (forall schedule s,
      undisturbed schedule = true ->
      keeps_running s -> keeps_running (run args schedule s))
  /\ (forall m b w,
         forallb caught (faults w) = true ->
         exists w' ext,
           main_steps args (List.length (m :: b) + 2) (L132 (m :: b), w)
           = (L136, w')
           /\ trace w' = trace w ++ ext
           /\ sink_calls ext
              = Call_save_to_sqlite_batch (m :: b)
                :: map Call_save_to_json (m :: b)
           /\ List.length (filter is_error_log ext)
              = List.length (filter is_raised ext)).
Proof.
  split.
  - intros schedule s. apply Persister.run_keeps_running.
  - intros m b w Hc.
    destruct (Progress.sink_phase args m b w Hc)
      as (w' & ext & Hrun & Htr & Hs & _ & _ & He & _).
    exists w', ext. auto.
Qed.

(** The sample run at the end of its drain: the loop leaves with the
    two records put, a third [put] goes through, and the next statement
    does no sink I/O; the statement after it, the insert, does the same
    whatever the queue holds. *)
Lemma drain_then_sink_io_witness :
  let s := run Sample.args Scenario.drain_end
               (boot Sample.args (fresh [] [] [])) in
  let s1 := run Sample.args (Scenario.drain_end ++ [Main])
                (boot Sample.args (fresh [] [] [])) in
  (fst s = L130 Scenario.batch /\ message_queue (snd s) = []
   /\ exited (fst s) = false /\ in_drain (fst s) = true
   /\ in_drain (fst s1) = false)
  /\ (fst (main_step Sample.args s) = L132 Scenario.batch
      /\ drained (trace (snd (main_step Sample.args s)))
         = drained (trace (snd s)) ++ [Scenario.batch]
      /\ pushed (trace (snd s))
         = List.concat (drained (trace (snd s))) ++ Scenario.batch)
  /\ (exists w',
         main_steps Sample.args
                    (2 * List.length (message_queue (snd s)) + 1) s
         = (L132 (Scenario.batch ++ message_queue (snd s)), w')
         /\ message_queue w' = [])
  /\ (exists text,
         message_queue (snd (net_step (Deliver Sample.now Sample.hello) s))
         = message_queue (snd s)
           ++ [Message (msg_topic Sample.hello) text Sample.now
                       (msg_qos Sample.hello) (msg_retain Sample.hello)])
  /\ filter is_sink_io (trace (snd (main_step Sample.args s)))
     = filter is_sink_io (trace (snd s))
  /\ main_step Sample.args (fst s1, set_queue [Sample.hello_record] (snd s1))
     = (fst (main_step Sample.args s1),
        set_queue [Sample.hello_record] (snd (main_step Sample.args s1))).
Proof.
  pose proof (drain_then_sink_io Sample.args [] [] [] Scenario.drain_end)
    as (H1 & H2 & H3 & H4 & _).
  pose proof (drain_then_sink_io Sample.args [] [] []
                                 (Scenario.drain_end ++ [Main]))
    as (_ & _ & _ & _ & H5).
  split; [vm_compute; auto 6|]. split; [|split; [|split; [|split]]].
  - apply H1; vm_compute; reflexivity.
  - apply H2. vm_compute. reflexivity.
  - apply H3. vm_compute. reflexivity.
  - apply H4. vm_compute. reflexivity.
  - apply H5. vm_compute. reflexivity.
Defined.


(** The insert fails with an [Exception]: the tick still reaches its
    sleep and [save_to_json] was called for both records; and the
    process is still running after two more deliveries and steps. *)
Lemma sink_failure_is_contained_witness :
  (forallb caught (faults Scenario.insert_fails) = true
   /\ undisturbed Sample.schedule = true
   /\ keeps_running (L132 Scenario.batch, Scenario.insert_fails))
  /\ keeps_running (run Sample.args Sample.schedule
                        (L132 Scenario.batch, Scenario.insert_fails))
  /\ exists w' ext,
       main_steps Sample.args 4 (L132 Scenario.batch, Scenario.insert_fails)
       = (L136, w')
       /\ trace w' = trace Scenario.insert_fails ++ ext
       /\ sink_calls ext
          = Call_save_to_sqlite_batch Scenario.batch
            :: map Call_save_to_json Scenario.batch
       /\ List.length (filter is_error_log ext)
          = List.length (filter is_raised ext).
Proof.
  destruct (sink_failure_is_contained Sample.args) as (H1 & H2).
  split; [repeat split|]. split.
  - apply H1; [reflexivity | split; reflexivity].
  - apply (H2 Sample.hello_record [Sample.binary_record]). reflexivity.
Defined.

(** In that tick nothing reaches the table and both lines reach the
    file. *)
Example insert_fails_file_written :
  let w' := snd (main_steps Sample.args 4
                   (L132 Scenario.batch, Scenario.insert_fails)) in
  db_rows w' = []
  /\ json_file w'
     = json_line Sample.args Sample.hello_record
       ++ json_line Sample.args Sample.binary_record
  /\ filter is_error_log (trace w')
     = [Log ERROR (str "Error saving to SQLite: disk I/O error")].
Proof. vm_compute. auto. Qed.

(* ================================================================== *)
(** * The broker connection *)

(** C5.  On a disconnect with a reason code other than 0,
    [on_disconnect] logs, sleeps 5 seconds and then calls [reconnect],
    once; with reason code 0 it only logs and calls no [reconnect]; on
    a connection with reason code 0, [on_connect] subscribes to ["#"]. *)
Theorem reconnect_policy (rc : ReasonCode) (w : world) :
  (rc_value rc <> 0%Z ->
   trace (snd (on_disconnect rc w))
   = trace w
     ++ [Log WARNING (str "Disconnected from MQTT broker");
         Log WARNING (str "Unexpected disconnection (Reason code: "
                      ++ rc_name rc ++ str "). Reconnecting...");
         Sleep 5;
         Reconnect]
   /\ List.length (filter is_reconnect (trace (snd (on_disconnect rc w))))
      = S (List.length (filter is_reconnect (trace w))))
  /\ (rc_value rc = 0%Z ->
      trace (snd (on_disconnect rc w))
      = trace w ++ [Log WARNING (str "Disconnected from MQTT broker")]
      /\ filter is_reconnect (trace (snd (on_disconnect rc w)))
         = filter is_reconnect (trace w))
  /\ (rc_value rc = 0%Z ->
      trace (snd (on_connect rc w))
      = trace w
        ++ [Log INFO (str "Connected to MQTT broker"); Subscribe (str "#")]).
Proof.
  unfold on_disconnect, on_connect. split; [|split].
  - intros H. apply Z.eqb_neq in H. rewrite H. unfold_M. cbn.
    rewrite <- !app_assoc. cbn. split; [reflexivity|].
    rewrite filter_app, length_app. cbn. lia.
  - intros H. rewrite H. unfold_M. cbn. split; [reflexivity|].
    rewrite filter_app. cbn. apply app_nil_r.
  - intros H. rewrite H. unfold_M. cbn. rewrite <- app_assoc. reflexivity.
Qed.

Lemma reconnect_policy_witness :
  (rc_value Sample.refused <> 0%Z
   /\ filter is_reconnect
        (trace (snd (on_disconnect Sample.refused (fresh [] [] []))))
      = [Reconnect])
  /\ (rc_value Sample.success = 0%Z
      /\ filter is_reconnect
           (trace (snd (on_disconnect Sample.success (fresh [] [] []))))
         = []
      /\ trace (snd (on_connect Sample.success (fresh [] [] [])))
         = [Log INFO (str "Connected to MQTT broker"); Subscribe (str "#")]).
Proof.
  assert (N : rc_value Sample.refused <> 0%Z) by discriminate.
  destruct (reconnect_policy Sample.refused (fresh [] [] [])) as (H1 & _).
  destruct (reconnect_policy Sample.success (fresh [] [] []))
    as (_ & H2 & H3).
  destruct (H1 N) as (T1 & _).
  destruct (H2 eq_refl) as (_ & T2).
  split; [split; [exact N | rewrite T1; reflexivity]|].
  split; [reflexivity|]. split; [exact T2 | exact (H3 eq_refl)].
Defined.

(** C10.  [setup_mqtt] calls [username_pw_set] only when both
    [args.username] and [args.password] are given and not empty; with
    one of them missing or empty it sets no credentials and still
    connects. *)
Theorem credentials_need_both (args : Args) (w : world) :
  (truthy (username args) && truthy (password args) = false ->
   filter is_credentials (trace (snd (setup_mqtt args w)))
   = filter is_credentials (trace w)
   /\ (faults w = [] ->
       fst (setup_mqtt args w) = Ok tt
       /\ trace (snd (setup_mqtt args w))
          = trace w
            ++ [ClientNew;
                Log INFO (str "Setting up MQTT client...");
                Log INFO (str "Connecting to " ++ host args ++ str ":"
                          ++ str_of_int (port args));
                Connect (host args) (port args) 60]))
  /\ (truthy (username args) && truthy (password args) = true ->
      faults w = [] ->
      fst (setup_mqtt args w) = Ok tt
      /\ trace (snd (setup_mqtt args w))
         = trace w
           ++ [ClientNew;
               Log INFO (str "Setting up MQTT client...");
               Log INFO (str "Connecting to " ++ host args ++ str ":"
                         ++ str_of_int (port args));
               UsernamePwSet (username args) (password args);
               Connect (host args) (port args) 60]).
Proof.
  destruct w as [q rows pend file lr cn fs tr]. unfold setup_mqtt.
  split; intros H; rewrite H.
  - split.
    + unfold_M. faults_cases; rewrite ?filter_app; cbn;
        rewrite ?app_nil_r; reflexivity.
    + cbn. intros ->. unfold_M. cbn. rewrite <- !app_assoc. auto.
  - cbn. intros ->. unfold_M. cbn. rewrite <- !app_assoc. auto.
Qed.


Lemma credentials_need_both_witness :
  (truthy (username Credentials.only_username)
   && truthy (password Credentials.only_username) = false
   /\ filter is_credentials
        (trace (snd (setup_mqtt Credentials.only_username (fresh [] [] []))))
      = []
   /\ filter is_connect
        (trace (snd (setup_mqtt Credentials.only_username (fresh [] [] []))))
      = [Connect (str "localhost") 1883 60])
  /\ (truthy (username Credentials.both)
      && truthy (password Credentials.both) = true
      /\ filter is_credentials
           (trace (snd (setup_mqtt Credentials.both (fresh [] [] []))))
         = [UsernamePwSet (Some (str "alice")) (Some (str "secret"))]).
Proof.
  destruct (credentials_need_both Credentials.only_username (fresh [] [] []))
    as (H1 & _).
  destruct (credentials_need_both Credentials.both (fresh [] [] []))
    as (_ & H2).
  destruct (H1 eq_refl) as (C1 & T1).
  destruct (T1 eq_refl) as (_ & T1').
  destruct (H2 eq_refl eq_refl) as (_ & T2).
  split; [split; [reflexivity | split]|split; [reflexivity|]].
  - exact C1.
  - rewrite T1'. reflexivity.
  - rewrite T2. reflexivity.
Defined.

(* ================================================================== *)
(** * Start and end of the process *)

Module Lifecycle.
Import Statements.

(** The calls of the start: none opens the file, none reconnects, at
    most one connects; a call that raises ends the process with a
    status other than 0. *)
Lemma boot_trace args w :
  exists ext,
    trace (snd (boot args w)) = trace w ++ ext
    /\ filter is_open ext = []
    /\ filter is_reconnect ext = []
    /\ (List.length (filter is_connect ext) <= 1)%nat
    /\ (forall e, fst (startup args w) = Raise e ->
        fst (boot args w) = Exited (exit_code_uncaught e)
        /\ exit_code_uncaught e <> 0%Z)
    /\ (fst (startup args w) = Ok tt -> fst (boot args w) = L129).
Proof.
  destruct w as [q rows pend file lr cn fs tr].
  unfold boot, startup, setup_sqlite, setup_mqtt.
  destruct (truthy (username args) && truthy (password args));
    unfold_M; faults_cases; rewrite <- ?app_assoc; cbn;
    (eexists; split; [reflexivity|]); cbn;
    (split; [reflexivity|]); (split; [reflexivity|]);
    (apply conj; [lia|]);
    (apply conj;
     [ intros ? He; inversion He; subst; cbn;
       (apply conj; [reflexivity | discriminate])
     | intros He; first [reflexivity | discriminate He] ]).
Qed.

(** The first call of the start that raises ends the process there:
    the exception is the last entry of the history and the only one,
    the status is not 0, and the loop thread is not started.  When none
    of them raises the main loop is reached. *)
Lemma boot_fault args w :
  (forall e,
      first_fault (startup_calls args) (faults w) = Some e ->
      fst (boot args w) = Exited (exit_code_uncaught e)
      /\ exit_code_uncaught e <> 0%Z
      /\ loop_running (snd (boot args w)) = loop_running w
      /\ exists ext,
           trace (snd (boot args w)) = trace w ++ ext
           /\ hd_error (rev ext) = Some (Raised e)
           /\ filter is_raised ext = [Raised e])
  /\ (first_fault (startup_calls args) (faults w) = None ->
      fst (boot args w) = L129).
Proof.
  destruct w as [q rows pend file lr cn fs tr].
  unfold boot, startup, setup_sqlite, setup_mqtt, startup_calls.
  destruct (truthy (username args) && truthy (password args));
    unfold_M; faults_cases;
    (apply conj;
     [ intros e He; first [discriminate He | inversion He; subst e];
       (split; [reflexivity|]); (split; [discriminate|]);
       (split; [reflexivity|]);
       rewrite <- ?app_assoc; cbn; eexists; (split; [reflexivity|]);
       split; reflexivity
     | intros He; first [reflexivity | discriminate He] ]).
Qed.

(** A refused session is only logged. *)
Lemma on_connect_refused rc w :
  rc_value rc <> 0%Z ->
  on_connect rc w
  = (Ok tt,
     record (Log ERROR (str "Connection failed with code " ++ rc_name rc)) w).
Proof.
  intros H. apply Z.eqb_neq in H. unfold on_connect. rewrite H.
  reflexivity.
Qed.

(** A state that has exited stays as it is. *)
Lemma run_exited args schedule c w :
  run args schedule (Exited c, w) = (Exited c, w).
Proof.
  induction schedule as [|[|e|] sch IH]; cbn; auto.
Qed.

(** The handler and the [finally] block on an interrupt. *)
Lemma leave_try_interrupt w :
  exists c w' post,
    leave_try KeyboardInterrupt w = (Exited c, w')
    /\ trace w'
       = trace w ++ [Log INFO (str "Shutting down..."); LoopStop] ++ post
    /\ filter is_sink_io post = [] /\ sink_calls post = []
    /\ message_queue w' = message_queue w
    /\ db_rows w' = db_rows w /\ db_pending w' = db_pending w
    /\ json_file w' = json_file w
    /\ filter is_reconnect post = []
    /\ (filter is_raised post = [] ->
        c = 0%Z /\ loop_running w' = false /\ connected w' = false
        /\ post = [Disconnect]
                  ++ (if connected w
                      then [Log WARNING (str "Disconnected from MQTT broker")]
                      else [])
                  ++ [CursorClose; ConnClose;
                      Log INFO (str "Shutdown complete.")]).
Proof.
  destruct w as [q rows pend file lr cn fs tr].
  unfold leave_try, except_KeyboardInterrupt, finally_block,
    client_disconnect, on_disconnect.
  unfold_M.
  destruct cn; faults_cases; rewrite <- ?app_assoc; cbn;
    do 3 eexists; (split; [reflexivity|]);
    (split; [reflexivity|]); cbn;
    repeat split; auto; try discriminate; intros; discriminate.
Qed.

(** A statement of the [try] body that raises has changed neither the
    queue, nor the committed rows, nor the file, and what it raised is
    in the history. *)
Lemma raise_leaves_data args l w :
  exited l = false ->
  exited (fst (main_step args (l, w))) = true ->
  exists w1 pre,
    main_step args (l, w) = leave_try KeyboardInterrupt w1
    /\ trace w1 = trace w ++ pre
    /\ In (Raised KeyboardInterrupt) pre
    /\ message_queue w1 = message_queue w
    /\ db_rows w1 = db_rows w
    /\ json_file w1 = json_file w
    /\ connected w1 = connected w.
Proof.
  intros Hx.
  destruct l as [|b|b|b|rest| |c]; try discriminate; cbn [main_step];
    [ | | destruct b as [|m b]; [cbn; intros H; discriminate H|];
          destruct (Inserts.save_to_sqlite_batch_cases (m :: b) w)
            as (fs' & rows' & pend' & r & ext & E & Hcase & _);
          rewrite E; unfold continue;
          destruct Hcase as [(-> & _)
                            | [(k & x & _ & _ & -> & _ & Hrx)
                              | (x & _ & -> & _ & Hrx)]];
          [ cbn; intros H; discriminate H
          | destruct x; inversion Hrx; subst;
            [ cbn; intros H; discriminate H
            | intros _; do 2 eexists; (split; [reflexivity|]); cbn;
              (split; [reflexivity|]); cbn; auto 8 ] .. ]
      | | ];
    destruct w as [q rows pend file lr cn fs tr].
  - destruct q; cbn; intros H; discriminate H.
  - destruct q; cbn; intros H; discriminate H.
  - destruct rest as [|m rest]; [cbn; intros H; discriminate H|].
    unfold continue, save_to_json, with_open_append, file_write. unfold_M.
    faults_cases; intros H; try discriminate H;
      rewrite <- ?app_assoc; cbn;
      do 2 eexists; (split; [reflexivity|]); cbn;
      (split; [reflexivity|]); cbn; auto 8.
  - unfold continue. unfold_M.
    faults_cases; intros H; try discriminate H;
      rewrite <- ?app_assoc; cbn;
      do 2 eexists; (split; [reflexivity|]); cbn;
      (split; [reflexivity|]); cbn; auto 8.
Qed.

End Lifecycle.

(** C6, as stated, fails: the broker refuses the initial session and
    drops the link; the process has not exited, and a [reconnect] has
    been called. *)
Lemma refused_session_not_fatal :
  ~ refused_session_is_fatal
      (run Sample.args Startup.refused_session
           (boot Sample.args (fresh [] [] []))).
Proof.
  intros [(c & H & _) _]. vm_compute in H. discriminate H.
Qed.

(** The same run, spelled out: still at line 129, one error line, one
    [reconnect]. *)
Example refused_session_run :
  let s := run Sample.args Startup.refused_session
               (boot Sample.args (fresh [] [] [])) in
  fst s = L129
  /\ filter is_error_log (trace (snd s))
     = [Log ERROR (str "Connection failed with code Not authorized")]
  /\ filter is_reconnect (trace (snd s)) = [Reconnect].
Proof. vm_compute. auto. Qed.

(** A file that cannot be opened does not stop the start: the record
    reaches the table, the append fails and is logged, and the loop is
    at its sleep. *)
Example file_unwritable_run :
  let s := run Sample.args Startup.one_record_tick
               (boot Sample.args (fresh [] [] Startup.file_unwritable)) in
  fst s = L136
  /\ db_rows (snd s) = [Sample.hello_record]
  /\ json_file (snd s) = []
  /\ filter is_error_log (trace (snd s))
     = [Log ERROR (str "Error saving to JSON file: Permission denied")].
Proof. vm_compute. auto. Qed.

(** C6, amended.  The first call of the start that raises
    ([sqlite3.connect], the table creation and its commit, the client
    constructor, [username_pw_set], the initial [connect],
    [loop_start]) is not caught: the process ends there with a status
    other than 0, the exception is the last entry of its history, and
    the loop thread is not started; when none raises, the main loop is
    reached.  The start calls [connect] at most once and [reconnect]
    never, and does not open the file.  A session the broker refuses
    ([on_connect] with a reason code other than 0) is only logged and
    leaves the main thread where it is. *)
Theorem startup_call_failure_is_fatal (args : Args) (w : world) :
  (forall e,
      first_fault (startup_calls args) (faults w) = Some e ->
      (exists c, fst (boot args w) = Exited c /\ c <> 0%Z)
      /\ fst (boot args w) = Exited (exit_code_uncaught e)
      /\ loop_running (snd (boot args w)) = loop_running w
      /\ exists ext,
           trace (snd (boot args w)) = trace w ++ ext
           /\ hd_error (rev ext) = Some (Raised e)
           /\ filter is_raised ext = [Raised e])
  /\ (first_fault (startup_calls args) (faults w) = None ->
      fst (boot args w) = L129)
  /\ (exists ext,
         trace (snd (boot args w)) = trace w ++ ext
         /\ filter is_open ext = []
         /\ filter is_reconnect ext = []
         /\ (List.length (filter is_connect ext) <= 1)%nat)
  /\ (forall rc l,
         rc_value rc <> 0%Z ->
         fst (net_step (ConnAck rc) (l, w)) = l
         /\ on_connect rc w
            = (Ok tt,
               record (Log ERROR (str "Connection failed with code "
                                  ++ rc_name rc)) w)).
Proof.
  destruct (Lifecycle.boot_trace args w)
    as (ext & Htr & Ho & Hr & Hc & _).
  destruct (Lifecycle.boot_fault args w) as (Hfault & Hnone).
  split; [|split; [exact Hnone|split]].
  - intros e He. destruct (Hfault e He) as (Hb & Hn & Hl & Hext).
    split; [eauto|]. auto.
  - exists ext. auto.
  - intros rc l Hrc. split.
    + unfold net_step. destruct l; destruct (loop_running w); reflexivity.
    + apply Lifecycle.on_connect_refused, Hrc.
Qed.

(** The broker cannot be reached: the initial [connect] raises and the
    process ends with status 1, the loop thread not started. *)
Lemma startup_call_failure_is_fatal_witness :
  first_fault (startup_calls Sample.args)
              (faults (fresh [] [] Startup.broker_unreachable))
  = Some (PyException (str "Connection refused"))
  /\ fst (boot Sample.args (fresh [] [] Startup.broker_unreachable))
     = Exited 1
  /\ loop_running
       (snd (boot Sample.args (fresh [] [] Startup.broker_unreachable)))
     = false
  /\ rc_value Sample.refused <> 0%Z
  /\ fst (net_step (ConnAck Sample.refused) (L129, fresh [] [] [])) = L129.
Proof.
  assert (N : rc_value Sample.refused <> 0%Z) by discriminate.
  assert (F : first_fault (startup_calls Sample.args)
                (faults (fresh [] [] Startup.broker_unreachable))
              = Some (PyException (str "Connection refused")))
    by reflexivity.
  split; [exact F|].
  pose proof (proj1 (startup_call_failure_is_fatal Sample.args
                       (fresh [] [] Startup.broker_unreachable))
                    (PyException (str "Connection refused")) F)
    as (_ & Hexit & Hloop & _).
  split; [exact Hexit|]. split; [exact Hloop|]. split; [exact N|].
  apply (proj2 (proj2 (proj2 (startup_call_failure_is_fatal Sample.args
                                (fresh [] [] []))))
               Sample.refused L129 N).
Defined.

(** C7, as stated, fails: a record is on the queue when the sleep is
    interrupted; the process exits with status 0, no sink call has
    failed, and the record is not in the table. *)
Lemma interrupt_drops_queued_record :
  ~ final_flush_on_interrupt Sample.args
      (run Sample.args Shutdown.record_then_interrupt
           (boot Sample.args (fresh [] [] Shutdown.interrupt_in_sleep))).
Proof.
  intros H.
  assert (H1 : fst (run Sample.args Shutdown.record_then_interrupt
                        (boot Sample.args
                              (fresh [] [] Shutdown.interrupt_in_sleep)))
               = Exited 0) by (vm_compute; reflexivity).
  assert (H2 : filter is_raised
                 (trace (snd (run Sample.args Shutdown.record_then_interrupt
                                  (boot Sample.args
                                        (fresh [] []
                                               Shutdown.interrupt_in_sleep)))))
               = [Raised KeyboardInterrupt]) by (vm_compute; reflexivity).
  destruct (H H1 H2 Sample.hello_record) as [Hin _].
  - vm_compute. auto.
  - vm_compute in Hin. exact Hin.
Qed.

(** The same run, spelled out. *)
Example record_then_interrupt_run :
  let s := run Sample.args Shutdown.record_then_interrupt
               (boot Sample.args (fresh [] [] Shutdown.interrupt_in_sleep)) in
  fst s = Exited 0
  /\ message_queue (snd s) = [Sample.hello_record]
  /\ db_rows (snd s) = [] /\ json_file (snd s) = []
  /\ sink_calls (trace (snd s)) = []
  /\ loop_running (snd s) = false.
Proof. vm_compute. auto 6. Qed.

(** C7, amended.  When an interrupt ends the process, between two
    statements of the main loop or inside one of them, the process
    logs, stops the network loop, and, if none of the closing calls
    raises, disconnects the client, closes the cursor and the
    connection, logs and exits with status 0.  With the loop thread
    stopped, [disconnect] runs [on_disconnect] itself, in the main
    thread and with reason code 0, when the client holds a connection:
    one more warning is logged between the two lines of the shutdown,
    and no [reconnect] is called.  No sink function is called and no
    sink I/O is done on the way out: the queue, the committed rows and
    the file are as the interrupted statement found them, so there is
    no final drain, no flush and no rollback.  Once exited, no callback
    runs. *)
Theorem interrupt_shutdown (args : Args) (l : pc) (w : world) (s' : sys) :
  exited l = false ->
  s' = step args Interrupt (l, w)
  \/ (s' = main_step args (l, w) /\ exited (fst s') = true) ->
  exists c w' pre post,
    s' = (Exited c, w')
    /\ trace w'
       = trace w ++ pre
         ++ [Log INFO (str "Shutting down..."); LoopStop] ++ post
    /\ In (Raised KeyboardInterrupt) pre
    /\ filter is_sink_io post = [] /\ sink_calls post = []
    /\ filter is_reconnect post = []
    /\ message_queue w' = message_queue w
    /\ db_rows w' = db_rows w
    /\ json_file w' = json_file w
    /\ (filter is_raised post = [] ->
        c = 0%Z /\ loop_running w' = false
        /\ post = [Disconnect]
                  ++ (if connected w
                      then [Log WARNING (str "Disconnected from MQTT broker")]
                      else [])
                  ++ [CursorClose; ConnClose;
                      Log INFO (str "Shutdown complete.")])
    /\ forall schedule, run args schedule (Exited c, w') = (Exited c, w').
Proof.
  intros Hx Hs'.
  assert (exists w1 pre,
             s' = leave_try KeyboardInterrupt w1
             /\ trace w1 = trace w ++ pre
             /\ In (Raised KeyboardInterrupt) pre
             /\ message_queue w1 = message_queue w
             /\ db_rows w1 = db_rows w
             /\ json_file w1 = json_file w
             /\ connected w1 = connected w) as (w1 & pre & H).
  { destruct Hs' as [-> | [-> Hexit]].
    - exists (record (Raised KeyboardInterrupt) w), [Raised KeyboardInterrupt].
      cbn [step interrupt]. destruct l; try discriminate; cbn; auto 8.
    - apply Lifecycle.raise_leaves_data; assumption. }
  destruct H as (Hstep & Htr1 & Hin & Hq1 & Hr1 & Hf1 & Hc1).
  destruct (Lifecycle.leave_try_interrupt w1)
    as (c & w' & post & Hleave & Htr & Hio & Hcalls & Hq & Hr & _ & Hf
        & Hrec & Hok).
  exists c, w', pre, post.
  rewrite Hstep, Hleave, Htr, Htr1, <- app_assoc, Hq, Hq1, Hr, Hr1, Hf, Hf1.
  rewrite <- Hc1.
  repeat (split; [solve [auto]|]).
  split.
  - intros Hp. destruct (Hok Hp) as (H0 & Hl & _ & Hpost). auto.
  - intros schedule. apply Lifecycle.run_exited.
Qed.

(** SIGINT arrives while the drain loop holds one record and another
    is on the queue. *)
Lemma interrupt_shutdown_witness :
  let w := World [Sample.binary_record] [] [] [] true true [] [] in
  let l := L130 [Sample.hello_record] in
  exited l = false
  /\ exists c w' pre post,
       step Sample.args Interrupt (l, w) = (Exited c, w')
       /\ trace w'
          = trace w ++ pre
            ++ [Log INFO (str "Shutting down..."); LoopStop] ++ post
       /\ In (Raised KeyboardInterrupt) pre
       /\ filter is_sink_io post = [] /\ sink_calls post = []
       /\ filter is_reconnect post = []
       /\ message_queue w' = message_queue w
       /\ db_rows w' = db_rows w
       /\ json_file w' = json_file w
       /\ (filter is_raised post = [] ->
           c = 0%Z /\ loop_running w' = false
           /\ post = [Disconnect]
                     ++ (if connected w
                         then [Log WARNING
                                   (str "Disconnected from MQTT broker")]
                         else [])
                     ++ [CursorClose; ConnClose;
                         Log INFO (str "Shutdown complete.")])
       /\ forall schedule,
            run Sample.args schedule (Exited c, w') = (Exited c, w').
Proof.
  split; [reflexivity|].
  apply (@interrupt_shutdown Sample.args (L130 [Sample.hello_record])
           (World [Sample.binary_record] [] [] [] true true [] [])
           (step Sample.args Interrupt
                 (L130 [Sample.hello_record],
                  World [Sample.binary_record] [] [] [] true true [] []))).
  - reflexivity.
  - left. reflexivity.
Defined.

(** The sleep of a tick is interrupted with a record on the queue: the
    same shutdown, from inside a statement. *)
Example interrupt_in_sleep_run :
  main_step Sample.args
            (L136, World [Sample.hello_record] [] [] [] true true
                         [Some KeyboardInterrupt] [])
  = (Exited 0,
     World [Sample.hello_record] [] [] [] false false []
           ([Sleep 1; Raised KeyboardInterrupt] ++ Shutdown.shutdown_calls)).
Proof. reflexivity. Qed.

(* ================================================================== *)
(** * The structured-record file *)

Module JsonFacts.
Import Json.

Lemma printable_app a b :
  forallb printable (a ++ b) = forallb printable a && forallb printable b.
Proof. apply forallb_app. Qed.

Lemma hex_digit_printable d : d < 16 -> printable (hex_digit d) = true.
Proof.
  intros Hd. unfold hex_digit, printable.
  destruct (N.ltb_spec d 10); apply andb_true_intro; split;
    apply N.leb_le; lia.
Qed.

Lemma escape_u_printable n : forallb printable (escape_u n) = true.
Proof.
  unfold escape_u. rewrite printable_app. cbn [forallb].
  rewrite !hex_digit_printable by (apply N.mod_lt; discriminate).
  reflexivity.
Qed.

Lemma escape_char_printable c : forallb printable (escape_char c) = true.
Proof.
  unfold escape_char.
  repeat match goal with
         | |- context [if ?b then _ else _] =>
           let E := fresh "E" in destruct b eqn:E; [try reflexivity|]
         end.
  - cbn. unfold printable. rewrite E6. reflexivity.
  - apply escape_u_printable.
  - rewrite printable_app, !escape_u_printable. reflexivity.
Qed.

Lemma encode_str_printable s : forallb printable (encode_str s) = true.
Proof.
  unfold encode_str. rewrite !printable_app.
  assert (H : forallb printable (flat_map escape_char s) = true).
  { induction s as [|c s IH]; [reflexivity|].
    cbn [flat_map]. rewrite printable_app, escape_char_printable, IH.
    reflexivity. }
  rewrite H. reflexivity.
Qed.

Lemma uint_printable d :
  forallb printable (str (NilEmpty.string_of_uint d)) = true.
Proof. induction d; cbn; auto. Qed.

Lemma str_of_int_printable z : forallb printable (str_of_int z) = true.
Proof.
  unfold str_of_int, NilZero.string_of_int, NilZero.string_of_uint.
  destruct (Z.to_int z) as [d|d]; destruct d; try reflexivity;
    try apply uint_printable;
    match goal with
    | |- forallb printable (str (String _ (NilEmpty.string_of_uint ?u))) = _ =>
      change (true && forallb printable (str (NilEmpty.string_of_uint u))
              = true);
      apply uint_printable
    end.
Qed.

Lemma encode_printable v : forallb printable (encode v) = true.
Proof.
  destruct v as [s|z|[|]]; cbn [encode];
    [apply encode_str_printable | apply str_of_int_printable
    | reflexivity | reflexivity].
Qed.

Lemma join_printable sep l :
  forallb printable sep = true ->
  forallb (forallb printable) l = true ->
  forallb printable (join sep l) = true.
Proof.
  intros Hsep. induction l as [|x l IH]; intros H; [reflexivity|].
  cbn [forallb] in H. apply andb_prop in H. destruct H as [Hx H].
  destruct l as [|y l]; [exact Hx|].
  change (join sep (x :: y :: l)) with (x ++ sep ++ join sep (y :: l)).
  rewrite !printable_app, Hx, Hsep, (IH H). reflexivity.
Qed.

(** [json.dumps] writes printable ASCII only. *)
Lemma dumps_printable d : forallb printable (dumps d) = true.
Proof.
  unfold dumps. rewrite !printable_app.
  rewrite join_printable; [reflexivity | reflexivity |].
  induction d as [|[k v] d IH]; [reflexivity|].
  cbn [map forallb]. rewrite IH, andb_true_r.
  unfold encode_item. cbn [fst snd].
  rewrite !printable_app, encode_str_printable, encode_printable.
  reflexivity.
Qed.

Lemma dumps_one_line d : ~ In 10 (dumps d).
Proof.
  intros H. pose proof (dumps_printable d) as P.
  rewrite forallb_forall in P. specialize (P 10 H). discriminate P.
Qed.

End JsonFacts.

(** C9.  [save_to_json] leaves the file as it is or appends to it: the
    old contents are never rewritten.  When neither [open] nor [write]
    fails it opens [args.json] for appending, writes once and closes,
    and the file gains exactly the text [json.dumps(message)] followed
    by one newline.  That text has no newline in it, so one line is
    added; it is one JSON object with the keys topic, payload,
    datetime, qos, retain in this order, each followed by the value of
    the record. *)
Theorem save_to_json_appends_one_line (args : Args) (m : message) (w : world) :
  let line := Json.dumps (message_dict m) in
  (json_file (snd (save_to_json args m w)) = json_file w
   \/ json_file (snd (save_to_json args m w))
      = json_file w ++ line ++ newline)
  /\ (forallb no_fault (firstn 2 (faults w)) = true ->
      trace (snd (save_to_json args m w))
      = trace w ++ [Call_save_to_json m; OpenAppend (json args);
                    FileWrite (line ++ newline); FileClose]
      /\ json_file (snd (save_to_json args m w))
         = json_file w ++ line ++ newline)
  /\ ~ In 10 line
  /\ line
     = str "{"
       ++ Json.encode_str (str "topic") ++ str ": "
       ++ Json.encode_str (topic m) ++ str ", "
       ++ Json.encode_str (str "payload") ++ str ": "
       ++ Json.encode_str (payload m) ++ str ", "
       ++ Json.encode_str (str "datetime") ++ str ": "
       ++ Json.encode_str (datetime m) ++ str ", "
       ++ Json.encode_str (str "qos") ++ str ": "
       ++ str_of_int (qos m) ++ str ", "
       ++ Json.encode_str (str "retain") ++ str ": "
       ++ (if retain m then str "true" else str "false")
       ++ str "}"
  /\ map fst (message_dict m)
     = map str ["topic"; "payload"; "datetime"; "qos"; "retain"]%string.
Proof.
  cbv zeta. split; [|split; [|split; [|split]]].
  - destruct (Statements.save_to_json_data args m w) as (_ & _ & H & _).
    exact H.
  - destruct w as [q rows pend file lr cn fs tr].
    unfold save_to_json, with_open_append, file_write. unfold_M.
    cbn [faults firstn].
    destruct fs as [|[e1|] [|[e2|] fs]]; cbn; try discriminate;
      intros _; rewrite <- ?app_assoc; auto.
  - apply JsonFacts.dumps_one_line.
  - unfold Json.dumps, message_dict. cbn [map Json.join].
    unfold Json.encode_item. cbn [fst snd Json.encode].
    rewrite <- !app_assoc. destruct (retain m); reflexivity.
  - reflexivity.
Qed.

(** The sample record on an empty file. *)
Lemma save_to_json_appends_one_line_witness :
  forallb no_fault (firstn 2 (faults (fresh [] [] []))) = true
  /\ json_file (snd (save_to_json Sample.args Sample.hello_record
                                  (fresh [] [] [])))
     = [] ++ Json.dumps (message_dict Sample.hello_record) ++ newline.
Proof.
  split; [reflexivity|].
  apply (proj1 (proj2 (save_to_json_appends_one_line
                         Sample.args Sample.hello_record (fresh [] [] [])))).
  reflexivity.
Defined.

(** The line of the sample record, character by character: the keys
    and the text values between double quotes (code point 34). *)
Example hello_line :
  Json.dumps (message_dict Sample.hello_record)
  = str "{" ++ [34] ++ str "topic" ++ [34] ++ str ": "
    ++ [34] ++ str "a/b" ++ [34] ++ str ", "
    ++ [34] ++ str "payload" ++ [34] ++ str ": "
    ++ [34] ++ str "hello" ++ [34] ++ str ", "
    ++ [34] ++ str "datetime" ++ [34] ++ str ": "
    ++ [34] ++ Sample.now ++ [34] ++ str ", "
    ++ [34] ++ str "qos" ++ [34] ++ str ": 1, "
    ++ [34] ++ str "retain" ++ [34] ++ str ": false}".
Proof. vm_compute. reflexivity. Qed.

(** The two deliveries of the sample run, then the main thread alone
    for a whole tick: both records are in the table and in the file,
    in the order they came, the second with its base64 payload.  The
    first [Commit] is that of [setup_sqlite]. *)
Example sample_run_persisted :
  let s := run Sample.args (Scenario.drain_end ++ repeat Main 5)
               (boot Sample.args (fresh [] [] [])) in
  fst s = L136
  /\ db_rows (snd s) = [Sample.hello_record; Sample.binary_record]
  /\ json_file (snd s)
     = json_line Sample.args Sample.hello_record
       ++ json_line Sample.args Sample.binary_record
  /\ filter is_sink_io (trace (snd s))
     = [Commit;
        ExecuteMany [Sample.hello_record; Sample.binary_record]; Commit;
        OpenAppend (str "logs.json");
        FileWrite (json_line Sample.args Sample.hello_record); FileClose;
        OpenAppend (str "logs.json");
        FileWrite (json_line Sample.args Sample.binary_record); FileClose]
  /\ filter (fun e => match e with Log WARNING _ => true | _ => false end)
            (trace (snd s))
     = [Log WARNING (str "Non-UTF-8 payload detected on topic: x. Stored as base64.")].
Proof. vm_compute. auto 6. Qed.

(* ================================================================== *)
(** * The configuration *)

Module ConfigFacts.
Import Config.

(** [setup_mqtt] without a usable password sets no credentials. *)
Lemma setup_mqtt_no_credentials args w :
  truthy (password args) = false ->
  filter is_credentials (trace (snd (setup_mqtt args w)))
  = filter is_credentials (trace w).
Proof.
  intros H. destruct w as [q rows pend file lr cn fs tr]. unfold setup_mqtt.
  rewrite H, andb_false_r. unfold_M.
  faults_cases; rewrite ?filter_app; cbn; rewrite ?app_nil_r; reflexivity.
Qed.

Lemma app_cons_neq (A : Type) (p s1 s2 : list A) :
  s1 <> s2 -> p ++ s1 <> p ++ s2.
Proof. intros H E. apply app_inv_head in E. auto. Qed.

End ConfigFacts.

(** X1.  The [--prefix] option changes nothing the program reads:
    whatever follows the flag, [get_args] returns or fails alike, with
    the same error, and every attribute but [prefix] is the same; the
    default file names take their prefix from [LOG_PREFIX] only. *)
Theorem prefix_option_is_inert
        (int_of_str : pystr -> option Z) (cli : Config.CommandLine)
        (env : Config.Environ) (current_time : pystr) (p : option pystr) :
  let with_flag :=
    Config.get_args int_of_str (Config.with_prefix p cli) env current_time in
  let without := Config.get_args int_of_str cli env current_time in
  Config.read_by_program with_flag = Config.read_by_program without
  /\ (with_flag = Config.ValueError <-> without = Config.ValueError)
  /\ (with_flag = Config.UsageError <-> without = Config.UsageError).
Proof.
  unfold Config.get_args, Config.with_prefix. cbn.
  destruct (env (str "MQTT_PORT")) as [v|];
    [destruct (int_of_str v)|];
    (destruct (Config.cli_port cli) as [c|];
     [destruct (int_of_str c)|]);
    (split; [reflexivity|]);
    split; split; intros H; first [reflexivity | discriminate H].
Qed.

(** X2.  A value of [MQTT_PORT] that [int] refuses ends [get_args] with
    the [ValueError] of line 24, whatever the command line says, even
    with a good [--port]: the default is computed before the command
    line is read.  With [MQTT_PORT] absent or good, a [--port] that
    [int] refuses is a usage error. *)
Theorem bad_port_is_fatal
        (int_of_str : pystr -> option Z) (cli : Config.CommandLine)
        (env : Config.Environ) (current_time : pystr) :
  (forall v,
      env (str "MQTT_PORT") = Some v -> int_of_str v = None ->
      Config.get_args int_of_str cli env current_time = Config.ValueError)
  /\ (forall c,
         Config.cli_port cli = Some c -> int_of_str c = None ->
         (env (str "MQTT_PORT") = None
          \/ exists v n, env (str "MQTT_PORT") = Some v
                         /\ int_of_str v = Some n) ->
         Config.get_args int_of_str cli env current_time
         = Config.UsageError).
Proof.
  unfold Config.get_args. split.
  - intros v -> ->. reflexivity.
  - intros c -> Hc [-> | (v & n & -> & ->)]; rewrite Hc; reflexivity.
Qed.

Lemma bad_port_is_fatal_witness :
  let env := Config.environ [("MQTT_PORT", "mqtt")]%string in
  let cli := {| Config.cli_host := None;
                Config.cli_port := Some (str "1884");
                Config.cli_username := None; Config.cli_password := None;
                Config.cli_prefix := None; Config.cli_db := None;
                Config.cli_json := None |} in
  let bad := {| Config.cli_host := None;
                Config.cli_port := Some (str "18x4");
                Config.cli_username := None; Config.cli_password := None;
                Config.cli_prefix := None; Config.cli_db := None;
                Config.cli_json := None |} in
  (env (str "MQTT_PORT") = Some (str "mqtt")
   /\ Config.decimal (str "mqtt") = None
   /\ Config.decimal (str "1884") = Some 1884%Z
   /\ Config.get_args Config.decimal cli env Sample.now = Config.ValueError)
  /\ (Config.decimal (str "18x4") = None
      /\ Config.get_args Config.decimal bad (Config.environ []) Sample.now
         = Config.UsageError).
Proof.
  split.
  - repeat (split; [reflexivity|]).
    apply (proj1 (bad_port_is_fatal Config.decimal _ _ Sample.now)
                 (str "mqtt")); reflexivity.
  - split; [reflexivity|].
    apply (proj2 (bad_port_is_fatal Config.decimal _ _ Sample.now)
                 (str "18x4")); [reflexivity | reflexivity | left; reflexivity].
Defined.

(** X3.  With neither [--db] nor [--json] and neither [SQLITE_DB] nor
    [JSON_FILE], the two file names are one stem, the prefix of
    [LOG_PREFIX] (or ["logs_"]) followed by the time, with [".db"] and
    [".json"]: the two sinks are different files. *)
Theorem default_file_names
        (int_of_str : pystr -> option Z) (cli : Config.CommandLine)
        (env : Config.Environ) (current_time : pystr) (ns : Config.Namespace) :
  Config.cli_db cli = None -> Config.cli_json cli = None ->
  env (str "SQLITE_DB") = None -> env (str "JSON_FILE") = None ->
  Config.get_args int_of_str cli env current_time = Config.Parsed ns ->
  let stem := Config.getenv env "LOG_PREFIX" (str "logs_") ++ current_time in
  db (Config.parsed ns) = stem ++ str ".db"
  /\ json (Config.parsed ns) = stem ++ str ".json"
  /\ db (Config.parsed ns) <> json (Config.parsed ns).
Proof.
  intros Hdb Hjson Hedb Hejson. unfold Config.get_args.
  rewrite Hdb, Hjson. unfold Config.getenv. rewrite Hedb, Hejson.
  destruct (match env (str "MQTT_PORT") with
            | Some v => int_of_str v | None => Some 1883%Z end);
    [|discriminate].
  destruct (match Config.cli_port cli with
            | Some v => int_of_str v | None => Some z end);
    [|discriminate].
  intros E. inversion E. subst ns. cbn.
  rewrite <- !app_assoc. repeat split.
  apply ConfigFacts.app_cons_neq, ConfigFacts.app_cons_neq. discriminate.
Qed.

Lemma default_file_names_witness :
  exists ns,
    Config.get_args Config.decimal Config.no_flags
                    (Config.environ [("LOG_PREFIX", "plant_")]%string)
                    (str "2024-05-01_12-00-00")
    = Config.Parsed ns
    /\ db (Config.parsed ns) = str "plant_2024-05-01_12-00-00.db"
    /\ json (Config.parsed ns) = str "plant_2024-05-01_12-00-00.json"
    /\ db (Config.parsed ns) <> json (Config.parsed ns).
Proof.
  eexists. split; [reflexivity|].
  pose proof (@default_file_names Config.decimal Config.no_flags
                (Config.environ [("LOG_PREFIX", "plant_")]%string)
                (str "2024-05-01_12-00-00") _
                eq_refl eq_refl eq_refl eq_refl eq_refl) as (H1 & H2 & H3).
  split; [exact H1|]. split; [exact H2 | exact H3].
Defined.

(** X4.  When no password is given, neither after [--password] nor in
    [MQTT_PASSWORD] (absent or empty), the client the program sets up
    from the parsed arguments gets no credentials, whatever the
    username. *)
Theorem no_password_no_credentials
        (int_of_str : pystr -> option Z) (cli : Config.CommandLine)
        (env : Config.Environ) (current_time : pystr) (ns : Config.Namespace)
        (w : world) :
  Config.cli_password cli = None ->
  truthy (env (str "MQTT_PASSWORD")) = false ->
  Config.get_args int_of_str cli env current_time = Config.Parsed ns ->
  filter is_credentials (trace (snd (setup_mqtt (Config.parsed ns) w)))
  = filter is_credentials (trace w).
Proof.
  intros Hcli Henv Hargs. apply ConfigFacts.setup_mqtt_no_credentials.
  unfold Config.get_args in Hargs. rewrite Hcli in Hargs.
  destruct (match env (str "MQTT_PORT") with
            | Some v => int_of_str v | None => Some 1883%Z end);
    [|discriminate].
  destruct (match Config.cli_port cli with
            | Some v => int_of_str v | None => Some z end);
    [|discriminate].
  inversion Hargs. subst ns. cbn. exact Henv.
Qed.

Lemma no_password_no_credentials_witness :
  let env := Config.environ [("MQTT_USERNAME", "alice");
                             ("MQTT_PASSWORD", "")]%string in
  exists ns,
    Config.get_args Config.decimal Config.no_flags env Sample.now
    = Config.Parsed ns
    /\ username (Config.parsed ns) = Some (str "alice")
    /\ filter is_credentials
         (trace (snd (setup_mqtt (Config.parsed ns) (fresh [] [] []))))
       = [].
Proof.
  eexists. split; [reflexivity|]. split; [reflexivity|].
  apply (@no_password_no_credentials Config.decimal Config.no_flags
           (Config.environ [("MQTT_USERNAME", "alice");
                            ("MQTT_PASSWORD", "")]%string)
           Sample.now _ (fresh [] [] [])); reflexivity.
Defined.

(* ================================================================== *)
(** * More on the callbacks and the codec *)

(** X5.  A callback of the network thread never touches a sink: the
    table, the open transaction and the file are as before, no sink
    function is called and no sink I/O is done, and the main thread
    stays where it is.  [on_connect] and [on_disconnect] put nothing on
    the queue; [on_message] is the only producer. *)
Theorem callbacks_leave_sinks_alone (e : net_event) (l : pc) (w : world) :
  fst (net_step e (l, w)) = l
  /\ db_rows (snd (net_step e (l, w))) = db_rows w
  /\ db_pending (snd (net_step e (l, w))) = db_pending w
  /\ json_file (snd (net_step e (l, w))) = json_file w
  /\ sink_calls (trace (snd (net_step e (l, w)))) = sink_calls (trace w)
  /\ filter is_sink_io (trace (snd (net_step e (l, w))))
     = filter is_sink_io (trace w)
  /\ match e with
     | Deliver _ _ => True
     | _ => message_queue (snd (net_step e (l, w))) = message_queue w
     end.
Proof.
  destruct (Threads.callback_effect e w)
    as (ms & ext & Hq & Htr & Hp & Hd & Hc & Hio & Hr & Hpe & Hf & _ & _).
  assert (Hms : match e with Deliver _ _ => True | _ => ms = [] end).
  { destruct e as [now msg|rc|rc]; [exact I| |]; subst ms;
      cbn [callback] in Htr.
    - unfold on_connect in Htr. destruct (rc_value rc =? 0)%Z;
        unfold_M; cbn in Htr; rewrite <- ?app_assoc in Htr;
        apply app_inv_head in Htr; subst ext; reflexivity.
    - unfold on_disconnect in Htr. destruct (rc_value rc =? 0)%Z;
        unfold_M; cbn in Htr; rewrite <- ?app_assoc in Htr;
        apply app_inv_head in Htr; subst ext; reflexivity. }
  assert (Hsame : fst (l, w) = l
                  /\ db_rows (snd (l, w)) = db_rows w
                  /\ db_pending (snd (l, w)) = db_pending w
                  /\ json_file (snd (l, w)) = json_file w
                  /\ sink_calls (trace (snd (l, w))) = sink_calls (trace w)
                  /\ filter is_sink_io (trace (snd (l, w)))
                     = filter is_sink_io (trace w)
                  /\ match e with
                     | Deliver _ _ => True
                     | _ => message_queue (snd (l, w)) = message_queue w
                     end)
    by (cbn; repeat split; auto; destruct e; auto).
  assert (Hcb : fst (l, snd (callback e w)) = l
                /\ db_rows (snd (l, snd (callback e w))) = db_rows w
                /\ db_pending (snd (l, snd (callback e w))) = db_pending w
                /\ json_file (snd (l, snd (callback e w))) = json_file w
                /\ sink_calls (trace (snd (l, snd (callback e w))))
                   = sink_calls (trace w)
                /\ filter is_sink_io (trace (snd (l, snd (callback e w))))
                   = filter is_sink_io (trace w)
                /\ match e with
                   | Deliver _ _ => True
                   | _ => message_queue (snd (l, snd (callback e w)))
                          = message_queue w
                   end).
  { cbn [fst snd].
    rewrite Htr, Invariants.sink_calls_app, filter_app, Hc, Hio, !app_nil_r.
    repeat split; auto.
    destruct e; auto; rewrite Hq, Hms, app_nil_r; reflexivity. }
  unfold net_step.
  destruct l; try exact Hsame; destruct (loop_running w);
    first [exact Hcb | exact Hsame].
Qed.

(** X6.  The stored record does not tell a binary payload from a text:
    for every payload that is not UTF-8, the message whose payload is
    the base64 text of those bytes is another message, and
    [on_message] puts the same record for both. *)
Theorem fallback_is_ambiguous (now : pystr) (msg : MQTTMessage) (w : world) :
  Utf8.decode (msg_payload msg) = None ->
  let twin := with_payload (Base64.b64encode (msg_payload msg)) msg in
  msg_payload twin <> msg_payload msg
  /\ message_queue (snd (on_message now twin w))
     = message_queue (snd (on_message now msg w)).
Proof.
  intros Hbin.
  destruct (CodecFacts.fallback_roundtrip (msg_payload msg)) as [Henc _].
  cbv zeta. split.
  - cbn. intros E. rewrite E, Hbin in Henc. discriminate Henc.
  - unfold on_message, stored_payload. cbn [with_payload msg_payload
      msg_topic msg_qos msg_retain]. rewrite Hbin, Henc. reflexivity.
Qed.

Lemma fallback_is_ambiguous_witness :
  Utf8.decode (msg_payload Sample.binary) = None
  /\ msg_payload (with_payload (Base64.b64encode (msg_payload Sample.binary))
                               Sample.binary)
     = [x2f; x2f; x34; x41]
  /\ message_queue
       (snd (on_message Sample.now
               (with_payload (Base64.b64encode (msg_payload Sample.binary))
                             Sample.binary) (fresh [] [] [])))
     = message_queue (snd (on_message Sample.now Sample.binary
                                      (fresh [] [] []))).
Proof.
  split; [reflexivity|]. split; [reflexivity|].
  apply (proj2 (fallback_is_ambiguous Sample.now Sample.binary
                                      (fresh [] [] []) eq_refl)).
Defined.

Module Base64Length.
Import Base64.

Lemma b64encode_length bs :
  List.length (b64encode bs) = (4 * ((List.length bs + 2) / 3))%nat.
Proof.
  induction bs as [|a|a b|a b c l IH] using CodecFacts.list_ind3;
    try reflexivity.
  cbn [b64encode List.length]. rewrite IH.
  replace (S (S (S (List.length l))) + 2)%nat
    with (1 * 3 + (List.length l + 2))%nat by lia.
  rewrite Nat.div_add_l by discriminate. lia.
Qed.

End Base64Length.

(** X7.  A payload of [n] bytes that is not UTF-8 is stored as a text
    of [4 * ceil(n / 3)] characters, all of them ASCII. *)
Theorem fallback_payload_size (now : pystr) (msg : MQTTMessage) (w : world) :
  Utf8.decode (msg_payload msg) = None ->
  exists text,
    message_queue (snd (on_message now msg w))
    = message_queue w
      ++ [Message (msg_topic msg) text now (msg_qos msg) (msg_retain msg)]
    /\ List.length text
       = (4 * ((List.length (msg_payload msg) + 2) / 3))%nat
    /\ Forall (fun c => c < 128) text.
Proof.
  intros Hbin.
  destruct (CodecFacts.fallback_roundtrip (msg_payload msg)) as [Henc _].
  exists (map Byte.to_N (Base64.b64encode (msg_payload msg))).
  split; [|split].
  - unfold on_message, stored_payload. rewrite Hbin, Henc. reflexivity.
  - rewrite length_map. apply Base64Length.b64encode_length.
  - apply Forall_map. apply CodecFacts.b64encode_ascii.
Qed.

Lemma fallback_payload_size_witness :
  Utf8.decode (msg_payload Sample.binary) = None
  /\ exists text,
       message_queue (snd (on_message Sample.now Sample.binary
                                      (fresh [] [] [])))
       = [] ++ [Message (msg_topic Sample.binary) text Sample.now
                        (msg_qos Sample.binary) (msg_retain Sample.binary)]
       /\ List.length text = (4 * ((3 + 2) / 3))%nat
       /\ Forall (fun c => c < 128) text.
Proof.
  split; [reflexivity|].
  apply (fallback_payload_size Sample.now Sample.binary (fresh [] [] [])
                               eq_refl).
Defined.

(* ================================================================== *)
(** * The sinks under faults *)

Module Subseq.

Lemma subseq_nil_l (A : Type) (l : list A) : subseq [] l.
Proof. induction l; constructor; assumption. Qed.

Lemma subseq_refl (A : Type) (l : list A) : subseq l l.
Proof. induction l; constructor; assumption. Qed.

Lemma subseq_trans (A : Type) (l1 l2 l3 : list A) :
  subseq l1 l2 -> subseq l2 l3 -> subseq l1 l3.
Proof.
  intros H12 H23. revert l1 H12.
  induction H23 as [|x l2 l3 H23 IH|x l2 l3 H23 IH]; intros l1 H12.
  - exact H12.
  - apply subseq_skip, IH, H12.
  - inversion H12 as [|y k1 k2 H|y k1 k2 H]; subst.
    + apply subseq_skip, IH, H.
    + apply subseq_keep, IH, H.
Qed.

Lemma subseq_app (A : Type) (a b c d : list A) :
  subseq a b -> subseq c d -> subseq (a ++ c) (b ++ d).
Proof.
  intros Hab Hcd. induction Hab; cbn; try constructor; assumption.
Qed.

Lemma subseq_app_l (A : Type) (a b : list A) : subseq a (a ++ b).
Proof.
  rewrite <- (app_nil_r a) at 1.
  apply subseq_app; [apply subseq_refl | apply subseq_nil_l].
Qed.

(** The first elements of a list. *)
Lemma subseq_firstn (A : Type) (k : nat) (l : list A) :
  subseq (firstn k l) l.
Proof.
  revert k. induction l as [|x l IH]; intros [|k]; cbn.
  - constructor.
  - constructor.
  - apply subseq_nil_l.
  - apply subseq_keep, IH.
Qed.

(** Leaving out what was still to do. *)
Lemma subseq_forget (A : Type) (a b l : list A) :
  subseq (a ++ b) l -> subseq a l.
Proof. apply subseq_trans, subseq_app_l. Qed.

(** Leaving out the next element to do. *)
Lemma subseq_forget_next (A : Type) (a r l : list A) (m : A) :
  subseq (a ++ m :: r) l -> subseq (a ++ r) l.
Proof.
  apply subseq_trans, subseq_app; [apply subseq_refl|].
  apply subseq_skip, subseq_refl.
Qed.

End Subseq.

Module SinksUnderFaults.
Import Statements Threads Invariants Persister Subseq.

(** Whatever fails, the insert adds the first rows of the batch after
    what the table held: none, those before the row that failed, or
    all of them. *)
Lemma save_to_sqlite_batch_rows b w :
  exists k,
    db_rows (snd (save_to_sqlite_batch b w))
    ++ db_pending (snd (save_to_sqlite_batch b w))
    = (db_rows w ++ db_pending w) ++ firstn k b.
Proof.
  destruct (Inserts.save_to_sqlite_batch_cases b w)
    as (fs' & rows' & pend' & r & ext & E & Hcase & _).
  rewrite E. cbn [snd db_rows db_pending].
  destruct Hcase as [(_ & _ & -> & ->)
                    | [(k & x & _ & _ & -> & -> & _)
                      | (x & _ & -> & -> & _)]].
  - exists (List.length b). rewrite firstn_all, app_nil_r, app_assoc.
    reflexivity.
  - exists k. apply app_assoc.
  - exists (List.length b). rewrite firstn_all. apply app_assoc.
Qed.

(** The start leaves the rows of the table as they were. *)
Lemma boot_rows args rows file fs :
  db_rows (snd (boot args (fresh rows file fs)))
  ++ db_pending (snd (boot args (fresh rows file fs))) = rows.
Proof.
  unfold boot, startup, setup_sqlite, setup_mqtt, fresh.
  destruct (truthy (username args) && truthy (password args));
    unfold_M; faults_cases; rewrite ?app_nil_r; reflexivity.
Qed.

(** The way out of the [try] forgets what was still to do. *)
Lemma exit_sinks_inv args rows0 file0 l w e :
  sinks_inv args rows0 file0 (l, w) ->
  sinks_inv args rows0 file0 (leave_try e w).
Proof.
  intros (kr & kj & Hr & Hdb & Hj & Hfile). cbn [fst snd] in *.
  destruct (leave_try_exits e w)
    as (c & w2 & -> & _ & Hrows & Hpend & Hf & ext & Htr & _ & Hd & _).
  exists kr, kj. cbn [fst snd sql_todo json_todo].
  rewrite Htr, drained_app, Hd, !app_nil_r, Hrows, Hpend, Hf.
  repeat split; auto; eapply subseq_forget; eassumption.
Qed.

Lemma continue_sinks_inv args rows0 file0 next r :
  sinks_inv args rows0 file0 (next, snd r) ->
  sinks_inv args rows0 file0 (continue next r).
Proof.
  destruct r as [[[]|e] w1]; cbn [continue snd]; [auto|].
  apply exit_sinks_inv.
Qed.

Lemma main_step_sinks_inv args rows0 file0 s :
  sinks_inv args rows0 file0 s -> sinks_inv args rows0 file0 (main_step args s).
Proof.
  destruct s as [l w]. intros I.
  destruct l as [|b|b|b|rest| |c]; cbn [main_step].
  - exact I.
  - destruct I as (kr & kj & Hr & Hdb & Hj & Hfile). cbn [fst snd] in *.
    cbn [sql_todo json_todo] in *. rewrite app_nil_r in Hr, Hj.
    destruct (message_queue w).
    + exists kr, kj. unfold record. cbn.
      rewrite drained_app, concat_app. cbn. rewrite app_nil_r.
      repeat split; auto; apply subseq_app; auto using subseq_refl.
    + exists kr, kj. cbn. rewrite !app_nil_r. auto.
  - destruct I as (kr & kj & Hr & Hdb & Hj & Hfile). cbn [fst snd] in *.
    destruct (message_queue w); exists kr, kj; [cbn; auto|].
    unfold record, set_queue. cbn in *.
    rewrite drained_app. cbn. rewrite !app_nil_r in *. auto.
  - destruct b as [|m b]; [exact I|].
    apply continue_sinks_inv.
    destruct I as (kr & kj & Hr & Hdb & Hj & Hfile). cbn [fst snd] in *.
    cbn [sql_todo json_todo] in *.
    pose proof (frame_trace (save_to_sqlite_batch_frame (m :: b) w)) as Hd.
    destruct (save_to_sqlite_batch_data (m :: b) w) as (Hf & _).
    destruct (save_to_sqlite_batch_rows (m :: b) w) as (k & Hrows).
    exists (kr ++ firstn k (m :: b)), kj. cbn [fst snd sql_todo json_todo].
    rewrite Hd, Hf, Hrows, Hdb, app_nil_r, app_assoc.
    repeat split; auto.
    eapply subseq_trans; [|exact Hr].
    apply subseq_app; [apply subseq_refl | apply subseq_firstn].
  - destruct rest as [|m rest]; [exact I|].
    apply continue_sinks_inv.
    destruct I as (kr & kj & Hr & Hdb & Hj & Hfile). cbn [fst snd] in *.
    cbn [sql_todo json_todo] in *.
    pose proof (frame_trace (save_to_json_frame args m w)) as Hd.
    destruct (save_to_json_data args m w) as (Hrows & Hpend & Hf & _).
    destruct Hf as [Hf | Hf].
    + exists kr, kj. cbn [fst snd sql_todo json_todo].
      rewrite Hd, Hf, Hrows, Hpend.
      repeat split; auto. eapply subseq_forget_next; eassumption.
    + exists kr, (kj ++ [m]). cbn [fst snd sql_todo json_todo].
      rewrite Hd, Hf, Hrows, Hpend, Hfile, flat_map_app, <- !app_assoc.
      cbn. rewrite !app_nil_r in *. auto.
  - apply continue_sinks_inv.
    destruct I as (kr & kj & Hr & Hdb & Hj & Hfile). cbn [fst snd] in *.
    pose proof (frame_trace (sleep_frame w)) as Hd.
    destruct (sleep_data w) as (Hrows & Hpend & Hf).
    exists kr, kj. cbn [fst snd sql_todo json_todo] in *.
    rewrite Hd, Hf, Hrows, Hpend. auto.
  - exact I.
Qed.

Lemma net_step_sinks_inv args rows0 file0 e s :
  sinks_inv args rows0 file0 s -> sinks_inv args rows0 file0 (net_step e s).
Proof.
  destruct s as [l w]. intros I. unfold net_step.
  destruct (callback_effect e w)
    as (ms & ext & _ & Htr & _ & Hd & _ & _ & Hrows & Hpend & Hfile & _ & _).
  assert (sinks_inv args rows0 file0 (l, snd (callback e w))).
  { destruct I as (kr & kj & I). exists kr, kj. cbn [fst snd] in *.
    rewrite Htr, drained_app, Hd, app_nil_r, Hrows, Hpend, Hfile. exact I. }
  destruct l; try exact I; destruct (loop_running w); auto.
Qed.

Lemma interrupt_sinks_inv args rows0 file0 s :
  sinks_inv args rows0 file0 s -> sinks_inv args rows0 file0 (interrupt s).
Proof.
  destruct s as [l w]. intros I. unfold interrupt.
  assert (sinks_inv args rows0 file0
            (leave_try KeyboardInterrupt (record (Raised KeyboardInterrupt) w))).
  { apply (@exit_sinks_inv args rows0 file0 l).
    destruct I as (kr & kj & I). exists kr, kj. unfold record. cbn in *.
    rewrite drained_app. cbn. rewrite app_nil_r. exact I. }
  destruct l; auto.
Qed.

Lemma run_sinks_inv args rows0 file0 schedule s :
  sinks_inv args rows0 file0 s ->
  sinks_inv args rows0 file0 (run args schedule s).
Proof.
  revert s. induction schedule as [|a sch IH]; intros s I; [exact I|].
  apply IH.
  destruct a;
    [apply main_step_sinks_inv | apply net_step_sinks_inv
     | apply interrupt_sinks_inv]; exact I.
Qed.

Lemma boot_sinks_inv args rows file fs :
  sinks_inv args rows file (boot args (fresh rows file fs)).
Proof.
  destruct (boot_state args rows file fs)
    as (_ & _ & Hd & _ & Hfile & Hrun & _).
  pose proof (boot_rows args rows file fs) as Hrows.
  exists [], [].
  destruct (boot args (fresh rows file fs)) as [l w]. cbn [fst snd] in *.
  rewrite Hd, Hrows, Hfile, !app_nil_r. cbn.
  assert (sql_todo l = [] /\ json_todo l = []) as (-> & ->).
  { destruct (exited l) eqn:Hx; [destruct l; try discriminate; auto|].
    destruct (Hrun eq_refl) as (-> & _). auto. }
  repeat split; constructor.
Qed.

End SinksUnderFaults.

Section SinksClaims.

Variable args : Args.
Variables (rows : list message) (file : pystr) (fs : list (option exn)).
Variable schedule : list action.

Let s := run args schedule (boot args (fresh rows file fs)).

(** X8.  Whatever fails, whatever the interleaving and wherever an
    interrupt falls, each sink holds what it held at the start followed
    by records put on the queue, each at most once and in the order of
    the [put]s: the table (committed rows, then the open transaction)
    and the file are only appended to, nothing is written twice,
    retried or reordered.  An insert that fails at one of its rows
    leaves the rows before it in the transaction; they are still
    records put, in order. *)
Theorem sinks_hold_subsequences :
  exists kr kj,
    subseq kr (pushed (trace (snd s)))
    /\ db_rows (snd s) ++ db_pending (snd s) = rows ++ kr
    /\ subseq kj (pushed (trace (snd s)))
    /\ json_file (snd s) = file ++ flat_map (json_line args) kj.
Proof.
  assert (I : sinks_inv args rows file s)
    by apply SinksUnderFaults.run_sinks_inv, SinksUnderFaults.boot_sinks_inv.
  assert (B : buffer_inv s)
    by apply Invariants.run_buffer_inv, Invariants.boot_buffer_inv.
  destruct (@Invariants.buffer_inv_pushed s B) as (hand & Hp & _).
  destruct I as (kr & kj & Hr & Hdb & Hj & Hfile).
  exists kr, kj. rewrite Hp.
  repeat split; auto;
    (eapply Subseq.subseq_trans; [|apply Subseq.subseq_app_l]);
    eapply Subseq.subseq_forget; eassumption.
Qed.

End SinksClaims.

(** With the insert failing, the table keeps nothing of the batch and
    the file both lines; with the file failing once, the table keeps
    both rows and the file the other line. *)
Example sinks_diverge :
  let w1 := snd (main_steps Sample.args 4
                   (L132 Scenario.batch, Scenario.insert_fails)) in
  let w2 := snd (main_steps Sample.args 4
                   (L132 Scenario.batch,
                    World [] [] [] [] true true
                          [None; None; None;
                           Some (PyException (str "No space left"))]
                          [])) in
  db_rows w1 = []
  /\ json_file w1 = flat_map (json_line Sample.args) Scenario.batch
  /\ db_rows w2 = Scenario.batch
  /\ json_file w2 = json_line Sample.args Sample.binary_record.
Proof. vm_compute. auto. Qed.

(** The second row of a batch fails: the first row stays in the open
    transaction, the failure is logged, and the commit of the next
    batch makes that row durable with the rows of that batch. *)
Example partial_insert_is_kept :
  let w := World [] [] [] [] true true
                 [None; Some (PyException (str "database or disk is full"))]
                 [] in
  let w1 := snd (save_to_sqlite_batch Scenario.batch w) in
  fst (save_to_sqlite_batch Scenario.batch w) = Ok tt
  /\ db_rows w1 = [] /\ db_pending w1 = [Sample.hello_record]
  /\ filter is_error_log (trace w1)
     = [Log ERROR (str "Error saving to SQLite: database or disk is full")]
  /\ db_rows (snd (save_to_sqlite_batch [Sample.binary_record] w1))
     = [Sample.hello_record; Sample.binary_record].
Proof. vm_compute. auto 6. Qed.

(* ================================================================== *)
(** * More on the main thread *)

(** X9.  [message_queue.get()] at line 131 never blocks: whenever the
    main thread is there the queue holds a record, so the statement
    takes the oldest one and goes back to the test of the loop. *)
Theorem get_never_blocks (args : Args) (rows : list message) (file : pystr)
        (fs : list (option exn)) (schedule : list action)
        (b : list message) :
  let s := run args schedule (boot args (fresh rows file fs)) in
  fst s = L131 b ->
  exists m q,
    message_queue (snd s) = m :: q
    /\ fst (main_step args s) = L130 (b ++ [m])
    /\ message_queue (snd (main_step args s)) = q.
Proof.
  cbv zeta. intros Hl.
  assert (I : buffer_inv (run args schedule (boot args (fresh rows file fs))))
    by apply Invariants.run_buffer_inv, Invariants.boot_buffer_inv.
  destruct (run args schedule (boot args (fresh rows file fs))) as [l w].
  cbn [fst snd] in *. subst l.
  destruct (@Invariants.buffer_inv_running (L131 b) w eq_refl I)
    as (_ & Ig & _).
  specialize (Ig b eq_refl).
  destruct (message_queue w) as [|m q] eqn:Hq; [destruct (Ig eq_refl)|].
  exists m, q. cbn [main_step]. rewrite Hq. auto.
Qed.

Lemma get_never_blocks_witness :
  let s := run Sample.args [Net (Deliver Sample.now Sample.hello); Main; Main]
               (boot Sample.args (fresh [] [] [])) in
  fst s = L131 []
  /\ exists m q,
       message_queue (snd s) = m :: q
       /\ fst (main_step Sample.args s) = L130 ([] ++ [m])
       /\ message_queue (snd (main_step Sample.args s)) = q.
Proof.
  split; [reflexivity|].
  apply (@get_never_blocks Sample.args [] [] []
           [Net (Deliver Sample.now Sample.hello); Main; Main] []).
  reflexivity.
Defined.

(** X10.  The start opens the database before it touches the broker:
    when [setup_sqlite] raises, no call on the MQTT client is made.
    When the start reaches the main loop, the client was created,
    given its credentials if any, connected once with keepalive 60 and
    its loop started, in this order.  When the start ends the process,
    the network loop is not running. *)
Theorem database_before_broker (args : Args) (w : world) :
  (forall e,
      fst (setup_sqlite args w) = Raise e ->
      filter is_mqtt_call (trace (snd (boot args w)))
      = filter is_mqtt_call (trace w))
  /\ (fst (boot args w) = L129 ->
      filter is_mqtt_call (trace (snd (boot args w)))
      = filter is_mqtt_call (trace w)
        ++ [ClientNew]
        ++ (if truthy (username args) && truthy (password args)
            then [UsernamePwSet (username args) (password args)] else [])
        ++ [Connect (host args) (port args) 60; LoopStart])
  /\ (exited (fst (boot args w)) = true ->
      loop_running (snd (boot args w)) = loop_running w).
Proof.
  destruct w as [q rows pend file lr cn fs tr].
  unfold boot, startup, setup_sqlite, setup_mqtt.
  destruct (truthy (username args) && truthy (password args));
    unfold_M; faults_cases; rewrite ?filter_app; cbn;
    rewrite <- ?app_assoc, ?app_nil_r; cbn;
    (apply conj; [intros ? He; first [discriminate He | reflexivity]|]);
    (apply conj; intros He; first [discriminate He | reflexivity]).
Qed.

Lemma database_before_broker_witness :
  let locked := fresh [] [] [Some (PyException (str "unable to open database file"))] in
  (fst (setup_sqlite Sample.args locked)
   = Raise (PyException (str "unable to open database file"))
   /\ filter is_mqtt_call (trace (snd (boot Sample.args locked))) = [])
  /\ (fst (boot Credentials.both (fresh [] [] [])) = L129
      /\ filter is_mqtt_call
           (trace (snd (boot Credentials.both (fresh [] [] []))))
         = [ClientNew;
            UsernamePwSet (Some (str "alice")) (Some (str "secret"));
            Connect (str "localhost") 1883 60; LoopStart])
  /\ (exited (fst (boot Sample.args
                        (fresh [] [] Startup.broker_unreachable))) = true
      /\ loop_running (snd (boot Sample.args
                                 (fresh [] [] Startup.broker_unreachable)))
         = false).
Proof.
  split; [split; [reflexivity|]|split; [split; [reflexivity|]|split;
                                        [reflexivity|]]].
  - apply (proj1 (database_before_broker Sample.args
                    (fresh [] []
                       [Some (PyException (str "unable to open database file"))]))
                 (PyException (str "unable to open database file"))).
    reflexivity.
  - apply (proj1 (proj2 (database_before_broker Credentials.both
                           (fresh [] [] [])))).
    reflexivity.
  - apply (proj2 (proj2 (database_before_broker Sample.args
                           (fresh [] [] Startup.broker_unreachable)))).
    reflexivity.
Defined.

Module Lines.
Import Json.

Lemma count_app (a b : pystr) (c : N) :
  count_occ N.eq_dec (a ++ b) c
  = (count_occ N.eq_dec a c + count_occ N.eq_dec b c)%nat.
Proof. apply count_occ_app. Qed.

Lemma printable_no_newline body :
  forallb printable body = true -> count_occ N.eq_dec body 10 = 0%nat.
Proof.
  intros H. apply count_occ_not_In. intros Hin.
  rewrite forallb_forall in H. specialize (H 10 Hin). discriminate H.
Qed.

Lemma json_line_count args m :
  count_occ N.eq_dec (json_line args m) 10 = 1%nat.
Proof.
  unfold json_line. rewrite count_app.
  rewrite (printable_no_newline _ (JsonFacts.dumps_printable _)).
  reflexivity.
Qed.

End Lines.

(** X11.  Whatever the record, the text [save_to_json] writes for it
    is printable ASCII followed by one newline: no character of a topic
    or of a payload reaches the file unescaped unless it is printable
    ASCII.  So the text written for a list of records has as many
    newlines as records, and nothing but printable ASCII between
    them. *)
Theorem lines_are_ascii (args : Args) :
  (forall m,
      exists body,
        json_line args m = body ++ [10] /\ forallb printable body = true)
  /\ (forall l,
         count_occ N.eq_dec (flat_map (json_line args) l) 10 = List.length l
         /\ forallb (fun c => printable c || (c =? 10))
                    (flat_map (json_line args) l) = true).
Proof.
  split.
  - intros m. exists (Json.dumps (message_dict m)).
    split; [reflexivity | apply JsonFacts.dumps_printable].
  - intros l. split.
    + induction l as [|m l IH]; [reflexivity|].
      cbn [flat_map List.length].
      rewrite Lines.count_app, IH, Lines.json_line_count. reflexivity.
    + induction l as [|m l IH]; [reflexivity|].
      cbn [flat_map]. rewrite forallb_app, IH, andb_true_r.
      unfold json_line. rewrite forallb_app. cbn.
      rewrite andb_true_r. apply forallb_forall. intros c Hc.
      pose proof (JsonFacts.dumps_printable (message_dict m)) as P.
      rewrite forallb_forall in P. rewrite (P c Hc). reflexivity.
Qed.

(** A payload with a newline, a quote and a code point above U+FFFF is
    written on one line, escaped. *)
Example escaped_payload :
  Json.encode_str [10; 34; 0x1F600]
  = [34] ++ str "\n\" ++ [34] ++ str "\ud83d\ude00" ++ [34].
Proof. vm_compute. reflexivity. Qed.

(* ================================================================== *)
(** * Counting calls *)

Module Counting.
Import Statements Threads Invariants.

Lemma filter_none (P Q : event -> bool) (l : list event) :
  forallb P l = true ->
  (forall e, P e = true -> Q e = false) ->
  filter Q l = [].
Proof.
  intros H HPQ. induction l as [|e l IH]; [reflexivity|].
  cbn in *. apply andb_prop in H. destruct H as [He Hl].
  rewrite (HPQ e He). auto.
Qed.

(** What the two sink functions leave in the history. *)
Lemma save_to_sqlite_batch_events b w :
  exists ext,
    trace (snd (save_to_sqlite_batch b w)) = trace w ++ ext
    /\ forallb sink_fn_event ext = true.
Proof.
  destruct (Inserts.save_to_sqlite_batch_cases b w)
    as (fs' & rows' & pend' & r & ext & E & Hcase & _).
  rewrite E. cbn [snd trace]. eexists. split; [reflexivity|].
  destruct Hcase as [(_ & -> & _)
                    | [(k & x & _ & _ & _ & _ & Hrx)
                      | (x & _ & _ & _ & Hrx)]];
    [reflexivity | destruct x; inversion Hrx; reflexivity ..].
Qed.

Lemma save_to_json_events args m w :
  exists ext,
    trace (snd (save_to_json args m w)) = trace w ++ ext
    /\ forallb sink_fn_event ext = true.
Proof.
  destruct w as [q rows pend file lr cn fs tr].
  unfold save_to_json, with_open_append, file_write. unfold_M.
  faults_cases; rewrite <- ?app_assoc; cbn; eexists;
    (split; [reflexivity|]); reflexivity.
Qed.

(** A sink function calls neither [reconnect] nor [subscribe]. *)
Lemma sink_fn_no_broker ext :
  forallb sink_fn_event ext = true ->
  filter is_reconnect ext = [] /\ filter is_subscribe ext = [].
Proof.
  intros H. split; apply (@filter_none sink_fn_event _ ext H);
    intros e He; destruct e; try reflexivity; discriminate He.
Qed.

(** Nor does the way out of the [try]: [on_disconnect] runs there with
    reason code 0. *)
Lemma leave_try_broker e w :
  filter is_reconnect (trace (snd (leave_try e w)))
  = filter is_reconnect (trace w)
  /\ filter is_subscribe (trace (snd (leave_try e w)))
     = filter is_subscribe (trace w).
Proof.
  destruct w as [q rows pend file lr cn fs tr].
  unfold leave_try, except_KeyboardInterrupt, finally_block,
    client_disconnect, on_disconnect.
  unfold_M.
  destruct cn; destruct e; faults_cases; rewrite ?filter_app; cbn;
    rewrite ?app_nil_r; auto.
Qed.

Lemma continue_broker next r :
  filter is_reconnect (trace (snd (continue next r)))
  = filter is_reconnect (trace (snd r))
  /\ filter is_subscribe (trace (snd (continue next r)))
     = filter is_subscribe (trace (snd r)).
Proof.
  destruct r as [[[]|e] w]; cbn [continue snd]; [auto|].
  apply leave_try_broker.
Qed.

(** The main thread calls neither [reconnect] nor [subscribe]. *)
Lemma main_step_broker args s :
  filter is_reconnect (trace (snd (main_step args s)))
  = filter is_reconnect (trace (snd s))
  /\ filter is_subscribe (trace (snd (main_step args s)))
     = filter is_subscribe (trace (snd s)).
Proof.
  destruct s as [l w].
  destruct l as [|b|b|b|rest| |c]; cbn [main_step snd]; auto.
  - destruct (message_queue w); cbn; rewrite ?filter_app; cbn;
      rewrite ?app_nil_r; auto.
  - destruct (message_queue w); cbn; rewrite ?filter_app; cbn;
      rewrite ?app_nil_r; auto.
  - destruct b as [|m b]; [auto|].
    destruct (continue_broker (L134 (m :: b))
                (save_to_sqlite_batch (m :: b) w)) as (-> & ->).
    destruct (save_to_sqlite_batch_events (m :: b) w) as (ext & -> & Hev).
    destruct (@sink_fn_no_broker ext Hev) as (Hr & Hs).
    rewrite !filter_app, Hr, Hs, !app_nil_r. auto.
  - destruct rest as [|m rest]; [auto|].
    destruct (continue_broker (L134 rest) (save_to_json args m w))
      as (-> & ->).
    destruct (save_to_json_events args m w) as (ext & -> & Hev).
    destruct (@sink_fn_no_broker ext Hev) as (Hr & Hs).
    rewrite !filter_app, Hr, Hs, !app_nil_r. auto.
  - destruct (continue_broker L129 (time_sleep 1 w)) as (-> & ->).
    destruct w as [q rows pend file lr cn fs tr].
    unfold_M. faults_cases; rewrite ?filter_app; cbn;
      rewrite ?app_nil_r; auto.
Qed.

(** Nor does the start. *)
Lemma boot_broker args rows file fs :
  filter is_reconnect (trace (snd (boot args (fresh rows file fs)))) = []
  /\ filter is_subscribe (trace (snd (boot args (fresh rows file fs)))) = [].
Proof.
  unfold boot, startup, setup_sqlite, setup_mqtt, fresh.
  destruct (truthy (username args) && truthy (password args));
    unfold_M; faults_cases; auto.
Qed.

(** A callback that runs: one [reconnect] for an unexpected disconnect,
    one [subscribe] for an accepted connection, nothing else. *)
Lemma callback_broker e w :
  List.length (filter is_reconnect (trace (snd (callback e w))))
  = (List.length (filter is_reconnect (trace w))
     + List.length (filter unexpected [Net e]))%nat
  /\ List.length (filter is_subscribe (trace (snd (callback e w))))
     = (List.length (filter is_subscribe (trace w))
        + List.length (filter accepted [Net e]))%nat.
Proof.
  destruct w as [q rows pend file lr cn fs tr].
  destruct e as [now msg|rc|rc]; unfold callback.
  - unfold on_message.
    destruct (stored_payload (msg_payload msg)) as [[text [|]]|];
      unfold_M; cbn; rewrite ?filter_app; cbn; rewrite ?app_nil_r; lia.
  - unfold on_connect. cbn [filter accepted unexpected].
    destruct (rc_value rc =? 0)%Z; unfold_M; cbn;
      rewrite ?filter_app, ?length_app; cbn; lia.
  - unfold on_disconnect. cbn [filter accepted unexpected].
    destruct (rc_value rc =? 0)%Z; unfold_M; cbn;
      rewrite ?filter_app, ?length_app; cbn; lia.
Qed.

Lemma step_exited args a s :
  exited (fst s) = true -> exited (fst (step args a s)) = true.
Proof.
  destruct s as [l w]. destruct l; try discriminate. intros _.
  destruct a; reflexivity.
Qed.

Lemma run_stays_exited args schedule s :
  exited (fst s) = true -> exited (fst (run args schedule s)) = true.
Proof.
  revert s. induction schedule as [|a sch IH]; intros s H; [exact H|].
  apply IH, step_exited, H.
Qed.

Lemma interrupt_exits s : exited (fst (interrupt s)) = true.
Proof.
  destruct s as [l w]. unfold interrupt.
  destruct (leave_try_exits KeyboardInterrupt
              (record (Raised KeyboardInterrupt) w)) as (c & w' & E & _).
  destruct l; try reflexivity; rewrite E; reflexivity.
Qed.

Lemma run_broker args schedule :
  forall s,
    buffer_inv s ->
    exited (fst (run args schedule s)) = false ->
    List.length (filter is_reconnect (trace (snd (run args schedule s))))
    = (List.length (filter is_reconnect (trace (snd s)))
       + List.length (filter unexpected schedule))%nat
    /\ List.length (filter is_subscribe (trace (snd (run args schedule s))))
       = (List.length (filter is_subscribe (trace (snd s)))
          + List.length (filter accepted schedule))%nat.
Proof.
  induction schedule as [|a sch IH]; intros s I Hrun.
  - cbn. lia.
  - change (run args (a :: sch) s) with (run args sch (step args a s)) in *.
    assert (Hx : exited (fst s) = false).
    { destruct (exited (fst s)) eqn:Hx; [|reflexivity].
      rewrite (@run_stays_exited args sch (step args a s)
                 (@step_exited args a s Hx)) in Hrun. discriminate. }
    destruct (IH (step args a s) (@step_buffer_inv args a s I) Hrun)
      as (IHr & IHs).
    rewrite IHr, IHs. clear IHr IHs.
    destruct a as [|e|].
    + cbn [step]. destruct (main_step_broker args s) as (-> & ->).
      cbn. lia.
    + destruct s as [l w]. cbn [fst snd] in *.
      destruct (@buffer_inv_running l w Hx I) as (_ & _ & Il & _).
      specialize (Il Hx).
      assert (E : step args (Net e) (l, w) = (l, snd (callback e w))).
      { cbn [step]. unfold net_step. rewrite Il.
        destruct l; try discriminate; reflexivity. }
      rewrite E. cbn [snd].
      destruct (callback_broker e w) as (-> & ->).
      change (Net e :: sch) with ([Net e] ++ sch).
      rewrite !filter_app, !length_app. lia.
    + rewrite (@run_stays_exited args sch (step args Interrupt s)
                 (interrupt_exits s)) in Hrun. discriminate.
Qed.

End Counting.

(** X12.  As long as the process runs, [reconnect] has been called
    once for each disconnect with a reason code other than 0 and
    [subscribe] once for each connection acknowledged with reason code
    0, and never otherwise: neither the start nor the main thread calls
    them. *)
Theorem one_reconnect_per_disconnect
        (args : Args) (rows : list message) (file : pystr)
        (fs : list (option exn)) (schedule : list action) :
  let s := run args schedule (boot args (fresh rows file fs)) in
  exited (fst s) = false ->
  List.length (filter is_reconnect (trace (snd s)))
  = List.length (filter unexpected schedule)
  /\ List.length (filter is_subscribe (trace (snd s)))
     = List.length (filter accepted schedule).
Proof.
  cbv zeta. intros Hrun.
  destruct (Counting.run_broker args schedule
              (boot args (fresh rows file fs))
              (Invariants.boot_buffer_inv args rows file fs) Hrun)
    as (Hr & Hs).
  destruct (Counting.boot_broker args rows file fs) as (Br & Bs).
  rewrite Hr, Hs, Br, Bs. auto.
Qed.

Lemma one_reconnect_per_disconnect_witness :
  let schedule := [Net (ConnAck Sample.success); Main;
                   Net (ConnLost Sample.refused); Main;
                   Net (ConnAck Sample.refused);
                   Net (ConnLost Sample.refused);
                   Net (ConnAck Sample.success);
                   Net (ConnLost Sample.success)] in
  let s := run Sample.args schedule (boot Sample.args (fresh [] [] [])) in
  exited (fst s) = false
  /\ List.length (filter is_reconnect (trace (snd s))) = 2%nat
  /\ List.length (filter is_subscribe (trace (snd s))) = 2%nat.
Proof.
  split; [reflexivity|].
  apply (@one_reconnect_per_disconnect Sample.args [] [] []
           [Net (ConnAck Sample.success); Main;
            Net (ConnLost Sample.refused); Main;
            Net (ConnAck Sample.refused);
            Net (ConnLost Sample.refused);
            Net (ConnAck Sample.success);
            Net (ConnLost Sample.success)]).
  reflexivity.
Defined.

Module Cadence.
Import Statements Threads Counting.

Ltac count_events :=
  cbn; rewrite ?filter_app, ?length_app; cbn; try lia.

(** A sink function neither drains nor sleeps. *)
Lemma sink_fn_no_cadence ext :
  forallb sink_fn_event ext = true ->
  filter is_drained ext = [] /\ filter is_tick_sleep ext = [].
Proof.
  intros H. split; apply (@filter_none sink_fn_event _ ext H);
    intros e He; destruct e; try reflexivity; discriminate He.
Qed.

(** A statement that does not end the process went on at [next]. *)
Lemma continue_running next r :
  exited (fst (continue next r)) = false ->
  continue next r = (next, snd r).
Proof.
  destruct r as [[[]|e] w]; cbn [continue snd]; [reflexivity|].
  destruct (leave_try_exits e w) as (c & w' & -> & _).
  intros H. discriminate H.
Qed.

(** One statement of the main thread that does not end the process. *)
Lemma main_step_cadence args s :
  exited (fst (main_step args s)) = false ->
  cadence s -> cadence (main_step args s).
Proof.
  destruct s as [l w]. unfold cadence.
  destruct l as [|b|b|b|rest| |c]; cbn [main_step fst snd].
  - auto.
  - destruct (message_queue w); count_events.
  - destruct (message_queue w); count_events.
  - destruct b as [|m b]; [auto|].
    intros Hx H. rewrite (continue_running _ _ Hx). cbn [fst snd].
    destruct (save_to_sqlite_batch_events (m :: b) w) as (ext & -> & Hev).
    destruct (@sink_fn_no_cadence ext Hev) as (Hd & Ht).
    rewrite !filter_app, Hd, Ht, !app_nil_r. exact H.
  - destruct rest as [|m rest]; [auto|].
    intros Hx H. rewrite (continue_running _ _ Hx). cbn [fst snd].
    destruct (save_to_json_events args m w) as (ext & -> & Hev).
    destruct (@sink_fn_no_cadence ext Hev) as (Hd & Ht).
    rewrite !filter_app, Hd, Ht, !app_nil_r. exact H.
  - intros Hx. rewrite (continue_running _ _ Hx). cbn [fst snd]. clear Hx.
    destruct w as [q rows pend file lr cn fs tr].
    unfold_M. faults_cases; count_events.
  - auto.
Qed.

(** The sleep of [on_disconnect] is not the sleep of a tick. *)
Lemma callback_cadence e w :
  filter is_drained (trace (snd (callback e w))) = filter is_drained (trace w)
  /\ filter is_tick_sleep (trace (snd (callback e w)))
     = filter is_tick_sleep (trace w).
Proof.
  destruct w as [q rows pend file lr cn fs tr].
  destruct e as [now msg|rc|rc]; unfold callback.
  - unfold on_message.
    destruct (stored_payload (msg_payload msg)) as [[text [|]]|];
      unfold_M; cbn; rewrite ?filter_app; cbn; rewrite ?app_nil_r; auto.
  - unfold on_connect.
    destruct (rc_value rc =? 0)%Z; unfold_M; cbn;
      rewrite ?filter_app; cbn; rewrite ?app_nil_r; auto.
  - unfold on_disconnect.
    destruct (rc_value rc =? 0)%Z; unfold_M; cbn;
      rewrite ?filter_app; cbn; rewrite ?app_nil_r; auto.
Qed.

Lemma net_step_cadence e s : cadence s -> cadence (net_step e s).
Proof.
  destruct s as [l w]. unfold cadence, net_step. intros H.
  destruct (callback_cadence e w) as (Hd & Ht).
  destruct l; try exact H; destruct (loop_running w); try exact H;
    cbn [fst snd] in *; rewrite Hd, Ht; exact H.
Qed.

Lemma run_cadence args schedule :
  forall s,
    cadence s ->
    exited (fst (run args schedule s)) = false ->
    cadence (run args schedule s).
Proof.
  induction schedule as [|a sch IH]; intros s H Hrun; [exact H|].
  change (run args (a :: sch) s) with (run args sch (step args a s)) in *.
  apply IH; [|exact Hrun].
  assert (Hx : exited (fst (step args a s)) = false).
  { destruct (exited (fst (step args a s))) eqn:Hx; [|reflexivity].
    rewrite (@run_stays_exited args sch (step args a s) Hx) in Hrun.
    discriminate. }
  destruct a as [|e|].
  - apply main_step_cadence; assumption.
  - apply net_step_cadence, H.
  - cbn [step] in Hx. rewrite (interrupt_exits s) in Hx. discriminate.
Qed.

Lemma boot_cadence args rows file fs :
  exited (fst (boot args (fresh rows file fs))) = false ->
  cadence (boot args (fresh rows file fs)).
Proof.
  unfold cadence, boot, startup, setup_sqlite, setup_mqtt, fresh.
  destruct (truthy (username args) && truthy (password args));
    unfold_M; faults_cases; intros Hx; try discriminate Hx; reflexivity.
Qed.

End Cadence.

(* ================================================================== *)
(** * The connection at the shutdown *)

Module Connection.
Import Statements Threads Counting Cadence.

(** A statement of the main loop that does not end the process leaves
    the socket alone. *)
Lemma main_step_connected args s :
  exited (fst (main_step args s)) = false ->
  connected (snd (main_step args s)) = connected (snd s).
Proof.
  destruct s as [l w].
  destruct l as [|b|b|b|rest| |c]; cbn [main_step fst snd].
  - reflexivity.
  - destruct (message_queue w); reflexivity.
  - destruct (message_queue w); reflexivity.
  - destruct b as [|m b]; [reflexivity|].
    intros Hx. rewrite (continue_running _ _ Hx). cbn [snd].
    destruct (Inserts.save_to_sqlite_batch_cases (m :: b) w)
      as (fs' & rows' & pend' & r & ext & E & _).
    rewrite E. reflexivity.
  - destruct rest as [|m rest]; [reflexivity|].
    intros Hx. rewrite (continue_running _ _ Hx). cbn [snd].
    destruct w as [q rows pend file lr cn fs tr].
    unfold save_to_json, with_open_append, file_write. unfold_M.
    faults_cases; reflexivity.
  - intros Hx. rewrite (continue_running _ _ Hx). cbn [snd].
    destruct w as [q rows pend file lr cn fs tr].
    unfold_M. faults_cases; reflexivity.
  - reflexivity.
Qed.

(** After a connection that ended unexpectedly the callback has
    reconnected; the other callbacks leave the socket alone. *)
Lemma callback_connected e w :
  link_kept [Net e] = true ->
  connected w = true ->
  connected (snd (callback e w)) = true.
Proof.
  destruct w as [q rows pend file lr cn fs tr].
  destruct e as [now msg|rc|rc]; unfold callback, link_kept; cbn.
  - intros _. unfold on_message.
    destruct (stored_payload (msg_payload msg)) as [[text [|]]|];
      unfold_M; cbn; auto.
  - intros _. unfold on_connect.
    destruct (rc_value rc =? 0)%Z; unfold_M; cbn; auto.
  - unfold on_disconnect.
    destruct (rc_value rc =? 0)%Z; cbn; [discriminate|].
    unfold_M. cbn. auto.
Qed.

(** The start that reaches the main loop has connected. *)
Lemma boot_connected args rows file fs :
  exited (fst (boot args (fresh rows file fs))) = false ->
  connected (snd (boot args (fresh rows file fs))) = true.
Proof.
  unfold boot, startup, setup_sqlite, setup_mqtt, fresh.
  destruct (truthy (username args) && truthy (password args));
    unfold_M; faults_cases; intros Hx; try discriminate Hx; reflexivity.
Qed.

(** As long as the process runs and no disconnect with reason code 0 is
    delivered, the client holds a connection: the [disconnect] of the
    shutdown finds one and runs [on_disconnect]. *)
Lemma run_connected args schedule :
  forall s,
    link_kept schedule = true ->
    connected (snd s) = true ->
    exited (fst (run args schedule s)) = false ->
    connected (snd (run args schedule s)) = true.
Proof.
  induction schedule as [|a sch IH]; intros s Hk Hc Hrun; [exact Hc|].
  change (run args (a :: sch) s) with (run args sch (step args a s)) in *.
  change (a :: sch) with ([a] ++ sch) in Hk.
  unfold link_kept in Hk. rewrite forallb_app in Hk.
  apply andb_prop in Hk. destruct Hk as [Ha Hk].
  assert (Hx : exited (fst (step args a s)) = false).
  { destruct (exited (fst (step args a s))) eqn:Hx; [|reflexivity].
    rewrite (@run_stays_exited args sch (step args a s) Hx) in Hrun.
    discriminate. }
  apply IH; [exact Hk | | exact Hrun].
  destruct a as [|e|].
  - cbn [step] in *. rewrite main_step_connected; assumption.
  - destruct s as [l w]. cbn [step net_step fst snd] in *.
    destruct l; try exact Hc; destruct (loop_running w); try exact Hc;
      cbn [snd]; apply callback_connected; assumption.
  - cbn [step] in Hx. rewrite (interrupt_exits s) in Hx. discriminate.
Qed.

End Connection.

(** The sample run is interrupted after its five steps: the client is
    connected, and the warning of [on_disconnect] is logged between the
    two lines of the shutdown. *)
Example shutdown_logs_disconnect :
  let s := run Sample.args (Sample.schedule ++ [Interrupt])
               (boot Sample.args (fresh [] [] [])) in
  fst s = Exited 0
  /\ connected (snd s) = false
  /\ skipn (List.length (trace (snd s)) - 7) (trace (snd s))
     = Shutdown.shutdown_calls.
Proof. vm_compute. auto. Qed.

(** X13.  The main loop drains once for each [time.sleep(1)]: as long
    as the process runs, the drains ended so far are as many as the
    sleeps of the loop, plus one when the main thread is between the
    end of a drain and the sleep of its tick.  The loop never drains
    twice without sleeping and never sleeps twice without draining. *)
Theorem one_drain_per_sleep
        (args : Args) (rows : list message) (file : pystr)
        (fs : list (option exn)) (schedule : list action) :
  let s := run args schedule (boot args (fresh rows file fs)) in
  exited (fst s) = false ->
  List.length (drained (trace (snd s)))
  = (List.length (filter is_tick_sleep (trace (snd s)))
     + after_drain (fst s))%nat.
Proof.
  cbv zeta. intros Hrun.
  assert (Hboot : exited (fst (boot args (fresh rows file fs))) = false).
  { destruct (exited (fst (boot args (fresh rows file fs)))) eqn:Hx;
      [|reflexivity].
    rewrite (@Counting.run_stays_exited args schedule _ Hx) in Hrun.
    discriminate. }
  pose proof (@Cadence.run_cadence args schedule _
                (Cadence.boot_cadence args rows file fs Hboot) Hrun) as C.
  unfold cadence in C. rewrite <- C.
  generalize (trace (snd (run args schedule (boot args (fresh rows file fs))))).
  intros tr. induction tr as [|e tr IH]; [reflexivity|].
  destruct e; cbn; auto.
Qed.

Lemma one_drain_per_sleep_witness :
  let s := run Sample.args (Scenario.drain_end ++ repeat Main 8)
               (boot Sample.args (fresh [] [] [])) in
  exited (fst s) = false
  /\ List.length (drained (trace (snd s)))
     = (List.length (filter is_tick_sleep (trace (snd s)))
        + after_drain (fst s))%nat.
Proof.
  split; [reflexivity|].
  apply (@one_drain_per_sleep Sample.args [] [] []
           (Scenario.drain_end ++ repeat Main 8)).
  reflexivity.
Defined.

(** X14.  [save_to_sqlite_batch] is never called with an empty list:
    a tick whose drain is empty calls no sink function, and every
    insert attempted is for a drain result that is not empty. *)
Theorem no_empty_insert
        (args : Args) (rows : list message) (file : pystr)
        (fs : list (option exn)) (schedule : list action)
        (b : list message) :
  let s := run args schedule (boot args (fresh rows file fs)) in
  In (Call_save_to_sqlite_batch b) (trace (snd s)) ->
  b <> [] /\ In b (drained (trace (snd s))).
Proof.
  cbv zeta. intros Hin.
  assert (I : buffer_inv (run args schedule (boot args (fresh rows file fs))))
    by apply Invariants.run_buffer_inv, Invariants.boot_buffer_inv.
  destruct (@Invariants.buffer_inv_calls _ I) as (extra & Hc & _).
  assert (Hs : In (Call_save_to_sqlite_batch b)
                  (sink_calls
                     (trace (snd (run args schedule
                                      (boot args (fresh rows file fs))))))).
  { apply filter_In. split; [exact Hin | reflexivity]. }
  assert (Hb : In (Call_save_to_sqlite_batch b)
                  (flat_map block
                     (drained
                        (trace (snd (run args schedule
                                         (boot args (fresh rows file fs)))))))).
  { rewrite <- Hc. apply in_or_app. left. exact Hs. }
  apply in_flat_map in Hb. destruct Hb as (b' & Hd & Hblock).
  destruct b' as [|m b']; [destruct Hblock|].
  rewrite Invariants.block_cons in Hblock.
  apply in_inv in Hblock. destruct Hblock as [E | Hmap].
  - inversion E. subst b. split; [discriminate | exact Hd].
  - apply in_map_iff in Hmap. destruct Hmap as (x & Hx & _). discriminate Hx.
Qed.

Lemma no_empty_insert_witness :
  let s := run Sample.args (Scenario.drain_end ++ repeat Main 5)
               (boot Sample.args (fresh [] [] [])) in
  In (Call_save_to_sqlite_batch Scenario.batch) (trace (snd s))
  /\ Scenario.batch <> []
  /\ In Scenario.batch (drained (trace (snd s))).
Proof.
  assert (H : In (Call_save_to_sqlite_batch Scenario.batch)
                (trace (snd (run Sample.args
                                 (Scenario.drain_end ++ repeat Main 5)
                                 (boot Sample.args (fresh [] [] []))))))
    by (vm_compute; auto 30).
  split; [exact H|].
  apply (@no_empty_insert Sample.args [] [] []
           (Scenario.drain_end ++ repeat Main 5) Scenario.batch H).
Defined.

(** X15.  [save_to_json] closes the file it opened: whatever happens to
    the write, an exception or an interrupt, the file is closed once
    when [open] succeeded and never when it failed; a failed [open]
    writes nothing. *)
Theorem file_is_always_closed (args : Args) (m : message) (w : world) :
  exists ext,
    trace (snd (save_to_json args m w)) = trace w ++ ext
    /\ List.length (filter is_open ext) = 1%nat
    /\ List.length (filter is_close ext) = (if opens w then 1 else 0)%nat
    /\ (opens w = false ->
        json_file (snd (save_to_json args m w)) = json_file w).
Proof.
  destruct w as [q rows pend file lr cn fs tr].
  unfold save_to_json, with_open_append, file_write, opens. unfold_M.
  faults_cases; rewrite <- ?app_assoc; cbn; eexists;
    (split; [reflexivity|]); cbn; repeat split; auto;
    intros H; discriminate H.
Qed.

(** The write is interrupted, or fails, and the file is closed. *)
Example closed_after_interrupt :
  let w := World [] [] [] [] true true [None; Some KeyboardInterrupt] [] in
  fst (save_to_json Sample.args Sample.hello_record w)
  = Raise KeyboardInterrupt
  /\ filter (fun e => is_open e || is_close e || is_raised e)
            (trace (snd (save_to_json Sample.args Sample.hello_record w)))
     = [OpenAppend (str "logs.json"); Raised KeyboardInterrupt; FileClose].
Proof. vm_compute. auto. Qed.

(* ================================================================== *)
(** * The text of a stored payload *)

Module ScalarFacts.

Ltac to_props :=
  repeat match goal with
         | H : (_ && _) = true |- _ => apply andb_prop in H; destruct H
         | H : (_ && _) = false |- _ => apply andb_false_iff in H
         | H : (_ <=? _) = true |- _ => apply N.leb_le in H
         | H : (_ <=? _) = false |- _ => apply N.leb_gt in H
         | H : (_ <? _) = true |- _ => apply N.ltb_lt in H
         | H : (_ <? _) = false |- _ => apply N.ltb_ge in H
         | H : (_ =? _) = true |- _ => apply N.eqb_eq in H
         | H : (_ =? _) = false |- _ => apply N.eqb_neq in H
         end.

Lemma scalar_intro c :
  c < 0xD800 \/ (0xDFFF < c /\ c < 0x110000) -> scalar c = true.
Proof.
  unfold scalar. intros [H | [H1 H2]].
  - apply N.ltb_lt in H. rewrite H. reflexivity.
  - apply N.ltb_lt in H1, H2. rewrite H1, H2. apply orb_true_r.
Qed.

(** Strict decoding gives scalar values only. *)
Lemma decode_scalar n :
  forall bs s,
    (List.length bs <= n)%nat ->
    Utf8.decode bs = Some s ->
    forallb scalar s = true.
Proof.
  induction n as [|n IH]; intros bs s Hlen Hdec.
  - destruct bs; [|cbn in Hlen; lia]. inversion Hdec. reflexivity.
  - destruct bs as [|b0 t0]; [inversion Hdec; reflexivity|].
    cbn [Utf8.decode] in Hdec. cbn [List.length] in Hlen.
    pose proof (Byte.to_N_bounded b0) as B0.
    remember (Byte.to_N b0) as n0 eqn:E0. clear E0.
    unfold Utf8.in_range, Utf8.is_cont, Utf8.second_lo, Utf8.second_hi in Hdec.
    destruct (n0 <? 128) eqn:C1.
    { destruct (Utf8.decode t0) as [r|] eqn:D; [|discriminate].
      inversion Hdec. subst s. cbn [forallb].
      rewrite (IH t0 r) by (auto; lia). rewrite andb_true_r.
      to_props. apply scalar_intro. lia. }
    destruct ((194 <=? n0) && (n0 <=? 223)) eqn:C2.
    { destruct t0 as [|b1 t1]; [discriminate|].
      pose proof (Byte.to_N_bounded b1) as B1.
      remember (Byte.to_N b1) as n1 eqn:E1. clear E1.
      destruct ((128 <=? n1) && (n1 <=? 191)) eqn:K1; [|discriminate].
      destruct (Utf8.decode t1) as [r|] eqn:D; [|discriminate].
      inversion Hdec. subst s. cbn [forallb].
      rewrite (IH t1 r) by (auto; cbn in Hlen; lia). rewrite andb_true_r.
      to_props. apply scalar_intro. lia. }
    destruct ((224 <=? n0) && (n0 <=? 239)) eqn:C3.
    { destruct t0 as [|b1 [|b2 t2]]; try discriminate.
      pose proof (Byte.to_N_bounded b1) as B1.
      pose proof (Byte.to_N_bounded b2) as B2.
      remember (Byte.to_N b1) as n1 eqn:E1. clear E1.
      remember (Byte.to_N b2) as n2 eqn:E2. clear E2.
      match type of Hdec with
      | (if ?c then _ else _) = _ => destruct c eqn:K; [|discriminate]
      end.
      destruct (Utf8.decode t2) as [r|] eqn:D; [|discriminate].
      inversion Hdec. subst s. cbn [forallb].
      rewrite (IH t2 r) by (auto; cbn in Hlen; lia). rewrite andb_true_r.
      destruct (n0 =? 224) eqn:L1; destruct (n0 =? 240) eqn:L2;
        destruct (n0 =? 237) eqn:L3; destruct (n0 =? 244) eqn:L4;
        to_props; apply scalar_intro; lia. }
    destruct ((240 <=? n0) && (n0 <=? 244)) eqn:C4; [|discriminate].
    destruct t0 as [|b1 [|b2 [|b3 t3]]]; try discriminate.
    pose proof (Byte.to_N_bounded b1) as B1.
    pose proof (Byte.to_N_bounded b2) as B2.
    pose proof (Byte.to_N_bounded b3) as B3.
    remember (Byte.to_N b1) as n1 eqn:E1. clear E1.
    remember (Byte.to_N b2) as n2 eqn:E2. clear E2.
    remember (Byte.to_N b3) as n3 eqn:E3. clear E3.
    match type of Hdec with
    | (if ?c then _ else _) = _ => destruct c eqn:K; [|discriminate]
    end.
    destruct (Utf8.decode t3) as [r|] eqn:D; [|discriminate].
    inversion Hdec. subst s. cbn [forallb].
    rewrite (IH t3 r) by (auto; cbn in Hlen; lia). rewrite andb_true_r.
    destruct (n0 =? 224) eqn:L1; destruct (n0 =? 240) eqn:L2;
      destruct (n0 =? 237) eqn:L3; destruct (n0 =? 244) eqn:L4;
      to_props; apply scalar_intro; lia.
Qed.

Lemma ascii_scalar bs :
  Forall (fun b => Byte.to_N b < 128) bs ->
  forallb scalar (map Byte.to_N bs) = true.
Proof.
  induction 1 as [|b l Hb _ IH]; [reflexivity|].
  cbn [map forallb]. rewrite IH, andb_true_r.
  apply scalar_intro. lia.
Qed.

End ScalarFacts.

(** X16.  The payload [on_message] stores is a text of Unicode scalar
    values, whatever the bytes delivered: no surrogate and nothing
    above U+10FFFF, by strict decoding or by the base64 fallback. *)
Theorem stored_payload_is_scalar (now : pystr) (msg : MQTTMessage) (w : world) :
  exists text,
    message_queue (snd (on_message now msg w))
    = message_queue w
      ++ [Message (msg_topic msg) text now (msg_qos msg) (msg_retain msg)]
    /\ forallb scalar text = true.
Proof.
  destruct (CodecFacts.fallback_roundtrip (msg_payload msg)) as [Henc _].
  unfold on_message, stored_payload.
  destruct (Utf8.decode (msg_payload msg)) as [text|] eqn:Hutf.
  - exists text. split; [reflexivity|].
    eapply ScalarFacts.decode_scalar; [apply Nat.le_refl | exact Hutf].
  - rewrite Henc. eexists. split; [reflexivity|].
    apply ScalarFacts.ascii_scalar, CodecFacts.b64encode_ascii.
Qed.

(** CESU-style surrogates, an overlong form and a value above U+10FFFF
    are refused; the euro sign and a smiley are read. *)
Example strict_decoding :
  Utf8.decode [xed; xa0; x80] = None
  /\ Utf8.decode [xc0; xaf] = None
  /\ Utf8.decode [xf4; x90; x80; x80] = None
  /\ Utf8.decode [xe2; x82; xac] = Some [0x20AC]
  /\ Utf8.decode [xf0; x9f; x98; x80] = Some [0x1F600].
Proof. vm_compute. auto 6. Qed.

(* ================================================================== *)
(** * Reading the file back *)

Module ReadFacts.
Import Json JsonRead.

#[local] Ltac Zify.zify_post_hook ::= Z.to_euclidean_division_equations.

Lemma below (k : nat) (P : N -> bool) :
  forallb P (map N.of_nat (seq 0 k)) = true ->
  forall i, i < N.of_nat k -> P i = true.
Proof.
  intros H i Hi. rewrite forallb_forall in H. apply H.
  apply in_map_iff. exists (N.to_nat i). split.
  - apply N2Nat.id.
  - apply in_seq. lia.
Qed.

Lemma hex_value_digit d : d < 16 -> hex_value (hex_digit d) = Some d.
Proof.
  intros H.
  assert (E : (match hex_value (hex_digit d) with
               | Some x => x =? d
               | None => false
               end) = true).
  { apply (@below 16 (fun d => match hex_value (hex_digit d) with
                               | Some x => x =? d
                               | None => false
                               end)); [vm_compute; reflexivity | exact H]. }
  destruct (hex_value (hex_digit d)); [|discriminate].
  apply N.eqb_eq in E. subst. reflexivity.
Qed.

Lemma hex4_escape n :
  n < 65536 ->
  hex4 (hex_digit (n / 4096 mod 16)) (hex_digit (n / 256 mod 16))
       (hex_digit (n / 16 mod 16)) (hex_digit (n mod 16)) = Some n.
Proof.
  intros H. unfold hex4.
  rewrite !hex_value_digit by (apply N.mod_lt; discriminate).
  f_equal. lia.
Qed.

Lemma lor_high x : x < 1024 -> N.lor 0xd800 x = 0xd800 + x.
Proof.
  intros H.
  assert (E : (N.lor 0xd800 x =? 0xd800 + x) = true).
  { apply (@below 1024 (fun x => N.lor 0xd800 x =? 0xd800 + x));
      [vm_compute; reflexivity | exact H]. }
  apply N.eqb_eq in E. exact E.
Qed.

Lemma lor_low x : x < 1024 -> N.lor 0xdc00 x = 0xdc00 + x.
Proof.
  intros H.
  assert (E : (N.lor 0xdc00 x =? 0xdc00 + x) = true).
  { apply (@below 1024 (fun x => N.lor 0xdc00 x =? 0xdc00 + x));
      [vm_compute; reflexivity | exact H]. }
  apply N.eqb_eq in E. exact E.
Qed.

(** The two halves of a code point above U+FFFF. *)
Lemma surrogates c :
  65536 <= c -> c < 0x110000 ->
  let v := c - 65536 in
  N.lor 0xd800 (N.land (N.shiftr v 10) 0x3ff) = 0xd800 + v / 1024
  /\ N.lor 0xdc00 (N.land v 0x3ff) = 0xdc00 + v mod 1024
  /\ v / 1024 < 1024.
Proof.
  intros H1 H2 v.
  assert (Hv : v < 0x100000) by (unfold v; lia).
  change 0x3ff with (N.ones 10). rewrite !N.land_ones.
  rewrite N.shiftr_div_pow2. change (2 ^ 10) with 1024.
  assert (Hq : v / 1024 < 1024) by lia.
  rewrite (N.mod_small (v / 1024) 1024) by exact Hq.
  rewrite lor_high by exact Hq.
  rewrite lor_low by (apply N.mod_lt; discriminate).
  auto.
Qed.

Ltac tests :=
  repeat match goal with
         | |- context [?a =? ?b] =>
           first [ replace (a =? b) with false
                     by (symmetry; apply N.eqb_neq; lia)
                 | replace (a =? b) with true
                     by (symmetry; apply N.eqb_eq; lia) ]
         | |- context [?a <? ?b] =>
           first [ replace (a <? b) with false
                     by (symmetry; apply N.ltb_ge; lia)
                 | replace (a <? b) with true
                     by (symmetry; apply N.ltb_lt; lia) ]
         | |- context [?a <=? ?b] =>
           first [ replace (a <=? b) with false
                     by (symmetry; apply N.leb_gt; lia)
                 | replace (a <=? b) with true
                     by (symmetry; apply N.leb_le; lia) ]
         end.

(** One character written by [json.dumps], read back. *)
Lemma read_escape_char c rest :
  scalar c = true ->
  read_chars (escape_char c ++ rest) = push c (read_chars rest).
Proof.
  intros Hs. unfold scalar in Hs. unfold escape_char.
  destruct (N.eqb_spec c 34); [subst; reflexivity|].
  destruct (N.eqb_spec c 92); [subst; reflexivity|].
  destruct (N.eqb_spec c 10); [subst; reflexivity|].
  destruct (N.eqb_spec c 13); [subst; reflexivity|].
  destruct (N.eqb_spec c 9); [subst; reflexivity|].
  destruct (N.eqb_spec c 12); [subst; reflexivity|].
  destruct (N.eqb_spec c 8); [subst; reflexivity|].
  destruct ((32 <=? c) && (c <=? 126)) eqn:Hp.
  { apply andb_prop in Hp. destruct Hp as [P1 P2].
    apply N.leb_le in P1, P2.
    cbn [app read_chars]. tests. reflexivity. }
  destruct (N.ltb_spec c 65536) as [Hlt | Hge].
  - (* one escape *)
    assert (Hns : is_high c = false).
    { unfold is_high. apply orb_prop in Hs. destruct Hs as [Hs | Hs].
      - apply N.ltb_lt in Hs. tests. reflexivity.
      - apply andb_prop in Hs. destruct Hs as [Hs _]. apply N.ltb_lt in Hs.
        tests. apply andb_false_r. }
    unfold escape_u.
    change (str "\u") with [92; 117]. cbn [app read_chars].
    change (92 =? 34) with false. change (92 <? 32) with false.
    change (92 =? 92) with true. change (117 =? 117) with true. cbv iota.
    rewrite (hex4_escape Hlt). rewrite Hns. cbn [andb].
    destruct rest as [|r0 [|r1 [|r2 [|r3 [|r4 [|r5 rest']]]]]]; reflexivity.
  - (* a pair *)
    assert (Hc : c < 0x110000).
    { apply orb_prop in Hs. destruct Hs as [Hs | Hs].
      - apply N.ltb_lt in Hs. lia.
      - apply andb_prop in Hs. destruct Hs as [_ Hs]. apply N.ltb_lt in Hs.
        exact Hs. }
    destruct (surrogates Hge Hc) as (E1 & E2 & Hq). cbv zeta in E1, E2.
    rewrite E1, E2. clear E1 E2.
    set (v := c - 65536) in *.
    assert (Hm : v mod 1024 < 1024) by (apply N.mod_lt; discriminate).
    unfold escape_u.
    change (str "\u") with [92; 117]. rewrite <- !app_assoc.
    cbn [app read_chars].
    change (92 =? 34) with false. change (92 <? 32) with false.
    change (92 =? 92) with true. change (117 =? 117) with true. cbv iota.
    rewrite (@hex4_escape (0xd800 + v / 1024)) by lia.
    rewrite (@hex4_escape (0xdc00 + v mod 1024)) by lia.
    unfold is_high, is_low. tests. cbn [andb].
    f_equal. unfold v. lia.
Qed.

(** A string literal written by [json.dumps], read back. *)
Lemma read_encode_str s rest :
  forallb scalar s = true ->
  read_str (encode_str s ++ rest) = Some (s, rest).
Proof.
  intros Hs. unfold encode_str, read_str. cbn [app].
  change (34 =? 34) with true. cbv iota. rewrite <- app_assoc.
  induction s as [|c s IH].
  - reflexivity.
  - cbn [forallb] in Hs. apply andb_prop in Hs. destruct Hs as [Hc Hs].
    cbn [flat_map]. rewrite <- app_assoc, (@read_escape_char c _ Hc), (IH Hs).
    reflexivity.
Qed.

Lemma expect_app lit rest : expect lit (lit ++ rest) = Some rest.
Proof.
  induction lit as [|x lit IH]; [reflexivity|].
  cbn [app expect]. rewrite N.eqb_refl. exact IH.
Qed.

(** The digits written for a number, read back, when no digit
    follows. *)
Lemma read_digits_uint d c rest :
  is_digit c = false ->
  read_digits (str (NilEmpty.string_of_uint d) ++ c :: rest) = (d, c :: rest).
Proof.
  intros Hc. induction d;
    [cbn [NilEmpty.string_of_uint]; change (str "") with (@nil N);
     cbn [app read_digits]; rewrite Hc; reflexivity | ..];
    cbn [NilEmpty.string_of_uint];
    match goal with
    | |- read_digits (str (String ?a ?s) ++ _) = _ =>
      change (str (String a s)) with (N_of_ascii a :: str s)
    end;
    cbn [app read_digits]; rewrite IHd; reflexivity.
Qed.

Lemma read_int_str_of_int z c rest :
  is_digit c = false -> c <> 45 ->
  read_int (str_of_int z ++ c :: rest) = Some (z, c :: rest).
Proof.
  intros Hc Hm. unfold str_of_int, NilZero.string_of_int.
  pose proof (DecimalZ.of_to z) as Hz.
  destruct (Z.to_int z) as [d|d] eqn:Ez.
  - assert (Hd : d <> Decimal.Nil).
    { destruct z; cbn in Ez; inversion Ez; try discriminate;
        apply DecimalPos.Unsigned.to_uint_nonnil. }
    unfold NilZero.string_of_uint.
    assert (E : str match d with
                    | Decimal.Nil => "0"%string
                    | _ => NilEmpty.string_of_uint d
                    end = str (NilEmpty.string_of_uint d))
      by (destruct d; try reflexivity; destruct (Hd eq_refl)).
    rewrite E. clear E.
    assert (Hhead : exists h t,
               str (NilEmpty.string_of_uint d) = h :: t /\ is_digit h = true).
    { destruct d; try (destruct (Hd eq_refl)); cbn [NilEmpty.string_of_uint];
        eexists; eexists; (split; [reflexivity | reflexivity]). }
    destruct Hhead as (h & t & Eh & Hh).
    unfold read_int.
    assert (Hne : (h =? 45) = false).
    { unfold is_digit in Hh. apply andb_prop in Hh. destruct Hh as [H1 H2].
      apply N.leb_le in H1, H2. apply N.eqb_neq. lia. }
    pose proof (@read_digits_uint d c rest Hc) as R. rewrite Eh in *.
    cbn [app] in *. rewrite Hne, R.
    destruct d; try (destruct (Hd eq_refl)); rewrite Hz; reflexivity.
  - assert (Hd : d <> Decimal.Nil).
    { destruct z; cbn in Ez; inversion Ez;
        apply DecimalPos.Unsigned.to_uint_nonnil. }
    unfold NilZero.string_of_uint.
    assert (E : str (String "-"
                       match d with
                       | Decimal.Nil => "0"%string
                       | _ => NilEmpty.string_of_uint d
                       end) = 45 :: str (NilEmpty.string_of_uint d))
      by (destruct d; try reflexivity; destruct (Hd eq_refl)).
    rewrite E. clear E. unfold read_int. cbn [app].
    change (45 =? 45) with true. cbv iota.
    rewrite (@read_digits_uint d c rest Hc).
    destruct d; try (destruct (Hd eq_refl)); rewrite Hz; reflexivity.
Qed.

End ReadFacts.

Module LineFacts.
Import Json JsonRead ReadFacts.

(** The text of a line, key by key. *)
Lemma dumps_layout m :
  dumps (message_dict m)
  = key "{" "topic" ++ encode_str (topic m)
    ++ key ", " "payload" ++ encode_str (payload m)
    ++ key ", " "datetime" ++ encode_str (datetime m)
    ++ key ", " "qos" ++ str_of_int (qos m)
    ++ key ", " "retain"
    ++ (if retain m then str "true" else str "false") ++ str "}".
Proof.
  unfold dumps, message_dict. cbn [map join].
  unfold encode_item. cbn [fst snd encode].
  change (encode_str (str "topic")) with ([34] ++ str "topic" ++ [34]).
  change (encode_str (str "payload")) with ([34] ++ str "payload" ++ [34]).
  change (encode_str (str "datetime")) with ([34] ++ str "datetime" ++ [34]).
  change (encode_str (str "qos")) with ([34] ++ str "qos" ++ [34]).
  change (encode_str (str "retain")) with ([34] ++ str "retain" ++ [34]).
  unfold key. rewrite <- !app_assoc.
  destruct (retain m); reflexivity.
Qed.

(** A line read back, field by field. *)
Lemma read_dumps t p d q r :
  forallb scalar t = true ->
  forallb scalar p = true ->
  forallb scalar d = true ->
  read_line (dumps (message_dict (Message t p d q r)))
  = Some (Message t p d q r).
Proof.
  intros Ht Hp Hd. rewrite dumps_layout.
  cbn [topic payload datetime qos retain]. unfold read_line.
  rewrite expect_app, (@read_encode_str t _ Ht).
  rewrite expect_app, (@read_encode_str p _ Hp).
  rewrite expect_app, (@read_encode_str d _ Hd).
  rewrite expect_app.
  change (key ", " "retain")
    with (44 :: 32 :: [34] ++ str "retain" ++ [34] ++ str ": ").
  cbn [app].
  rewrite (@read_int_str_of_int q 44 _ eq_refl) by discriminate.
  destruct r; reflexivity.
Qed.

End LineFacts.

(** X17.  A line of the file reads back to the record it was written
    for: when the three texts of a record are Unicode scalar values,
    reading [json.dumps(message)] gives the topic, the payload, the
    time, the qos and the retain flag of the record. *)
Theorem line_reads_back (m : message) :
  forallb scalar (topic m) = true ->
  forallb scalar (payload m) = true ->
  forallb scalar (datetime m) = true ->
  JsonRead.read_line (Json.dumps (message_dict m)) = Some m.
Proof.
  destruct m as [t p d q r]. cbn [topic payload datetime].
  intros Ht Hp Hd. apply LineFacts.read_dumps; assumption.
Qed.

Lemma line_reads_back_witness :
  forallb scalar (topic Sample.binary_record) = true
  /\ forallb scalar (payload Sample.binary_record) = true
  /\ forallb scalar (datetime Sample.binary_record) = true
  /\ JsonRead.read_line (Json.dumps (message_dict Sample.binary_record))
     = Some Sample.binary_record.
Proof.
  repeat (split; [reflexivity|]).
  apply (@line_reads_back Sample.binary_record); reflexivity.
Defined.

(** Two lone surrogates in a text are written as the pair of a single
    code point, and read back as that code point: the hypothesis of
    scalar values is needed. *)
Example surrogates_do_not_read_back :
  JsonRead.read_str (Json.encode_str [0xD83D; 0xDE00]) = Some ([0x1F600], []).
Proof. vm_compute. reflexivity. Qed.

(** X18.  Whatever bytes are delivered, the line written for the record
    [on_message] makes reads back to that record, when the topic and
    the time are texts of scalar values: the base64 fallback and the
    escapes of [json.dumps] lose nothing of what was stored. *)
Theorem delivered_message_reads_back
        (now : pystr) (msg : MQTTMessage) (w : world) :
  forallb scalar (msg_topic msg) = true ->
  forallb scalar now = true ->
  exists m,
    message_queue (snd (on_message now msg w)) = message_queue w ++ [m]
    /\ JsonRead.read_line (Json.dumps (message_dict m)) = Some m.
Proof.
  intros Ht Hn.
  destruct (CodecFacts.fallback_roundtrip (msg_payload msg)) as [Henc _].
  unfold on_message, stored_payload.
  destruct (Utf8.decode (msg_payload msg)) as [text|] eqn:Hutf.
  - eexists. split; [reflexivity|].
    apply LineFacts.read_dumps; auto.
    eapply ScalarFacts.decode_scalar; [apply Nat.le_refl | exact Hutf].
  - rewrite Henc. eexists. split; [reflexivity|].
    apply LineFacts.read_dumps; auto.
    apply ScalarFacts.ascii_scalar, CodecFacts.b64encode_ascii.
Qed.

Lemma delivered_message_reads_back_witness :
  forallb scalar (msg_topic Sample.binary) = true
  /\ forallb scalar Sample.now = true
  /\ exists m,
       message_queue (snd (on_message Sample.now Sample.binary
                                      (fresh [] [] [])))
       = [] ++ [m]
       /\ JsonRead.read_line (Json.dumps (message_dict m)) = Some m.
Proof.
  split; [reflexivity|]. split; [reflexivity|].
  apply (@delivered_message_reads_back Sample.now Sample.binary
           (fresh [] [] [])); reflexivity.
Defined.

(** X19.  The two sinks fail apart: whatever fails in it,
    [save_to_sqlite_batch] leaves the file and the queue as they are,
    and [save_to_json] leaves the table, the open transaction and the
    queue as they are; each ends normally or with the interrupt that
    stopped it, never with an exception of class [Exception]. *)
Theorem sink_functions_are_independent
        (args : Args) (b : list message) (m : message) (w : world) :
  (json_file (snd (save_to_sqlite_batch b w)) = json_file w
   /\ message_queue (snd (save_to_sqlite_batch b w)) = message_queue w
   /\ (fst (save_to_sqlite_batch b w) = Ok tt
       \/ fst (save_to_sqlite_batch b w) = Raise KeyboardInterrupt))
  /\ (db_rows (snd (save_to_json args m w)) = db_rows w
      /\ db_pending (snd (save_to_json args m w)) = db_pending w
      /\ message_queue (snd (save_to_json args m w)) = message_queue w
      /\ (fst (save_to_json args m w) = Ok tt
          \/ fst (save_to_json args m w) = Raise KeyboardInterrupt)).
Proof.
  split.
  - destruct (Statements.save_to_sqlite_batch_frame b w)
      as (Hq & _ & _ & Hr & _).
    destruct (Statements.save_to_sqlite_batch_data b w) as (Hf & _).
    auto.
  - destruct w as [q rows pend file lr cn fs tr].
    unfold save_to_json, with_open_append, file_write. unfold_M.
    faults_cases; repeat split; auto.
Qed.
